(** * Rule derivation of the OPIN validator: [opin_persistence/processor.py]

    A shallow embedding of [processor.py] and the properties of its rule
    derivation.  The Python values the processor walks over (the result of
    loading a YAML document) are embedded as a small value universe with the
    dynamic behaviour of the builtins the processor calls; exceptions are
    explicit results.  The run is embedded twice: on the document as a
    value, each schema a value of its own, and on the objects of the
    loader, with their addresses, where an assignment is seen through
    every place that holds the object. *)

From Stdlib Require Import ZArith List String Ascii Bool Arith Lia DecimalString.
Import ListNotations.
Local Open Scope string_scope.
Local Open Scope list_scope.
Set Warnings "-register-all".

(** ** Python values and exceptions *)

(** The exceptions the builtins used by the processor can raise. *)
Inductive exn : Type := TypeError | KeyError | AttributeError.

Inductive res (A : Type) : Type :=
| Ok (a : A)
| Raise (e : exn).
Arguments Ok {A} a.
Arguments Raise {A} e.

Definition bind {A B : Type} (m : res A) (k : A -> res B) : res B :=
  match m with
  | Ok a => k a
  | Raise e => Raise e
  end.

Notation "'let*' x ':=' m 'in' k" := (bind m (fun x => k))
  (at level 10, x name, m at level 100, k at level 200).

(** A loaded YAML value.  Mappings keep their insertion order, as Python
    dicts do, and have string keys; a float is kept as the text [str] gives
    for it, the only thing the processor ever asks of one.  One [ascii]
    stands for one character of a Python string. *)
Inductive json : Type :=
| JNone
| JBool (b : bool)
| JInt (z : Z)
| JFloat (repr : string)
| JStr (s : string)
| JList (l : list json)
| JDict (d : list (string * json)).

Definition dict : Type := list (string * json).

(** *** Dictionaries *)

Fixpoint dict_get (k : string) (d : dict) : option json :=
  match d with
  | [] => None
  | (k', v) :: d' => if String.eqb k' k then Some v else dict_get k d'
  end.

Definition dict_mem (k : string) (d : dict) : bool :=
  match dict_get k d with Some _ => true | None => false end.

(** [d[k] = v]: the value is replaced where the key stands, a new key goes
    to the end. *)
Fixpoint dict_set (k : string) (v : json) (d : dict) : dict :=
  match d with
  | [] => [(k, v)]
  | (k', v') :: d' =>
      if String.eqb k' k then (k', v) :: d' else (k', v') :: dict_set k v d'
  end.

(** *** Strings *)

(** [needle in hay] for two strings. *)
Fixpoint contains (needle hay : string) : bool :=
  String.prefix needle hay ||
  match hay with
  | EmptyString => false
  | String _ hay' => contains needle hay'
  end.

(** [s.endswith(suf)]. *)
Fixpoint endswith (s suf : string) : bool :=
  String.eqb s suf ||
  match s with
  | EmptyString => false
  | String _ s' => endswith s' suf
  end.

Definition startswith (s pre : string) : bool := String.prefix pre s.

Definition is_upper (c : ascii) : bool :=
  let n := nat_of_ascii c in
  (((65 <=? n) && (n <=? 90)) ||
  ((192 <=? n) && (n <=? 222) && negb (n =? 215)))%nat.

Definition lower_ascii (c : ascii) : ascii :=
  if is_upper c then ascii_of_nat (nat_of_ascii c + 32) else c.

(** [s.lower()]. *)
Fixpoint lower (s : string) : string :=
  match s with
  | EmptyString => EmptyString
  | String c s' => String (lower_ascii c) (lower s')
  end.

(** [os.path.basename(p)]: what follows the last slash. *)
Fixpoint basename (p : string) : string :=
  match p with
  | EmptyString => EmptyString
  | String _ p' => if contains "/" p then basename p' else p
  end.

Fixpoint chars (s : string) : list json :=
  match s with
  | EmptyString => []
  | String c s' => JStr (String c EmptyString) :: chars s'
  end.

(** *** Builtins on values *)

Definition is_str (s : string) (v : json) : bool :=
  match v with
  | JStr t => String.eqb t s
  | _ => false
  end.

(** [bool(v)]. *)
Definition truthy (v : json) : bool :=
  match v with
  | JNone => false
  | JBool b => b
  | JInt z => negb (Z.eqb z 0)
  | JFloat r => negb (String.eqb r "0.0" || String.eqb r "-0.0")
  | JStr s => negb (String.eqb s EmptyString)
  | JList l => match l with [] => false | _ => true end
  | JDict d => match d with [] => false | _ => true end
  end.

(** [k in v] for a string [k]: key of a dict, element of a list, substring
    of a string; other values are not containers. *)
Definition py_in (k : string) (v : json) : res bool :=
  match v with
  | JDict d => Ok (dict_mem k d)
  | JList l => Ok (existsb (is_str k) l)
  | JStr s => Ok (contains k s)
  | _ => Raise TypeError
  end.

(** [v[k]] for a string [k]. *)
Definition py_getitem (v : json) (k : string) : res json :=
  match v with
  | JDict d =>
      match dict_get k d with
      | Some x => Ok x
      | None => Raise KeyError
      end
  | _ => Raise TypeError
  end.

(** [v.get(k, default)]. *)
Definition py_get (v : json) (k : string) (default : json) : res json :=
  match v with
  | JDict d =>
      match dict_get k d with
      | Some x => Ok x
      | None => Ok default
      end
  | _ => Raise AttributeError
  end.

(** [v.items()]. *)
Definition py_items (v : json) : res dict :=
  match v with
  | JDict d => Ok d
  | _ => Raise AttributeError
  end.

(** [for x in v]. *)
Definition py_iter (v : json) : res (list json) :=
  match v with
  | JList l => Ok l
  | JStr s => Ok (chars s)
  | JDict d => Ok (map (fun kv => JStr (fst kv)) d)
  | _ => Raise TypeError
  end.

(** [v.endswith(suf)]. *)
Definition py_endswith (v : json) (suf : string) : res bool :=
  match v with
  | JStr s => Ok (endswith s suf)
  | _ => Raise AttributeError
  end.

(** [v.split("/")[-1]] is only read for a log line; what matters is that
    it raises on anything but a string. *)
Definition py_split_last (v : json) : res unit :=
  match v with
  | JStr _ => Ok tt
  | _ => Raise AttributeError
  end.

(** *** [len(str(v))] *)

Definition printable (c : ascii) : bool :=
  let n := nat_of_ascii c in
  (((32 <=? n) && (n <=? 126)) || ((161 <=? n) && negb (n =? 173)))%nat.

(** Width of one character inside [repr] of a string quoted with [q]. *)
Definition repr_char_len (q c : ascii) : nat :=
  if Ascii.eqb c "\" || Ascii.eqb c q then 2
  else if Ascii.eqb c "009" || Ascii.eqb c "010" || Ascii.eqb c "013" then 2
  else if printable c then 1 else 4.

Fixpoint repr_body_len (q : ascii) (s : string) : nat :=
  match s with
  | EmptyString => 0
  | String c s' => repr_char_len q c + repr_body_len q s'
  end.

Definition dquote : ascii := ascii_of_nat 34.
Definition squote : ascii := ascii_of_nat 39.

(** [len(repr(s))] for a string: double quotes are chosen when the string
    has a single quote and no double quote. *)
Definition repr_str_len (s : string) : nat :=
  let q :=
    if contains (String squote EmptyString) s
       && negb (contains (String dquote EmptyString) s)
    then dquote else squote in
  2 + repr_body_len q s.

Definition int_len (z : Z) : nat :=
  String.length (NilZero.string_of_int (Z.to_int z)).

(** [len(repr(v))]: elements are joined by a comma and a space, a key and
    its value by a colon and a space. *)
Fixpoint repr_len (v : json) : nat :=
  match v with
  | JNone => 4
  | JBool true => 4
  | JBool false => 5
  | JInt z => int_len z
  | JFloat r => String.length r
  | JStr s => repr_str_len s
  | JList l =>
      2 + (fix go (l : list json) : nat :=
             match l with
             | [] => 0
             | [x] => repr_len x
             | x :: l' => repr_len x + 2 + go l'
             end) l
  | JDict d =>
      2 + (fix go (d : list (string * json)) : nat :=
             match d with
             | [] => 0
             | [(k, x)] => repr_str_len k + 2 + repr_len x
             | (k, x) :: d' => repr_str_len k + 2 + repr_len x + 2 + go d'
             end) d
  end.

Definition str_len (v : json) : nat :=
  match v with
  | JStr s => String.length s
  | _ => repr_len v
  end.

(** [max(l)] for a list of lengths that is not empty. *)
Definition max_list (l : list nat) : nat := fold_right Nat.max 0 l.

(** ** The field classifier *)

Definition extract_field_type (field_data : json) : res json :=
  let* has_type := py_in "type" field_data in
  if has_type then py_getitem field_data "type"
  else
    let* has_ref := py_in "$ref" field_data in
    if has_ref then Ok (JStr "string") else Ok (JStr "string").

Definition calculate_field_size (field_name : string) (field_data : json)
  : res json :=
  let* field_type := extract_field_type field_data in
  if is_str "string" field_type then
    let* has_max := py_in "maxLength" field_data in
    if has_max then py_getitem field_data "maxLength"
    else
      let* has_enum := py_in "enum" field_data in
      if has_enum then
        let* enum := py_getitem field_data "enum" in
        if truthy enum then
          let* es := py_iter enum in
          Ok (JInt (Z.of_nat (max_list (map str_len es))))
        else Ok (JInt 0)
      else Ok (JInt 100)
  else if is_str "number" field_type || is_str "integer" field_type then
    Ok (JInt 10)
  else Ok (JInt 1).

(** ** The store *)

(** The body of a validation rule, [rule_config] in the processor:
    [enum_values] is set only when the field's enum is not empty. *)
Record rule_config : Type := mk_rule {
  rule_type : json;
  rule_size : json;
  rule_required : bool;
  rule_enum_values : option json
}.

(** Modelled from the spec: the session behind [repository.py], which is not
    part of the sources.  Three tables keyed by natural identity (a group by
    its name, a dataset by its name within a group, a rule by its field name
    within a dataset); the identifier of a row is its rank in its table. *)
Record Session : Type := mk_session {
  grupos : list string;
  conjuntos : list (string * nat);
  regras : list ((nat * string) * rule_config)
}.

Definition empty_session : Session := mk_session [] [] [].

Section Tables.
Context {K V : Type} (eqb : K -> K -> bool).

Fixpoint rank (k : K) (l : list K) : option nat :=
  match l with
  | [] => None
  | k' :: l' =>
      if eqb k' k then Some 1
      else match rank k l' with Some i => Some (S i) | None => None end
  end.

(** Create or reuse a row that has no body. *)
Definition reuse (k : K) (l : list K) : nat * list K :=
  match rank k l with
  | Some i => (i, l)
  | None => (S (List.length l), l ++ [k])
  end.

Fixpoint row_get (k : K) (t : list (K * V)) : option V :=
  match t with
  | [] => None
  | (k', v) :: t' => if eqb k' k then Some v else row_get k t'
  end.

(** Create a row or overwrite its body: the last write wins. *)
Fixpoint row_set (k : K) (v : V) (t : list (K * V)) : list (K * V) :=
  match t with
  | [] => [(k, v)]
  | (k', v') :: t' =>
      if eqb k' k then (k', v) :: t' else (k', v') :: row_set k v t'
  end.
End Tables.

Definition conjunto_eqb (a b : string * nat) : bool :=
  String.eqb (fst a) (fst b) && Nat.eqb (snd a) (snd b).

Definition regra_eqb (a b : nat * string) : bool :=
  Nat.eqb (fst a) (fst b) && String.eqb (snd a) (snd b).

(** Modelled from the spec: [upsert_grupo] of [repository.py], an idempotent
    create-or-reuse of a group by name that returns its identifier. *)
Definition upsert_grupo (session : Session) (nome : string) : nat * Session :=
  let (id, g) := reuse String.eqb nome (grupos session) in
  (id, mk_session g (conjuntos session) (regras session)).

(** Modelled from the spec: [upsert_conjunto_dados] of [repository.py], an
    idempotent create-or-reuse of a dataset by name within a group. *)
Definition upsert_conjunto_dados (session : Session) (nome : string)
    (grupo_id : nat) : nat * Session :=
  let (id, c) := reuse conjunto_eqb (nome, grupo_id) (conjuntos session) in
  (id, mk_session (grupos session) c (regras session)).

(** Modelled from the spec: [upsert_regra_validacao] of [repository.py], an
    upsert of a rule by field name within a dataset, last write wins on the
    body. *)
Definition upsert_regra_validacao (session : Session) (conjunto_id : nat)
    (campo : string) (config : rule_config) : nat * Session :=
  let r := row_set regra_eqb (conjunto_id, campo) config (regras session) in
  (match rank regra_eqb (conjunto_id, campo) (map fst r) with
   | Some i => i
   | None => 0
   end,
   mk_session (grupos session) (conjuntos session) r).

Definition find_regra (session : Session) (conjunto_id : nat) (campo : string)
  : option rule_config :=
  row_get regra_eqb (conjunto_id, campo) (regras session).

(** ** The insurance category *)

Definition is_insurance_related_file (yaml_path : string) : bool :=
  let basename := lower (basename yaml_path) in
  if startswith basename "insurance" then true
  else if existsb (String.eqb basename) ["person.yaml"; "resources_v2.yaml"]
  then true
  else false.

(** ** Flattening of [allOf] *)

Fixpoint foldM {A S : Type} (f : S -> A -> res S) (l : list A) (s : S)
  : res S :=
  match l with
  | [] => Ok s
  | x :: l' => let* s' := f s x in foldM f l' s'
  end.

(** [v.copy()]. *)
Definition py_copy (v : json) : res json :=
  match v with
  | JDict _ | JList _ => Ok v
  | _ => Raise AttributeError
  end.

(** [v[k] = x] for a string [k]. *)
Definition py_setitem (v : json) (k : string) (x : json) : res json :=
  match v with
  | JDict d => Ok (JDict (dict_set k x d))
  | _ => Raise TypeError
  end.

(** [k == name and "properties" in data]. *)
Definition named_with_properties (name k : string) (data : json) : res bool :=
  if String.eqb k name then py_in "properties" data else Ok false.

(** Lines 188-200: the fields of [unit]. *)
Definition flatten_unit (processed_properties : json)
    (unit_field : string * json) : res json :=
  let (unit_field, unit_data) := unit_field in
  let unit_field_name := ("amount_unit_" ++ unit_field)%string in
  let* unit_field_size := calculate_field_size unit_field unit_data in
  py_setitem processed_properties unit_field_name
    (JDict [("type", JStr "string"); ("maxLength", unit_field_size)]).

(** Lines 169-200: the fields of [amount]. *)
Definition flatten_amount (processed_properties : json)
    (sub : string * json) : res json :=
  let (sub_field, sub_data) := sub in
  let field_name := ("amount_" ++ sub_field)%string in
  let* field_size := calculate_field_size sub_field sub_data in
  let* field_type := extract_field_type sub_data in
  let* processed_properties :=
    py_setitem processed_properties field_name
      (JDict [("type", field_type); ("maxLength", field_size)]) in
  let* is_unit := named_with_properties "unit" sub_field sub_data in
  if is_unit then
    let* unit_properties := py_get sub_data "properties" (JDict []) in
    let* unit_items := py_items unit_properties in
    foldM flatten_unit unit_items processed_properties
  else Ok processed_properties.

(** Lines 163-200: one property of a composed element. *)
Definition flatten_property (processed_properties : json)
    (prop : string * json) : res json :=
  let (prop_name, prop_data) := prop in
  let* is_amount := named_with_properties "amount" prop_name prop_data in
  if is_amount then
    let* amount_properties := py_get prop_data "properties" (JDict []) in
    let* amount_items := py_items amount_properties in
    foldM flatten_amount amount_items processed_properties
  else Ok processed_properties.

(** Line 158: ["$ref" in item and "/AmountDetails" in item["$ref"]]. *)
Definition refers_to_amount_details (item : json) : res bool :=
  let* has_ref := py_in "$ref" item in
  if has_ref then
    let* ref := py_getitem item "$ref" in
    py_in "/AmountDetails" ref
  else Ok false.

(** Lines 158-200: one element of [allOf]. *)
Definition flatten_item (processed_properties : json) (item : json)
  : res json :=
  let* is_ref := refers_to_amount_details item in
  if is_ref then
    let* has_properties := py_in "properties" item in
    if has_properties then
      let* ref_properties := py_get item "properties" (JDict []) in
      let* ref_items := py_items ref_properties in
      foldM flatten_property ref_items processed_properties
    else Ok processed_properties
  else Ok processed_properties.

(** Lines 152-202. *)
Definition flatten_all_of (properties all_of : json) : res json :=
  let* processed_properties := py_copy properties in
  if truthy all_of then
    let* items := py_iter all_of in
    foldM flatten_item items processed_properties
  else Ok processed_properties.

(** ** Rule derivation for one schema *)

(** Lines 208-213: a reference to a schema other than AmountDetails. *)
Definition foreign_reference (is_insurance_schema : bool) (prop_data : json)
  : res bool :=
  if is_insurance_schema then
    let* has_ref := py_in "$ref" prop_data in
    if has_ref then
      let* ref_value := py_getitem prop_data "$ref" in
      let* ends := py_endswith ref_value "/AmountDetails" in
      Ok (negb ends)
    else Ok false
  else Ok false.

(** Line 216: an array whose items carry a reference. *)
Definition array_of_references (is_insurance_schema : bool) (prop_data : json)
  : res bool :=
  if is_insurance_schema then
    let* type := py_get prop_data "type" JNone in
    if is_str "array" type then
      let* has_items := py_in "items" prop_data in
      if has_items then
        let* items := py_getitem prop_data "items" in
        py_in "$ref" items
      else Ok false
    else Ok false
  else Ok false.

(** Lines 207-236, the body of the [try] up to the call of the store:
    [Ok None] is a [continue], [Raise] goes to the [except] of the loop. *)
Definition rule_of_property (is_insurance_schema : bool)
    (required_fields : json) (prop_name : string) (prop_data : json)
  : res (option rule_config) :=
  let* skip := foreign_reference is_insurance_schema prop_data in
  if skip then Ok None
  else
    let* skip := array_of_references is_insurance_schema prop_data in
    if skip then
      let* items := py_getitem prop_data "items" in
      let* ref := py_getitem items "$ref" in
      let* _ := py_split_last ref in
      Ok None
    else
      let* field_type := extract_field_type prop_data in
      let* field_size := calculate_field_size prop_name prop_data in
      let* field_enum := py_get prop_data "enum" (JList []) in
      let* field_required := py_in prop_name required_fields in
      Ok (Some (mk_rule field_type field_size field_required
                  (if truthy field_enum then Some field_enum else None))).

(** Lines 205-243: one turn of the loop over the processed properties. *)
Definition process_property (is_insurance_schema : bool)
    (required_fields : json) (conjunto_id : nat)
    (st : Session * nat) (prop : string * json) : Session * nat :=
  let (session, processed_count) := st in
  let (prop_name, prop_data) := prop in
  match rule_of_property is_insurance_schema required_fields
          prop_name prop_data with
  | Ok (Some rule_config) =>
      let (_, session) :=
        upsert_regra_validacao session conjunto_id prop_name rule_config in
      (session, processed_count + 1)
  | Ok None => (session, processed_count)
  | Raise _ => (session, processed_count)
  end.

(** Lines 143-202: what the schema is read for, before any rule is
    written. *)
Definition schema_properties (schema_data : json) : res (json * dict) :=
  let* meta := py_copy schema_data in
  let* required_fields := py_get meta "required" (JList []) in
  let* properties := py_get meta "properties" (JDict []) in
  let* all_of := py_get meta "allOf" (JList []) in
  let* processed_properties := flatten_all_of properties all_of in
  let* items := py_items processed_properties in
  Ok (required_fields, items).

Definition process_schema_fields (session : Session) (schema_name : string)
    (schema_data : json) (conjunto_id : nat) (is_insurance_schema : bool)
  : Session * res nat :=
  match schema_properties schema_data with
  | Raise e => (session, Raise e)
  | Ok (required_fields, items) =>
      let (session, processed_count) :=
        fold_left
          (process_property is_insurance_schema required_fields conjunto_id)
          items (session, 0) in
      (session, Ok processed_count)
  end.

(** ** The policyId field *)

Definition policy_id_property : json :=
  JDict [("type", JStr "string"); ("maxLength", JInt 100);
         ("description", JStr "Identificador u00fanico da apu00f3lice")].

(** [k not in v], then [v[k] = x]. *)
Definition py_setdefault (v : json) (k : string) (x : json) : res json :=
  let* present := py_in k v in
  if present then Ok v else py_setitem v k x.

(** [v.append(x)]. *)
Definition py_append (v : json) (x : json) : res json :=
  match v with
  | JList l => Ok (JList (l ++ [x]))
  | _ => Raise AttributeError
  end.

(** A step on the schema that keeps what was written before it raised. *)
Notation "'try*' x ':=' m 'keeping' s 'in' k" :=
  (match m with
   | Ok x => k
   | Raise e => (s, Raise e)
   end)
  (at level 10, x name, m at level 100, s at level 0, k at level 200).

(** Lines 101-106: policyId goes to the required list, unless listed. *)
Definition require_policy_id (schema_data : json) : json * res unit :=
  try* schema_data := py_setdefault schema_data "required" (JList [])
    keeping schema_data in
  try* required := py_getitem schema_data "required"
    keeping schema_data in
  try* listed := py_in "policyId" required keeping schema_data in
  if listed then (schema_data, Ok tt)
  else
    try* required := py_append required (JStr "policyId")
      keeping schema_data in
    try* schema_data := py_setitem schema_data "required" required
      keeping schema_data in
    (schema_data, Ok tt).

(** Lines 90-106, on the schema of the loaded document, which is changed
    in place: the result is the schema as the lines leave it. *)
Definition inject_policy_id (schema_data : json) : json * res unit :=
  try* properties := py_get schema_data "properties" (JDict [])
    keeping schema_data in
  try* declared := py_in "policyId" properties keeping schema_data in
  if declared then (schema_data, Ok tt)
  else
    try* schema_data := py_setdefault schema_data "properties" (JDict [])
      keeping schema_data in
    try* properties := py_getitem schema_data "properties"
      keeping schema_data in
    try* properties := py_setitem properties "policyId" policy_id_property
      keeping schema_data in
    try* schema_data := py_setitem schema_data "properties" properties
      keeping schema_data in
    require_policy_id schema_data.

(** ** A document *)

(** What [process_yaml_to_db] leaves behind: the loaded schemas as the run
    left them, the session, and the value returned. *)
Record outcome : Type := mk_outcome {
  out_schemas : dict;
  out_session : Session;
  out_result : res (list string)
}.

(** Lines 75-113: the loop over the schemas of the document, each schema
    a value of its own, as in a document where no mapping and no list is
    held at two places.  The loop on the objects of the loader, where the
    assignments of lines 92-105 are seen through every schema that holds
    the object, is [process_schemas_h] below. *)
Fixpoint process_schemas (items : dict) (grupo_id : nat)
    (yaml_is_insurance : bool) (session : Session)
    (processed_schemas : list string) : outcome :=
  match items with
  | [] => mk_outcome [] session (Ok processed_schemas)
  | (schema_name, schema_data) :: rest =>
      if String.eqb schema_name "AmountDetails" && yaml_is_insurance then
        let o := process_schemas rest grupo_id yaml_is_insurance session
                   processed_schemas in
        mk_outcome ((schema_name, schema_data) :: out_schemas o)
          (out_session o) (out_result o)
      else
        let (conjunto_id, session) :=
          upsert_conjunto_dados session schema_name grupo_id in
        let (schema_data, injected) :=
          if yaml_is_insurance then inject_policy_id schema_data
          else (schema_data, Ok tt) in
        match injected with
        | Raise e =>
            mk_outcome ((schema_name, schema_data) :: rest) session (Raise e)
        | Ok _ =>
            match process_schema_fields session schema_name schema_data
                    conjunto_id yaml_is_insurance with
            | (session, Raise e) =>
                mk_outcome ((schema_name, schema_data) :: rest) session
                  (Raise e)
            | (session, Ok fields_processed) =>
                let processed_schemas :=
                  if (0 <? fields_processed)%nat
                  then processed_schemas ++ [schema_name]
                  else processed_schemas in
                let o := process_schemas rest grupo_id yaml_is_insurance
                           session processed_schemas in
                mk_outcome ((schema_name, schema_data) :: out_schemas o)
                  (out_session o) (out_result o)
            end
        end
  end.

Section Loader.
(** The loader of [schema_extractor.py], which is not part of the
    sources: what it returns for a path. *)
Variable extract_schemas_from_yaml : string -> res json.
Variable get_api_name_from_yaml : string -> res (option string).

(** Lines 56-121, once the schemas are loaded and not empty. *)
Definition process_loaded (schemas : json) (yaml_path api_name : string)
    (session : Session) : json * Session * bool :=
  match get_api_name_from_yaml yaml_path with
  | Raise _ => (schemas, session, false)
  | Ok api_name_from_yaml =>
      let grupo_nome :=
        match api_name_from_yaml with
        | Some n => if String.eqb n EmptyString then api_name else n
        | None => api_name
        end in
      let (grupo_id, session) := upsert_grupo session grupo_nome in
      let yaml_is_insurance := is_insurance_related_file yaml_path in
      match py_items schemas with
      | Raise _ => (schemas, session, false)
      | Ok items =>
          let o := process_schemas items grupo_id yaml_is_insurance
                     session [] in
          (JDict (out_schemas o), out_session o,
           match out_result o with
           | Ok processed_schemas =>
               match processed_schemas with [] => false | _ => true end
           | Raise _ => false
           end)
      end
  end.

(** Lines 49-125, with the schemas as the run leaves them. *)
Definition process_yaml_to_db_doc (yaml_path api_name : string)
    (session : Session) : option json * Session * bool :=
  match extract_schemas_from_yaml yaml_path with
  | Raise _ => (None, session, false)
  | Ok schemas =>
      if negb (truthy schemas) then (Some schemas, session, false)
      else
        let '(schemas, session, result) :=
          process_loaded schemas yaml_path api_name session in
        (Some schemas, session, result)
  end.

Definition process_yaml_to_db (yaml_path api_name : string)
    (session : Session) : Session * bool :=
  let '(_, session, result) :=
    process_yaml_to_db_doc yaml_path api_name session in
  (session, result).
End Loader.

(** ** The loaded document as objects *)

(** The loops above take a schema as a value of its own: they are the
    run on a document whose schemas share no mapping and no list.  A
    loaded document may hold one object at several places (a YAML anchor
    and its aliases), and lines 92-105 write into the objects of the
    loader.  What follows is the run on the objects themselves: a value is
    a scalar or the address of a mapping or a list, so that a write is seen
    through every place that holds the address.  A loaded document has no
    cycle. *)
Inductive value : Type :=
| VNone
| VBool (b : bool)
| VInt (z : Z)
| VFloat (repr : string)
| VStr (s : string)
| VRef (a : nat).

Inductive object : Type :=
| ODict (d : list (string * value))
| OList (l : list value).

(** The objects, each at its rank; a new object goes to the end. *)
Definition heap : Type := list object.

Section Entries.
Context {V : Type}.

Fixpoint entry_get (k : string) (d : list (string * V)) : option V :=
  match d with
  | [] => None
  | (k', v) :: d' => if String.eqb k' k then Some v else entry_get k d'
  end.

Definition entry_mem (k : string) (d : list (string * V)) : bool :=
  match entry_get k d with Some _ => true | None => false end.

Fixpoint entry_set (k : string) (v : V) (d : list (string * V))
  : list (string * V) :=
  match d with
  | [] => [(k, v)]
  | (k', v') :: d' =>
      if String.eqb k' k then (k', v) :: d' else (k', v') :: entry_set k v d'
  end.
End Entries.

(** The object at [a] is replaced. *)
Fixpoint store (a : nat) (o : object) (h : heap) : heap :=
  match h, a with
  | [], _ => []
  | _ :: h', 0 => o :: h'
  | o' :: h', S a' => o' :: store a' o h'
  end.

(** The value as a tree, the objects it reaches each read where it
    stands; no path of a document without cycle is longer than [fuel], the
    number of its objects. *)
Fixpoint snapshot (fuel : nat) (h : heap) (v : value) : json :=
  match v with
  | VNone => JNone
  | VBool b => JBool b
  | VInt z => JInt z
  | VFloat r => JFloat r
  | VStr s => JStr s
  | VRef a =>
      match fuel with
      | 0 => JNone
      | S fuel' =>
          match nth_error h a with
          | Some (ODict d) =>
              JDict (map (fun kv => (fst kv, snapshot fuel' h (snd kv))) d)
          | Some (OList l) => JList (map (snapshot fuel' h) l)
          | None => JNone
          end
      end
  end.

Definition view (h : heap) (v : value) : json :=
  snapshot (S (List.length h)) h v.

(** A step on the objects: they are kept as they stand when it raises. *)
Definition H (A : Type) : Type := heap -> heap * res A.

Definition ret {A : Type} (x : A) : H A := fun h => (h, Ok x).

Definition bindH {A B : Type} (m : H A) (k : A -> H B) : H B :=
  fun h =>
    match m h with
    | (h', Ok x) => k x h'
    | (h', Raise e) => (h', Raise e)
    end.

Notation "'let!' x ':=' m 'in' k" := (bindH m (fun x => k))
  (at level 10, x name, m at level 100, k at level 200).

Definition raise {A : Type} (e : exn) : H A := fun h => (h, Raise e).

(** A display [{...}] or [[...]]: a new object. *)
Definition alloc (o : object) : H value :=
  fun h => (h ++ [o], Ok (VRef (List.length h))).

Fixpoint forH {A : Type} (f : A -> H unit) (l : list A) : H unit :=
  match l with
  | [] => ret tt
  | x :: l' => let! _ := f x in forH f l'
  end.

Definition v_is_str (s : string) (v : value) : bool :=
  match v with
  | VStr t => String.eqb t s
  | _ => false
  end.

Fixpoint v_chars (s : string) : list value :=
  match s with
  | EmptyString => []
  | String c s' => VStr (String c EmptyString) :: v_chars s'
  end.

(** [bool(v)]. *)
Definition v_truthy (h : heap) (v : value) : bool :=
  match v with
  | VNone => false
  | VBool b => b
  | VInt z => negb (Z.eqb z 0)
  | VFloat r => negb (String.eqb r "0.0" || String.eqb r "-0.0")
  | VStr s => negb (String.eqb s EmptyString)
  | VRef a =>
      match nth_error h a with
      | Some (ODict (_ :: _)) | Some (OList (_ :: _)) => true
      | _ => false
      end
  end.

(** [k in v]. *)
Definition v_in (k : string) (v : value) : H bool :=
  fun h =>
    match v with
    | VStr s => (h, Ok (contains k s))
    | VRef a =>
        match nth_error h a with
        | Some (ODict d) => (h, Ok (entry_mem k d))
        | Some (OList l) => (h, Ok (existsb (v_is_str k) l))
        | None => (h, Raise TypeError)
        end
    | _ => (h, Raise TypeError)
    end.

(** [v[k]]. *)
Definition v_getitem (v : value) (k : string) : H value :=
  fun h =>
    match v with
    | VRef a =>
        match nth_error h a with
        | Some (ODict d) =>
            match entry_get k d with
            | Some x => (h, Ok x)
            | None => (h, Raise KeyError)
            end
        | _ => (h, Raise TypeError)
        end
    | _ => (h, Raise TypeError)
    end.

(** [v.get(k, default)] with a display for the default: [get] is looked
    up first, then the display makes its object. *)
Definition v_get (v : value) (k : string) (default : object) : H value :=
  fun h =>
    match v with
    | VRef a =>
        match nth_error h a with
        | Some (ODict d) =>
            match entry_get k d with
            | Some x => (h ++ [default], Ok x)
            | None => (h ++ [default], Ok (VRef (List.length h)))
            end
        | _ => (h, Raise AttributeError)
        end
    | _ => (h, Raise AttributeError)
    end.

(** [v.items()]. *)
Definition v_items (v : value) : H (list (string * value)) :=
  fun h =>
    match v with
    | VRef a =>
        match nth_error h a with
        | Some (ODict d) => (h, Ok d)
        | _ => (h, Raise AttributeError)
        end
    | _ => (h, Raise AttributeError)
    end.

(** [for x in v]. *)
Definition v_iter (v : value) : H (list value) :=
  fun h =>
    match v with
    | VStr s => (h, Ok (v_chars s))
    | VRef a =>
        match nth_error h a with
        | Some (ODict d) => (h, Ok (map (fun kv => VStr (fst kv)) d))
        | Some (OList l) => (h, Ok l)
        | None => (h, Raise TypeError)
        end
    | _ => (h, Raise TypeError)
    end.

(** [v.copy()]: a new object with the entries of [v]. *)
Definition v_copy (v : value) : H value :=
  fun h =>
    match v with
    | VRef a =>
        match nth_error h a with
        | Some o => (h ++ [o], Ok (VRef (List.length h)))
        | None => (h, Raise AttributeError)
        end
    | _ => (h, Raise AttributeError)
    end.

(** [v[k] = x]: written into the object [v] is. *)
Definition v_setitem (v : value) (k : string) (x : value) : H unit :=
  fun h =>
    match v with
    | VRef a =>
        match nth_error h a with
        | Some (ODict d) => (store a (ODict (entry_set k x d)) h, Ok tt)
        | _ => (h, Raise TypeError)
        end
    | _ => (h, Raise TypeError)
    end.

(** [v.append(x)]. *)
Definition v_append (v : value) (x : value) : H unit :=
  fun h =>
    match v with
    | VRef a =>
        match nth_error h a with
        | Some (OList l) => (store a (OList (l ++ [x])) h, Ok tt)
        | _ => (h, Raise AttributeError)
        end
    | _ => (h, Raise AttributeError)
    end.

(** *** The classifier on objects *)

Definition extract_field_type_h (field_data : value) : H value :=
  let! has_type := v_in "type" field_data in
  if has_type then v_getitem field_data "type"
  else
    let! has_ref := v_in "$ref" field_data in
    if has_ref then ret (VStr "string") else ret (VStr "string").

Definition calculate_field_size_h (field_name : string) (field_data : value)
  : H value :=
  let! field_type := extract_field_type_h field_data in
  if v_is_str "string" field_type then
    let! has_max := v_in "maxLength" field_data in
    if has_max then v_getitem field_data "maxLength"
    else
      let! has_enum := v_in "enum" field_data in
      if has_enum then
        let! enum := v_getitem field_data "enum" in
        fun h =>
          if v_truthy h enum then
            (let! es := v_iter enum in
             ret (VInt (Z.of_nat
                          (max_list (map (fun e => str_len (view h e)) es)))))
              h
          else (h, Ok (VInt 0))
      else ret (VInt 100)
  else if v_is_str "number" field_type || v_is_str "integer" field_type then
    ret (VInt 10)
  else ret (VInt 1).

(** *** Flattening on objects *)

Definition named_with_properties_h (name k : string) (data : value)
  : H bool :=
  if String.eqb k name then v_in "properties" data else ret false.

(** Lines 188-200, [processed_properties] being the object [pp]. *)
Definition flatten_unit_h (pp : value) (unit_field : string * value)
  : H unit :=
  let (unit_field, unit_data) := unit_field in
  let unit_field_name := ("amount_unit_" ++ unit_field)%string in
  let! unit_field_size := calculate_field_size_h unit_field unit_data in
  let! fragment :=
    alloc (ODict [("type", VStr "string"); ("maxLength", unit_field_size)]) in
  v_setitem pp unit_field_name fragment.

(** Lines 169-200. *)
Definition flatten_amount_h (pp : value) (sub : string * value) : H unit :=
  let (sub_field, sub_data) := sub in
  let field_name := ("amount_" ++ sub_field)%string in
  let! field_size := calculate_field_size_h sub_field sub_data in
  let! field_type := extract_field_type_h sub_data in
  let! fragment :=
    alloc (ODict [("type", field_type); ("maxLength", field_size)]) in
  let! _ := v_setitem pp field_name fragment in
  let! is_unit := named_with_properties_h "unit" sub_field sub_data in
  if is_unit then
    let! unit_properties := v_get sub_data "properties" (ODict []) in
    let! unit_items := v_items unit_properties in
    forH (flatten_unit_h pp) unit_items
  else ret tt.

(** Lines 163-200. *)
Definition flatten_property_h (pp : value) (prop : string * value)
  : H unit :=
  let (prop_name, prop_data) := prop in
  let! is_amount := named_with_properties_h "amount" prop_name prop_data in
  if is_amount then
    let! amount_properties := v_get prop_data "properties" (ODict []) in
    let! amount_items := v_items amount_properties in
    forH (flatten_amount_h pp) amount_items
  else ret tt.

(** Line 158. *)
Definition refers_to_amount_details_h (item : value) : H bool :=
  let! has_ref := v_in "$ref" item in
  if has_ref then
    let! ref := v_getitem item "$ref" in
    v_in "/AmountDetails" ref
  else ret false.

(** Lines 158-200. *)
Definition flatten_item_h (pp : value) (item : value) : H unit :=
  let! is_ref := refers_to_amount_details_h item in
  if is_ref then
    let! has_properties := v_in "properties" item in
    if has_properties then
      let! ref_properties := v_get item "properties" (ODict []) in
      let! ref_items := v_items ref_properties in
      forH (flatten_property_h pp) ref_items
    else ret tt
  else ret tt.

(** Lines 152-202: the copy is a new object, and every assignment of the
    loops goes into it. *)
Definition flatten_all_of_h (properties all_of : value) : H value :=
  let! processed_properties := v_copy properties in
  fun h =>
    if v_truthy h all_of then
      (let! items := v_iter all_of in
       let! _ := forH (flatten_item_h processed_properties) items in
       ret processed_properties) h
    else (h, Ok processed_properties).

(** Lines 143-202. *)
Definition schema_properties_h (schema_data : value)
  : H (value * list (string * value)) :=
  let! meta := v_copy schema_data in
  let! required_fields := v_get meta "required" (OList []) in
  let! properties := v_get meta "properties" (ODict []) in
  let! all_of := v_get meta "allOf" (OList []) in
  let! processed_properties := flatten_all_of_h properties all_of in
  let! items := v_items processed_properties in
  ret (required_fields, items).

(** Lines 128-245 on objects; the rules are derived from the properties
    as they read once flattened. *)
Definition process_schema_fields_h (session : Session) (schema_name : string)
    (schema_data : value) (conjunto_id : nat) (is_insurance_schema : bool)
    (h : heap) : heap * (Session * res nat) :=
  match schema_properties_h schema_data h with
  | (h', Raise e) => (h', (session, Raise e))
  | (h', Ok (required_fields, items)) =>
      let (session, processed_count) :=
        fold_left
          (process_property is_insurance_schema (view h' required_fields)
             conjunto_id)
          (map (fun kv => (fst kv, view h' (snd kv))) items)
          (session, 0) in
      (h', (session, Ok processed_count))
  end.

(** *** The injection on objects *)

Definition policy_id_object : object :=
  ODict [("type", VStr "string"); ("maxLength", VInt 100);
         ("description", VStr "Identificador u00fanico da apu00f3lice")].

(** Lines 90-106: each assignment goes into the object of the loader. *)
Definition inject_policy_id_h (schema_data : value) : H unit :=
  let! properties := v_get schema_data "properties" (ODict []) in
  let! declared := v_in "policyId" properties in
  if declared then ret tt
  else
    let! has_properties := v_in "properties" schema_data in
    let! _ :=
      if has_properties then ret tt
      else
        let! empty := alloc (ODict []) in
        v_setitem schema_data "properties" empty in
    let! policy_id := alloc policy_id_object in
    let! properties := v_getitem schema_data "properties" in
    let! _ := v_setitem properties "policyId" policy_id in
    let! has_required := v_in "required" schema_data in
    let! _ :=
      if has_required then ret tt
      else
        let! empty := alloc (OList []) in
        v_setitem schema_data "required" empty in
    let! required := v_getitem schema_data "required" in
    let! listed := v_in "policyId" required in
    if listed then ret tt
    else
      let! required := v_getitem schema_data "required" in
      v_append required (VStr "policyId").

(** *** A document of objects *)

(** What a run leaves behind: the objects, the session and the names
    recorded, or the exception. *)
Record outcome_h : Type := mk_outcome_h {
  out_heap : heap;
  out_session_h : Session;
  out_result_h : res (list string)
}.

(** Lines 75-113. *)
Fixpoint process_schemas_h (items : list (string * value)) (grupo_id : nat)
    (yaml_is_insurance : bool) (session : Session)
    (processed_schemas : list string) (h : heap) : outcome_h :=
  match items with
  | [] => mk_outcome_h h session (Ok processed_schemas)
  | (schema_name, schema_data) :: rest =>
      if String.eqb schema_name "AmountDetails" && yaml_is_insurance then
        process_schemas_h rest grupo_id yaml_is_insurance session
          processed_schemas h
      else
        let (conjunto_id, session) :=
          upsert_conjunto_dados session schema_name grupo_id in
        let (h, injected) :=
          if yaml_is_insurance then inject_policy_id_h schema_data h
          else (h, Ok tt) in
        match injected with
        | Raise e => mk_outcome_h h session (Raise e)
        | Ok _ =>
            match process_schema_fields_h session schema_name schema_data
                    conjunto_id yaml_is_insurance h with
            | (h, (session, Raise e)) => mk_outcome_h h session (Raise e)
            | (h, (session, Ok fields_processed)) =>
                let processed_schemas :=
                  if (0 <? fields_processed)%nat
                  then processed_schemas ++ [schema_name]
                  else processed_schemas in
                process_schemas_h rest grupo_id yaml_is_insurance session
                  processed_schemas h
            end
        end
  end.

Section LoaderOfObjects.
(** The loader, giving the objects of the document and the value
    [schemas]. *)
Variable extract_schemas_from_yaml : string -> res (heap * value).
Variable get_api_name_from_yaml : string -> res (option string).

(** Lines 49-125; the objects come out with the session and the value
    returned. *)
Definition process_yaml_to_db_h (yaml_path api_name : string)
    (session : Session) : option heap * Session * bool :=
  match extract_schemas_from_yaml yaml_path with
  | Raise _ => (None, session, false)
  | Ok (h, schemas) =>
      if negb (v_truthy h schemas) then (Some h, session, false)
      else
        match get_api_name_from_yaml yaml_path with
        | Raise _ => (Some h, session, false)
        | Ok api_name_from_yaml =>
            let grupo_nome :=
              match api_name_from_yaml with
              | Some n => if String.eqb n EmptyString then api_name else n
              | None => api_name
              end in
            let (grupo_id, session) := upsert_grupo session grupo_nome in
            let yaml_is_insurance := is_insurance_related_file yaml_path in
            match v_items schemas h with
            | (h, Raise _) => (Some h, session, false)
            | (h, Ok items) =>
                let o := process_schemas_h items grupo_id yaml_is_insurance
                           session [] h in
                (Some (out_heap o), out_session_h o,
                 match out_result_h o with
                 | Ok processed_schemas =>
                     match processed_schemas with
                     | [] => false
                     | _ => true
                     end
                 | Raise _ => false
                 end)
            end
        end
  end.
End LoaderOfObjects.

(** The keys lines 92-105 assign. *)
Definition injected_key (k : string) : Prop :=
  k = "properties" \/ k = "required" \/ k = "policyId".

(** What the engine may do to a loaded object: a mapping keeps its
    entries, each with its value and at its place, and is at most given
    new entries, under properties, required or policyId, after them; a
    list keeps its elements and is at most given policyId after them. *)
Definition touched (o o' : object) : Prop :=
  match o, o' with
  | ODict d, ODict d' =>
      exists added, d' = d ++ added /\
        Forall (fun kv => injected_key (fst kv)) added
  | OList l, OList l' =>
      exists added, l' = l ++ added /\ Forall (eq (VStr "policyId")) added
  | _, _ => False
  end.

(** The objects below [n] are as they were, and none is lost. *)
Definition agree (n : nat) (h h' : heap) : Prop :=
  (forall a, a < n -> nth_error h' a = nth_error h a) /\
  List.length h <= List.length h'.

(** Every object is as it was, or touched. *)
Definition touched_heap (h h' : heap) : Prop :=
  List.length h <= List.length h' /\
  forall a o, nth_error h a = Some o ->
    exists o', nth_error h' a = Some o' /\ touched o o'.

(** The value is no object that stood below [n]. *)
Definition fresh (n : nat) (v : value) : Prop :=
  match v with
  | VRef a => n <= a
  | _ => True
  end.

(** The step leaves the objects below [n] as they are, and what it
    returns satisfies [Q]. *)
Definition keeps_below {A : Type} (n : nat) (m : H A) (Q : A -> Prop)
  : Prop :=
  forall h, n <= List.length h ->
    agree n h (fst (m h)) /\ (forall x, snd (m h) = Ok x -> Q x).

(** The step only reads. *)
Definition reads {A : Type} (m : H A) : Prop := forall h, fst (m h) = h.

(** The step does to the objects no more than [touched] allows. *)
Definition writes_little {A : Type} (m : H A) : Prop :=
  forall h, touched_heap h (fst (m h)).

(** The document of the scenario as objects: Resource, at 3, with its
    properties at 2. *)
Definition resource_heap : heap :=
  [ODict [("type", VStr "string"); ("maxLength", VInt 50)];
   ODict [("$ref", VStr "#/Owner")];
   ODict [("name", VRef 0); ("owner", VRef 1)];
   ODict [("properties", VRef 2)];
   ODict [("Resource", VRef 3)]].


(** ** Notions the statements are written with *)

(** The type a fragment stands for: its declared type, else string. *)
Definition effective_type (d : dict) : json :=
  match dict_get "type" d with
  | Some t => t
  | None => JStr "string"
  end.

(** What the claim of a positive size asks of a rule. *)
Definition positive_size (v : json) : Prop :=
  exists n : Z, v = JInt n /\ (1 <= n)%Z.

(** A direct reference that does not end in the name of the embeddable
    shape. *)
Definition direct_foreign (d : dict) : bool :=
  match dict_get "$ref" d with
  | Some (JStr r) => negb (endswith r "/AmountDetails")
  | _ => false
  end.

(** An array whose items carry a reference, whatever its target. *)
Definition array_with_ref_items (d : dict) : bool :=
  match dict_get "type" d, dict_get "items" d with
  | Some t, Some (JDict items) => is_str "array" t && dict_mem "$ref" items
  | _, _ => false
  end.

(** A fragment as a schema document writes it: a reference is a string,
    items are a mapping, an enum is a list. *)
Definition well_formed_fragment (d : dict) : bool :=
  match dict_get "$ref" d with
  | Some (JStr _) | None => true
  | _ => false
  end &&
  match dict_get "items" d with
  | Some (JDict _) | None => true
  | _ => false
  end &&
  match dict_get "enum" d with
  | Some (JList _) | None => true
  | _ => false
  end.

(** An array property whose items refer to AmountDetails. *)
Definition amount_details_items : json :=
  JDict [("type", JStr "array");
         ("items", JDict [("$ref", JStr "#/components/schemas/AmountDetails")])].

(** A schema that declares policyId and requires nothing. *)
Definition declares_policy_id : json :=
  JDict [("properties",
          JDict [("policyId", JDict [("type", JStr "string")])])].

(** The required list a schema ends with when policyId is injected. *)
Definition with_policy_id (required : list json) : list json :=
  if existsb (is_str "policyId") required then required
  else required ++ [JStr "policyId"].

(** The schema of the flattening scenario, for a reference [ref]. *)
Definition amount_schema (ref : string) : json :=
  JDict
    [("allOf",
      JList
        [JDict
           [("$ref", JStr ref);
            ("properties",
             JDict
               [("amount",
                 JDict
                   [("properties",
                     JDict
                       [("value", JDict [("type", JStr "number")]);
                        ("unit",
                         JDict
                           [("properties",
                             JDict
                               [("code",
                                 JDict
                                   [("type", JStr "string");
                                    ("enum",
                                     JList [JStr "USD"; JStr "BRL"])])])])])])])]])].

(** [b] is [a] but for properties named amount_...: every declared
    property is kept, and one of another name keeps its fragment. *)
Definition same_but_amount (a b : json) : Prop :=
  forall da, a = JDict da ->
  exists db, b = JDict db /\
    (forall k, startswith k "amount_" = false ->
       dict_get k db = dict_get k da) /\
    (forall k, dict_mem k da = true -> dict_mem k db = true).

(** Line 158-159: the composed element is inlined. *)
Definition qualifies (item : json) : bool :=
  match refers_to_amount_details item, py_in "properties" item with
  | Ok true, Ok true => true
  | _, _ => false
  end.

(** A composed element as a schema document writes it: a mapping whose
    reference, if any, is a string. *)
Definition well_formed_element (item : json) : bool :=
  match item with
  | JDict d =>
      match dict_get "$ref" d with
      | Some (JStr _) | None => true
      | _ => false
      end
  | _ => false
  end.

(** A composed element whose reference holds /AmountDetails before its
    end. *)
Definition amount_details_v2 : json :=
  JDict [("$ref", JStr "#/components/schemas/AmountDetailsV2");
         ("properties",
          JDict [("amount",
                  JDict [("properties",
                          JDict [("value", JDict [("type", JStr "number")])])])])].

(** The property yields a rule. *)
Definition emits (ins : bool) (required_fields : json)
    (prop : string * json) : bool :=
  match rule_of_property ins required_fields (fst prop) (snd prop) with
  | Ok (Some _) => true
  | _ => false
  end.

(** The number of rules a schema yields, which no session changes. *)
Definition emitted_count (ins : bool) (schema_data : json) : res nat :=
  let* read := schema_properties schema_data in
  Ok (List.length (filter (emits ins (fst read)) (snd read))).

(** Line 77: the schema is passed over. *)
Definition skipped (ins : bool) (schema_name : string) : bool :=
  String.eqb schema_name "AmountDetails" && ins.

(** The schema as lines 86-106 leave it. *)
Definition injected (ins : bool) (schema_data : json) : json * res unit :=
  if ins then inject_policy_id schema_data else (schema_data, Ok tt).

(** What one schema comes to: the number of its rules, or the exception
    that ends the document. *)
Definition schema_outcome (ins : bool) (entry : string * json) : res nat :=
  if skipped ins (fst entry) then Ok 0
  else
    let* _ := snd (injected ins (snd entry)) in
    emitted_count ins (fst (injected ins (snd entry))).

(** Lines 75-113 without the store: the names recorded as processed, or
    the exception that ends the loop. *)
Fixpoint processed_names (ins : bool) (items : dict) (acc : list string)
  : res (list string) :=
  match items with
  | [] => Ok acc
  | entry :: rest =>
      let* n := schema_outcome ins entry in
      processed_names ins rest
        (if (0 <? n)%nat && negb (skipped ins (fst entry))
         then acc ++ [fst entry] else acc)
  end.

(** A document whose only schema is AmountDetails. *)
Definition amount_details_document : json :=
  JDict [("AmountDetails",
          JDict [("properties",
                  JDict [("amount", JDict [("type", JStr "string")])])])].

(** The document of the scenario: one schema, Resource, with a sized
    string and a reference to another schema. *)
Definition resource_document : json :=
  JDict [("Resource",
          JDict [("properties",
                  JDict [("name", JDict [("type", JStr "string");
                                         ("maxLength", JInt 50)]);
                         ("owner", JDict [("$ref", JStr "#/Owner")])])])].

(** [l] is the beginning of [t]. *)
Definition begins {A : Type} (l t : list A) : Prop := exists r, t = l ++ r.

(** The rules of a first run from [a] to [t], and of a second one that
    starts from [t] and has come to [b] when the first has come to [a]:
    [b] has the rows of [t], each with the body the first run has given it
    so far or with the body [t] ends with. *)
Inductive follows {K V : Type}
  : list (K * V) -> list (K * V) -> list (K * V) -> Prop :=
| follows_done (t : list (K * V)) : follows [] t t
| follows_step (k : K) (va vb vt : V) (a b t : list (K * V)) :
    vb = va \/ vb = vt -> follows a b t ->
    follows ((k, va) :: a) ((k, vb) :: b) ((k, vt) :: t).

(** [t] has the rows of [a], with the same identifiers, and maybe more. *)
Definition within (a t : Session) : Prop :=
  begins (grupos a) (grupos t) /\
  begins (conjuntos a) (conjuntos t) /\
  begins (map fst (regras a)) (map fst (regras t)).

(** The second run, at [b], follows the first, at [a], towards [t]. *)
Definition replay (a b t : Session) : Prop :=
  grupos b = grupos t /\
  conjuntos b = conjuntos t /\
  follows (regras a) (regras b) (regras t).

(** [b] is a mapping that begins with the keys of [a], in their order,
    and has no key twice if [a] has none. *)
Definition keeps_keys (a b : json) : Prop :=
  forall da, a = JDict da ->
  exists db, b = JDict db /\
    begins (map fst da) (map fst db) /\
    (NoDup (map fst da) -> NoDup (map fst db)).

(** [s] is a mapping. *)
Definition is_mapping (s : json) : Prop := exists d, s = JDict d.

(** [s] is a mapping with the key [k]. *)
Definition has_key (k : string) (s : json) : Prop :=
  exists d, s = JDict d /\ dict_mem k d = true.

(** A document given as a value, laid out as objects none of which is
    held twice: the entries first, then the mapping or the list that holds
    them. *)
Fixpoint objects_of (t : json) (h : heap) : heap * value :=
  match t with
  | JNone => (h, VNone)
  | JBool b => (h, VBool b)
  | JInt z => (h, VInt z)
  | JFloat r => (h, VFloat r)
  | JStr s => (h, VStr s)
  | JList l =>
      let '(h, vs) :=
        (fix elements (l : list json) (h : heap) : heap * list value :=
           match l with
           | [] => (h, [])
           | x :: l' =>
               let '(h, v) := objects_of x h in
               let '(h, vs) := elements l' h in
               (h, v :: vs)
           end) l h in
      (h ++ [OList vs], VRef (List.length h))
  | JDict d =>
      let '(h, kvs) :=
        (fix entries (d : list (string * json)) (h : heap)
           : heap * list (string * value) :=
           match d with
           | [] => (h, [])
           | (k, x) :: d' =>
               let '(h, v) := objects_of x h in
               let '(h, kvs) := entries d' h in
               (h, (k, v) :: kvs)
           end) d h in
      (h ++ [ODict kvs], VRef (List.length h))
  end.

(** The run on the objects of a document given as a value: the document
    it leaves, read as a value, the session and the result. *)
Definition run_on_objects_of (doc : json) (yaml_path : string)
  : option json * Session * bool :=
  let '(h, schemas) := objects_of doc [] in
  let '(objects, session, result) :=
    process_yaml_to_db_h (fun _ => Ok (h, schemas)) (fun _ => Ok None)
      yaml_path "api" empty_session in
  (match objects with
   | Some h' => Some (view h' schemas)
   | None => None
   end, session, result).

(** Documents the two embeddings of the run are compared on: the
    scenarios, a schema with every kind of property, and schemas that are
    not what the processor expects. *)
Definition sample_documents : list json :=
  [resource_document;
   amount_details_document;
   JDict [("Claim", amount_schema "#/components/schemas/AmountDetails")];
   JDict [("Claim", amount_schema "#/components/schemas/AmountDetailsV2")];
   JDict
     [("AmountDetails",
       JDict [("properties",
               JDict [("amount", JDict [("type", JStr "string")])])]);
      ("Policy",
       JDict
         [("properties",
           JDict
             [("premium", JDict [("$ref", JStr "#/AmountDetails")]);
              ("covers",
               JDict [("type", JStr "array");
                      ("items", JDict [("$ref", JStr "#/Cover")])]);
              ("status",
               JDict [("type", JStr "string");
                      ("enum",
                       JList [JStr "OPEN"; JInt 12345;
                              JList [JInt 1; JStr "x"];
                              JDict [("k", JNone)]])]);
              ("kind", JDict [("type", JStr "string"); ("enum", JInt 5)]);
              ("tags", JDict [("type", JList [JStr "string"])]);
              ("note", JStr "type");
              ("codes", JList [JStr "type"]);
              ("none", JNone)]);
          ("required", JList [JStr "premium"; JStr "status"])])];
   JDict
     [("Policy",
       JDict [("properties",
               JDict [("policyId", JDict [("type", JStr "integer")])]);
              ("required", JStr "policyIdentifier")])];
   JDict [("Policy", JDict [("properties", JList [JStr "x"])])];
   JDict [("Policy", JDict [("properties", JStr "x")])];
   JDict [("Policy", JDict [("properties", JNone)])];
   JDict [("Policy", JDict [("required", JDict [])])];
   JDict [("Policy", JDict [("required", JStr "a")])];
   JDict [("Policy", JList [])];
   JDict [("Policy", JStr "s")];
   JDict [("Policy", JDict [("allOf", JInt 3)])];
   JDict [("Policy", JDict [("allOf", JStr "abc")])];
   JDict
     [("Policy",
       JDict [("allOf", JDict [("$ref/AmountDetails", JInt 1)])])];
   JDict
     [("Policy",
       JDict
         [("allOf",
           JList
             [JDict
                [("$ref", JStr "/AmountDetails");
                 ("properties",
                  JDict
                    [("amount",
                      JDict
                        [("properties",
                          JDict
                            [("unit",
                              JDict
                                [("properties",
                                  JDict
                                    [("code",
                                      JDict [("enum", JList [JStr "BRL"])]);
                                     ("bad", JInt 1)])]);
                             ("value",
                              JDict [("type", JStr "number")])])])])]]);
          ("properties",
           JDict [("amount_value", JDict [("type", JStr "boolean")]);
                  ("z", JDict [])])])];
   JList [JInt 1];
   JDict []].

(** * Properties *)

(** ** Two sizes, computed *)

Example size_usd :
  calculate_field_size "code"
    (JDict [("type", JStr "string"); ("enum", JList [JStr "USD"; JStr "BRL"])])
  = Ok (JInt 3).
Proof. reflexivity. Qed.

Example size_int_enum :
  calculate_field_size "n"
    (JDict [("enum", JList [JInt (-12); JBool false; JList [JStr "a'"; JInt 1]])])
  = Ok (JInt 9).
Proof. vm_compute. reflexivity. Qed.

(** ** Dictionaries and builtins *)

Lemma dict_mem_get (k : string) (d : dict) :
  dict_mem k d = match dict_get k d with Some _ => true | None => false end.
Proof. reflexivity. Qed.

Lemma dict_get_set_same (k : string) (v : json) (d : dict) :
  dict_get k (dict_set k v d) = Some v.
Proof.
  induction d as [|[k' v'] d IH]; simpl.
  - now rewrite String.eqb_refl.
  - destruct (String.eqb k' k) eqn:E; simpl; rewrite E; auto.
Qed.

Lemma dict_get_set_other (k k' : string) (v : json) (d : dict) :
  k <> k' -> dict_get k' (dict_set k v d) = dict_get k' d.
Proof.
  intros Hne. induction d as [|[k0 v0] d IH]; simpl.
  - destruct (String.eqb k k') eqn:E; auto.
    apply String.eqb_eq in E. contradiction.
  - destruct (String.eqb k0 k) eqn:E; simpl.
    + apply String.eqb_eq in E. subst k0.
      destruct (String.eqb k k') eqn:E'; auto.
      apply String.eqb_eq in E'. contradiction.
    + now rewrite IH.
Qed.

Lemma max_list_ge (l : list nat) (n : nat) : In n l -> n <= max_list l.
Proof.
  induction l as [|m l IH]; simpl; [tauto|].
  intros [->|H]; [lia|]. specialize (IH H). lia.
Qed.

Lemma max_list_in (l : list nat) : l <> [] -> In (max_list l) l.
Proof.
  induction l as [|m l IH]; [congruence|]. intros _. simpl.
  destruct l as [|m' l'].
  - left. simpl. lia.
  - destruct (Nat.max_spec m (max_list (m' :: l'))) as [[_ E]|[_ E]].
    + right. rewrite E. apply IH. congruence.
    + left. simpl in *. lia.
Qed.

(** ** The size classifier *)

Lemma extract_field_type_dict (d : dict) :
  extract_field_type (JDict d) = Ok (effective_type d).
Proof.
  unfold extract_field_type, effective_type. simpl.
  rewrite dict_mem_get. destruct (dict_get "type" d); simpl; [reflexivity|].
  now destruct (dict_mem "$ref" d).
Qed.

(** C3.  On every field fragment the type classifier gives the declared
    type, or string for an untyped or reference-only fragment.  For that
    effective type the size classifier gives: for string, the explicit
    maxLength unchanged when there is one; else, with an enum list that is
    not empty, the length of the text of its longest value; with an empty
    enum list, 0; with no enum, 100; for number and integer, 10 whatever
    else the fragment holds; for any other type, 1. *)
Theorem calculate_field_size_cases (field_name : string) (d : dict) :
  extract_field_type (JDict d) = Ok (effective_type d) /\
  (dict_get "type" d = None -> effective_type d = JStr "string") /\
  (is_str "string" (effective_type d) = true ->
     (forall m, dict_get "maxLength" d = Some m ->
        calculate_field_size field_name (JDict d) = Ok m) /\
     (dict_get "maxLength" d = None ->
        (forall e es, dict_get "enum" d = Some (JList (e :: es)) ->
           exists longest, In longest (e :: es) /\
             (forall e', In e' (e :: es) -> str_len e' <= str_len longest) /\
             calculate_field_size field_name (JDict d)
             = Ok (JInt (Z.of_nat (str_len longest)))) /\
        (dict_get "enum" d = Some (JList []) ->
           calculate_field_size field_name (JDict d) = Ok (JInt 0)) /\
        (dict_get "enum" d = None ->
           calculate_field_size field_name (JDict d) = Ok (JInt 100)))) /\
  (is_str "number" (effective_type d) = true \/
   is_str "integer" (effective_type d) = true ->
     calculate_field_size field_name (JDict d) = Ok (JInt 10)) /\
  (is_str "string" (effective_type d) = false ->
   is_str "number" (effective_type d) = false ->
   is_str "integer" (effective_type d) = false ->
     calculate_field_size field_name (JDict d) = Ok (JInt 1)).
Proof.
  unfold calculate_field_size. rewrite extract_field_type_dict. simpl bind.
  split; [reflexivity|]. split; [unfold effective_type; now intros ->|].
  split; [|split].
  - intros Hs. rewrite Hs. simpl. rewrite !dict_mem_get. split.
    + intros m Hm. now rewrite Hm.
    + intros Hm. rewrite Hm. split; [|split].
      * intros e es He. rewrite He.
        assert (Hin : In (max_list (map str_len (e :: es)))
                        (map str_len (e :: es)))
          by (apply max_list_in; discriminate).
        apply in_map_iff in Hin. destruct Hin as [longest [Hlen Hin]].
        exists longest. split; [exact Hin|]. split.
        -- intros e' He'. rewrite Hlen. apply max_list_ge. now apply in_map.
        -- cbn [bind truthy py_iter]. now rewrite Hlen.
      * intros He. now rewrite He.
      * intros He. now rewrite He.
  - intros [H|H].
    + destruct (effective_type d); try discriminate. simpl in *.
      apply String.eqb_eq in H. subst. reflexivity.
    + rewrite H. rewrite orb_true_r.
      destruct (is_str "string" (effective_type d)) eqn:E; [|reflexivity].
      destruct (effective_type d); try discriminate. simpl in *.
      apply String.eqb_eq in E. subst. discriminate.
  - intros H1 H2 H3. now rewrite H1, H2, H3.
Qed.

Lemma calculate_field_size_cases_witness :
  (exists longest, In longest [JStr "USD"; JStr "BR"] /\
     (forall e', In e' [JStr "USD"; JStr "BR"] ->
        str_len e' <= str_len longest) /\
     calculate_field_size "code"
       (JDict [("enum", JList [JStr "USD"; JStr "BR"])])
     = Ok (JInt (Z.of_nat (str_len longest)))) /\
  calculate_field_size "total"
    (JDict [("type", JStr "integer"); ("maxLength", JInt 4)]) = Ok (JInt 10) /\
  calculate_field_size "flag" (JDict [("type", JStr "boolean")]) = Ok (JInt 1).
Proof.
  split; [|split].
  - destruct (calculate_field_size_cases "code"
                [("enum", JList [JStr "USD"; JStr "BR"])])
      as (_ & _ & Hs & _).
    destruct (Hs eq_refl) as [_ Hn].
    destruct (Hn eq_refl) as (He & _).
    exact (He (JStr "USD") [JStr "BR"] eq_refl).
  - destruct (calculate_field_size_cases "total"
                [("type", JStr "integer"); ("maxLength", JInt 4)])
      as (_ & _ & _ & Hn & _).
    apply Hn. right. reflexivity.
  - destruct (calculate_field_size_cases "flag" [("type", JStr "boolean")])
      as (_ & _ & _ & _ & Ho).
    apply Ho; reflexivity.
Defined.

(** The size classifier on a mapping, branch by branch. *)
Lemma calculate_field_size_dict (field_name : string) (d : dict) :
  calculate_field_size field_name (JDict d) =
  if is_str "string" (effective_type d) then
    match dict_get "maxLength" d with
    | Some m => Ok m
    | None =>
        match dict_get "enum" d with
        | Some enum =>
            if truthy enum then
              let* es := py_iter enum in
              Ok (JInt (Z.of_nat (max_list (map str_len es))))
            else Ok (JInt 0)
        | None => Ok (JInt 100)
        end
    end
  else if is_str "number" (effective_type d) || is_str "integer" (effective_type d)
  then Ok (JInt 10)
  else Ok (JInt 1).
Proof.
  unfold calculate_field_size. rewrite extract_field_type_dict. simpl bind.
  destruct (is_str "string" (effective_type d)); [|reflexivity].
  simpl. rewrite !dict_mem_get.
  destruct (dict_get "maxLength" d); [reflexivity|].
  destruct (dict_get "enum" d); reflexivity.
Qed.

(** ** Rules emitted for a property *)

(** A rule is emitted only for a mapping, and is made of what the two
    classifiers give for it. *)
Lemma rule_of_property_emitted (ins : bool) (required_fields : json)
    (prop_name : string) (prop_data : json) (r : rule_config) :
  rule_of_property ins required_fields prop_name prop_data = Ok (Some r) ->
  exists d, prop_data = JDict d /\
    foreign_reference ins prop_data = Ok false /\
    array_of_references ins prop_data = Ok false /\
    rule_type r = effective_type d /\
    calculate_field_size prop_name prop_data = Ok (rule_size r) /\
    py_in prop_name required_fields = Ok (rule_required r).
Proof.
  unfold rule_of_property. intros H.
  destruct (foreign_reference ins prop_data) as [[|]|] eqn:Ef;
    simpl in H; try discriminate.
  destruct (array_of_references ins prop_data) as [[|]|] eqn:Ea;
    simpl in H.
  - destruct (py_getitem prop_data "items") as [items|]; simpl in H;
      [|discriminate].
    destruct (py_getitem items "$ref") as [ref|]; simpl in H; [|discriminate].
    destruct (py_split_last ref); simpl in H; discriminate.
  - destruct (extract_field_type prop_data) as [t|] eqn:Et; simpl in H;
      [|discriminate].
    destruct (calculate_field_size prop_name prop_data) as [sz|] eqn:Es;
      simpl in H; [|discriminate].
    destruct (py_get prop_data "enum" (JList [])) as [en|] eqn:Ee;
      simpl in H; [|discriminate].
    destruct (py_in prop_name required_fields) as [rq|] eqn:Er;
      simpl in H; [|discriminate].
    injection H as <-. destruct prop_data; try discriminate.
    exists d. rewrite extract_field_type_dict in Et. injection Et as <-.
    repeat split; assumption.
  - discriminate.
Qed.

(** C6, as stated, fails: a string field with an empty enum list gets a
    rule of size 0. *)
Lemma emitted_size_zero :
  ~ (forall ins required_fields prop_name prop_data r,
       rule_of_property ins required_fields prop_name prop_data = Ok (Some r) ->
       positive_size (rule_size r)).
Proof.
  intros H.
  destruct (H false (JList []) "kind"
              (JDict [("type", JStr "string"); ("enum", JList [])])
              (mk_rule (JStr "string") (JInt 0) false None) eq_refl)
    as [n [E Hn]].
  simpl in E. injection E as <-. lia.
Qed.

(** C6, amended.  Every emitted rule has a size that is either the
    maxLength the string field declares, unchanged, or an integer that is
    not negative; that integer is at least 1 unless the field is a string
    without maxLength that carries an enum, whose longest text (none, for
    an empty list) then gives the size. *)
Theorem emitted_size_bound (ins : bool) (required_fields : json)
    (prop_name : string) (prop_data : json) (r : rule_config) :
  rule_of_property ins required_fields prop_name prop_data = Ok (Some r) ->
  exists d, prop_data = JDict d /\
    ((is_str "string" (effective_type d) = true /\
      dict_get "maxLength" d = Some (rule_size r)) \/
     (exists n : Z, rule_size r = JInt n /\ (0 <= n)%Z /\
        ((n < 1)%Z ->
           is_str "string" (effective_type d) = true /\
           dict_get "maxLength" d = None /\
           dict_mem "enum" d = true))).
Proof.
  intros H. apply rule_of_property_emitted in H.
  destruct H as (d & -> & _ & _ & _ & Hs & _).
  exists d. split; [reflexivity|].
  rewrite calculate_field_size_dict in Hs.
  destruct (is_str "string" (effective_type d)).
  - destruct (dict_get "maxLength" d) as [m|].
    + left. injection Hs as <-. auto.
    + right. rewrite dict_mem_get. destruct (dict_get "enum" d) as [en|].
      * destruct (truthy en).
        -- destruct (py_iter en) as [es|]; [|discriminate]. simpl in Hs.
           injection Hs as <-. eexists. split; [reflexivity|].
           split; [lia|auto].
        -- injection Hs as <-. exists 0%Z. split; [reflexivity|].
           split; [lia|auto].
      * injection Hs as <-. exists 100%Z. split; [reflexivity|]. lia.
  - right.
    destruct (is_str "number" (effective_type d) || is_str "integer" (effective_type d));
      injection Hs as <-; eexists; (split; [reflexivity|lia]).
Qed.

Lemma emitted_size_bound_witness :
  exists d,
    JDict [("type", JStr "string"); ("enum", JList [])] = JDict d /\
    ((is_str "string" (effective_type d) = true /\
      dict_get "maxLength" d = Some (JInt 0)) \/
     (exists n : Z, JInt 0 = JInt n /\ (0 <= n)%Z /\
        ((n < 1)%Z ->
           is_str "string" (effective_type d) = true /\
           dict_get "maxLength" d = None /\
           dict_mem "enum" d = true))).
Proof.
  exact (emitted_size_bound false (JList []) "kind"
           (JDict [("type", JStr "string"); ("enum", JList [])])
           (mk_rule (JStr "string") (JInt 0) false None) eq_refl).
Defined.

(** ** Suppression of references in an insurance document *)

Lemma foreign_reference_dict (d : dict) :
  foreign_reference true (JDict d) =
  match dict_get "$ref" d with
  | Some ref_value =>
      let* ends := py_endswith ref_value "/AmountDetails" in Ok (negb ends)
  | None => Ok false
  end.
Proof.
  unfold foreign_reference. simpl. rewrite dict_mem_get.
  destruct (dict_get "$ref" d); reflexivity.
Qed.

Lemma array_of_references_dict (d : dict) :
  array_of_references true (JDict d) =
  if is_str "array" (match dict_get "type" d with Some t => t | None => JNone end)
  then match dict_get "items" d with
       | Some items => py_in "$ref" items
       | None => Ok false
       end
  else Ok false.
Proof.
  unfold array_of_references. simpl.
  destruct (dict_get "type" d) as [t|]; simpl; [|reflexivity].
  destruct (is_str "array" t); [|reflexivity].
  rewrite dict_mem_get. destruct (dict_get "items" d); reflexivity.
Qed.

(** C2, as stated, fails: an array whose items refer to AmountDetails is
    dropped like any other array of references. *)
Lemma array_of_amount_details_dropped :
  endswith "#/components/schemas/AmountDetails" "/AmountDetails" = true /\
  rule_of_property true (JList []) "amounts" amount_details_items = Ok None /\
  process_schema_fields empty_session "Policy"
    (JDict [("properties", JDict [("amounts", amount_details_items)])]) 1 true
  = (empty_session, Ok 0).
Proof. repeat split. Qed.

(** C2, amended.  In a restricted document a well-formed property is
    skipped, with no rule written, exactly when its fragment carries a
    reference that does not end in /AmountDetails, or is array-typed with
    items that carry a reference, to AmountDetails or not; any other
    property, one that refers directly to AmountDetails among them, yields a
    rule and is counted. *)
Theorem reference_suppression (required : list json) (conjunto_id : nat)
    (session : Session) (count : nat) (prop_name : string) (d : dict) :
  well_formed_fragment d = true ->
  if direct_foreign d || array_with_ref_items d then
    (forall r, rule_of_property true (JList required) prop_name (JDict d)
               <> Ok (Some r)) /\
    process_property true (JList required) conjunto_id (session, count)
      (prop_name, JDict d) = (session, count)
  else
    exists r,
      rule_of_property true (JList required) prop_name (JDict d)
      = Ok (Some r) /\
      process_property true (JList required) conjunto_id (session, count)
        (prop_name, JDict d)
      = (snd (upsert_regra_validacao session conjunto_id prop_name r),
         count + 1).
Proof.
  unfold well_formed_fragment, direct_foreign, array_with_ref_items,
    process_property, rule_of_property.
  rewrite foreign_reference_dict, array_of_references_dict,
    extract_field_type_dict, calculate_field_size_dict.
  intros Hwf. apply andb_prop in Hwf. destruct Hwf as [Hwf He].
  apply andb_prop in Hwf. destruct Hwf as [Hr Hi].
  assert (Hsize : exists sz,
    (if is_str "string" (effective_type d) then
       match dict_get "maxLength" d with
       | Some m => Ok m
       | None =>
           match dict_get "enum" d with
           | Some enum =>
               if truthy enum then
                 let* es := py_iter enum in
                 Ok (JInt (Z.of_nat (max_list (map str_len es))))
               else Ok (JInt 0)
           | None => Ok (JInt 100)
           end
       end
     else if is_str "number" (effective_type d)
             || is_str "integer" (effective_type d)
     then Ok (JInt 10) else Ok (JInt 1)) = Ok sz).
  { destruct (is_str "string" (effective_type d)).
    - destruct (dict_get "maxLength" d); [eauto|].
      destruct (dict_get "enum" d) as [[| | | | |l|]|]; try discriminate;
        [|eauto].
      destruct (truthy (JList l)); simpl; eauto.
    - destruct (is_str "number" (effective_type d)
                || is_str "integer" (effective_type d)); eauto. }
  destruct Hsize as [sz Hsz]. rewrite Hsz. clear Hsz.
  assert (Henum : exists en, py_get (JDict d) "enum" (JList []) = Ok en).
  { simpl. destruct (dict_get "enum" d); eauto. }
  destruct Henum as [en Hen]. rewrite Hen. clear Hen.
  destruct (dict_get "$ref" d) as [[| | | |r| |]|]; try discriminate;
    simpl.
  - destruct (endswith r "/AmountDetails"); simpl.
    + destruct (dict_get "type" d) as [t|]; simpl; [|eauto].
      destruct (dict_get "items" d) as [[| | | | | |items]|];
        try discriminate; destruct (is_str "array" t); simpl; eauto.
      destruct (dict_mem "$ref" items) eqn:Em; simpl; [|eauto].
      rewrite dict_mem_get in Em.
      destruct (dict_get "$ref" items) as [ref|]; [|discriminate].
      simpl. destruct (py_split_last ref) as [[]|]; simpl;
        split; [discriminate|reflexivity|discriminate|reflexivity].
    + split; [discriminate|reflexivity].
  - destruct (dict_get "type" d) as [t|]; simpl; [|eauto].
    destruct (dict_get "items" d) as [[| | | | | |items]|];
      try discriminate; destruct (is_str "array" t); simpl; eauto.
    destruct (dict_mem "$ref" items) eqn:Em; simpl; [|eauto].
    rewrite dict_mem_get in Em.
    destruct (dict_get "$ref" items) as [ref|]; [|discriminate].
    simpl. destruct (py_split_last ref) as [[]|]; simpl;
      split; [discriminate|reflexivity|discriminate|reflexivity].
Qed.

Lemma reference_suppression_witness :
  (forall r, rule_of_property true (JList []) "owner"
               (JDict [("$ref", JStr "#/Owner")]) <> Ok (Some r)) /\
  process_property true (JList []) 1 (empty_session, 0)
    ("owner", JDict [("$ref", JStr "#/Owner")]) = (empty_session, 0).
Proof.
  exact (reference_suppression [] 1 empty_session 0 "owner"
           [("$ref", JStr "#/Owner")] eq_refl).
Defined.

(** ** Injection of policyId *)

Lemma dict_mem_set_other (k k' : string) (v : json) (d : dict) :
  k <> k' -> dict_mem k' (dict_set k v d) = dict_mem k' d.
Proof. intros H. unfold dict_mem. now rewrite dict_get_set_other. Qed.

Lemma dict_mem_set_same (k : string) (v : json) (d : dict) :
  dict_mem k (dict_set k v d) = true.
Proof. unfold dict_mem. now rewrite dict_get_set_same. Qed.

Lemma properties_not_required : "properties" <> "required".
Proof. discriminate. Qed.

Lemma required_not_properties : "required" <> "properties".
Proof. discriminate. Qed.

(** The rule the injected property gives. *)
Lemma policy_id_rule (required_fields : json) (b : bool) :
  py_in "policyId" required_fields = Ok b ->
  rule_of_property true required_fields "policyId" policy_id_property
  = Ok (Some (mk_rule (JStr "string") (JInt 100) b None)).
Proof.
  intros H. unfold rule_of_property.
  change (foreign_reference true policy_id_property) with (@Ok bool false).
  change (array_of_references true policy_id_property) with (@Ok bool false).
  change (extract_field_type policy_id_property) with (Ok (JStr "string")).
  change (calculate_field_size "policyId" policy_id_property)
    with (Ok (JInt 100)).
  simpl. rewrite H. reflexivity.
Qed.

(** C1, as stated, fails: a schema that declares policyId without
    requiring it is left as it is, and its rule is not required. *)
Lemma declared_policy_id_not_required :
  inject_policy_id declares_policy_id = (declares_policy_id, Ok tt) /\
  is_insurance_related_file "insurance-auto.yaml" = true /\
  process_yaml_to_db (fun _ => Ok (JDict [("Claim", declares_policy_id)]))
    (fun _ => Ok None) "insurance-auto.yaml" "auto" empty_session
  = (mk_session ["auto"] [("Claim", 1)]
       [((1, "policyId"), mk_rule (JStr "string") (JInt 100) false None)],
     true).
Proof. repeat split. Qed.

Lemma with_policy_id_listed (required : list json) :
  existsb (is_str "policyId") (with_policy_id required) = true.
Proof.
  unfold with_policy_id.
  destruct (existsb (is_str "policyId") required) eqn:E; [exact E|].
  rewrite existsb_app. simpl. apply orb_true_r.
Qed.

(** C1, amended.  In a restricted document the injection step runs on
    every schema but AmountDetails.  On a schema that does not declare
    policyId it adds the string property policyId of maximum length 100,
    and adds policyId to the required list unless it is already listed, so
    that the rule of policyId is required; every other key of the schema is
    kept.  The test of the required list is made only then: a schema that
    already declares policyId is left unchanged. *)
Theorem inject_policy_id_adds (d properties : dict) (required : list json) :
  dict_get "properties" d = Some (JDict properties) \/
  (dict_get "properties" d = None /\ properties = []) ->
  dict_get "required" d = Some (JList required) \/
  (dict_get "required" d = None /\ required = []) ->
  (forall schema_name grupo_id session,
     String.eqb schema_name "AmountDetails" = false ->
     out_schemas (process_schemas [(schema_name, JDict d)] grupo_id true
                    session [])
     = [(schema_name, fst (inject_policy_id (JDict d)))]) /\
  if dict_mem "policyId" properties then
    inject_policy_id (JDict d) = (JDict d, Ok tt)
  else
    exists d',
      inject_policy_id (JDict d) = (JDict d', Ok tt) /\
      dict_get "properties" d'
      = Some (JDict (dict_set "policyId" policy_id_property properties)) /\
      dict_get "required" d' = Some (JList (with_policy_id required)) /\
      (forall k, k <> "properties" -> k <> "required" ->
         dict_get k d' = dict_get k d) /\
      rule_of_property true (JList (with_policy_id required)) "policyId"
        policy_id_property
      = Ok (Some (mk_rule (JStr "string") (JInt 100) true None)).
Proof.
  intros Hp Hr. split.
  { intros schema_name grupo_id session Hn. simpl. rewrite Hn. simpl.
    destruct (upsert_conjunto_dados session schema_name grupo_id) as [cid s1].
    destruct (inject_policy_id (JDict d)) as [sd [u|e]]; [|reflexivity].
    destruct (process_schema_fields s1 schema_name sd cid true)
      as [s' [n|e]]; reflexivity. }
  assert (Hrule :
    rule_of_property true (JList (with_policy_id required)) "policyId"
      policy_id_property
    = Ok (Some (mk_rule (JStr "string") (JInt 100) true None))).
  { apply policy_id_rule. simpl. now rewrite with_policy_id_listed. }
  revert Hrule.
  unfold inject_policy_id, require_policy_id, py_setdefault, py_get, py_in,
    py_getitem, py_setitem, py_append, bind, with_policy_id, dict_mem.
  intros Hrule.
  destruct (dict_get "policyId" properties) eqn:Edecl.
  - destruct Hp as [Hp|[Hp ->]]; [|discriminate].
    now rewrite Hp, Edecl.
  - destruct Hp as [Hp|[Hp ->]]; rewrite Hp.
    + rewrite Edecl, Hp. rewrite !dict_get_set_other by discriminate.
      destruct Hr as [Hr|[Hr ->]]; rewrite Hr.
      * rewrite dict_get_set_other, Hr by discriminate.
        destruct (existsb (is_str "policyId") required);
          eexists; (split; [reflexivity|]).
        -- rewrite dict_get_set_same, dict_get_set_other by discriminate.
           repeat split; auto.
           intros k H1 H2. now rewrite dict_get_set_other by congruence.
        -- rewrite dict_get_set_same, dict_get_set_other, dict_get_set_same
             by discriminate.
           repeat split; auto.
           intros k H1 H2. now rewrite !dict_get_set_other by congruence.
      * rewrite dict_get_set_same. simpl existsb. cbv iota.
        eexists. split; [reflexivity|].
        rewrite dict_get_set_same, !dict_get_set_other, dict_get_set_same
          by discriminate.
        repeat split; auto.
        intros k H1 H2. now rewrite !dict_get_set_other by congruence.
    + simpl dict_get at 1. cbv iota. rewrite dict_get_set_same.
      rewrite !dict_get_set_other by discriminate.
      destruct Hr as [Hr|[Hr ->]]; rewrite Hr.
      * rewrite !dict_get_set_other, Hr by discriminate.
        destruct (existsb (is_str "policyId") required);
          eexists; (split; [reflexivity|]).
        -- rewrite dict_get_set_same, !dict_get_set_other by discriminate.
           repeat split; auto.
           intros k H1 H2. now rewrite !dict_get_set_other by congruence.
        -- rewrite dict_get_set_same, dict_get_set_other, dict_get_set_same
             by discriminate.
           repeat split; auto.
           intros k H1 H2. now rewrite !dict_get_set_other by congruence.
      * rewrite dict_get_set_same. simpl existsb. cbv iota.
        eexists. split; [reflexivity|].
        rewrite dict_get_set_same, !dict_get_set_other, dict_get_set_same
          by discriminate.
        repeat split; auto.
        intros k H1 H2. now rewrite !dict_get_set_other by congruence.
Qed.

Lemma inject_policy_id_adds_witness :
  exists d',
    inject_policy_id
      (JDict [("properties", JDict [("name", JDict [("type", JStr "string")])])])
    = (JDict d', Ok tt) /\
    dict_get "properties" d'
    = Some (JDict (dict_set "policyId" policy_id_property
                     [("name", JDict [("type", JStr "string")])])) /\
    dict_get "required" d' = Some (JList [JStr "policyId"]).
Proof.
  destruct (inject_policy_id_adds
              [("properties", JDict [("name", JDict [("type", JStr "string")])])]
              [("name", JDict [("type", JStr "string")])] []
              (or_introl eq_refl) (or_intror (conj eq_refl eq_refl)))
    as [_ (d' & E & Hp & Hr & _)].
  exists d'. repeat split; assumption.
Defined.

(** ** Tables of the store *)

Section TableFacts.
Context {K V : Type} (eqb : K -> K -> bool).
Hypothesis eqb_eq : forall a b, eqb a b = true <-> a = b.

Lemma eqb_same (a : K) : eqb a a = true.
Proof. now apply eqb_eq. Qed.

Lemma eqb_differ (a b : K) : a <> b -> eqb a b = false.
Proof.
  intros H. destruct (eqb a b) eqn:E; [|reflexivity].
  apply eqb_eq in E. contradiction.
Qed.

Lemma row_get_set_same (k : K) (v : V) (t : list (K * V)) :
  row_get eqb k (row_set eqb k v t) = Some v.
Proof.
  induction t as [|[k' v'] t IH]; simpl.
  - now rewrite eqb_same.
  - destruct (eqb k' k) eqn:E; simpl; rewrite E; auto.
Qed.

Lemma row_get_set_other (k k' : K) (v : V) (t : list (K * V)) :
  k <> k' -> row_get eqb k' (row_set eqb k v t) = row_get eqb k' t.
Proof.
  intros Hne. induction t as [|[k0 v0] t IH]; simpl.
  - now rewrite eqb_differ.
  - destruct (eqb k0 k) eqn:E; simpl; [|now rewrite IH].
    apply eqb_eq in E. subst k0. now rewrite eqb_differ.
Qed.
End TableFacts.

Lemma regra_eqb_eq (a b : nat * string) : regra_eqb a b = true <-> a = b.
Proof.
  destruct a as [n s], b as [m t]. unfold regra_eqb. simpl.
  rewrite andb_true_iff, Nat.eqb_eq, String.eqb_eq.
  split; [intros [-> ->]; reflexivity | intros [= -> ->]; auto].
Qed.

Lemma conjunto_eqb_eq (a b : string * nat) : conjunto_eqb a b = true <-> a = b.
Proof.
  destruct a as [s n], b as [t m]. unfold conjunto_eqb. simpl.
  rewrite andb_true_iff, Nat.eqb_eq, String.eqb_eq.
  split; [intros [-> ->]; reflexivity | intros [= -> ->]; auto].
Qed.

Lemma find_regra_upsert_same (s : Session) (cid : nat) (k : string)
    (r : rule_config) :
  find_regra (snd (upsert_regra_validacao s cid k r)) cid k = Some r.
Proof. apply (row_get_set_same regra_eqb regra_eqb_eq). Qed.

Lemma find_regra_upsert_other (s : Session) (cid cid' : nat) (k k' : string)
    (r : rule_config) :
  (cid, k) <> (cid', k') ->
  find_regra (snd (upsert_regra_validacao s cid k r)) cid' k'
  = find_regra s cid' k'.
Proof. apply (row_get_set_other regra_eqb regra_eqb_eq). Qed.

(** ** Flattening of AmountDetails *)

Lemma prefix_same (s : string) : String.prefix s s = true.
Proof.
  induction s as [|c s IH]; simpl; [reflexivity|].
  destruct (ascii_dec c c); [exact IH|congruence].
Qed.

Lemma contains_unfold (needle hay : string) :
  contains needle hay =
  String.prefix needle hay ||
  match hay with
  | EmptyString => false
  | String _ hay' => contains needle hay'
  end.
Proof. destruct hay; reflexivity. Qed.

Lemma contains_suffix (p s : string) : contains s (p ++ s)%string = true.
Proof.
  induction p as [|c p IH]; simpl append.
  - now rewrite contains_unfold, prefix_same.
  - rewrite contains_unfold, IH. apply orb_true_r.
Qed.

Lemma process_property_emit (ins : bool) (required_fields : json)
    (conjunto_id : nat) (session : Session) (count : nat)
    (prop_name : string) (prop_data : json) (r : rule_config) :
  rule_of_property ins required_fields prop_name prop_data = Ok (Some r) ->
  process_property ins required_fields conjunto_id (session, count)
    (prop_name, prop_data)
  = (snd (upsert_regra_validacao session conjunto_id prop_name r), count + 1).
Proof. intros H. unfold process_property. now rewrite H. Qed.

Lemma amount_schema_properties (p : string) :
  schema_properties (amount_schema (p ++ "/AmountDetails"))
  = Ok (JList [],
        [("amount_value",
          JDict [("type", JStr "number"); ("maxLength", JInt 10)]);
         ("amount_unit",
          JDict [("type", JStr "string"); ("maxLength", JInt 100)]);
         ("amount_unit_code",
          JDict [("type", JStr "string"); ("maxLength", JInt 3)])]).
Proof.
  unfold schema_properties, amount_schema, flatten_all_of.
  cbn [py_copy py_get dict_get String.eqb Ascii.eqb Bool.eqb bind truthy
       py_iter foldM].
  unfold flatten_item at 1, refers_to_amount_details.
  cbn [py_in dict_mem dict_get String.eqb Ascii.eqb Bool.eqb bind py_getitem].
  rewrite contains_suffix. reflexivity.
Qed.

(** C4.  For the schema whose allOf holds an element that refers to
    AmountDetails and carries amount { value: number, unit { code: string
    with enum USD, BRL } }, in a restricted document or not, three rules
    are written, among them amount_value (number, size 10) and
    amount_unit_code (string, size 3).  The names are amount_S for a field
    S of amount, with the type and size the classifier gives, and
    amount_unit_U, typed string, for a field U of unit. *)
Theorem amount_details_flattened (p : string) (ins : bool) (session : Session)
    (conjunto_id : nat) :
  let run := process_schema_fields session "Payment"
               (amount_schema (p ++ "/AmountDetails")) conjunto_id ins in
  snd run = Ok 3 /\
  find_regra (fst run) conjunto_id "amount_value"
  = Some (mk_rule (JStr "number") (JInt 10) false None) /\
  find_regra (fst run) conjunto_id "amount_unit_code"
  = Some (mk_rule (JStr "string") (JInt 3) false None) /\
  (forall pp S data,
     flatten_amount (JDict pp) (S, data) =
     let* size := calculate_field_size S data in
     let* type := extract_field_type data in
     let pp' :=
       JDict (dict_set ("amount_" ++ S)
                (JDict [("type", type); ("maxLength", size)]) pp) in
     let* is_unit := named_with_properties "unit" S data in
     if is_unit then
       let* unit_properties := py_get data "properties" (JDict []) in
       let* unit_items := py_items unit_properties in
       foldM flatten_unit unit_items pp'
     else Ok pp') /\
  (forall pp U data,
     flatten_unit (JDict pp) (U, data) =
     let* size := calculate_field_size U data in
     Ok (JDict (dict_set ("amount_unit_" ++ U)
                  (JDict [("type", JStr "string"); ("maxLength", size)]) pp))).
Proof.
  unfold process_schema_fields. rewrite amount_schema_properties.
  assert (Hrule : forall name t sz,
    (t = "number" \/ t = "string") ->
    rule_of_property ins (JList []) name
      (JDict [("type", JStr t); ("maxLength", JInt sz)])
    = Ok (Some (mk_rule (JStr t)
                  (if String.eqb t "string" then JInt sz else JInt 10)
                  false None))).
  { intros name t sz [-> | ->]; destruct ins; reflexivity. }
  cbn [fold_left].
  rewrite !(process_property_emit _ _ _ _ _ _ _ _ (Hrule _ _ _ (or_introl eq_refl))).
  rewrite !(process_property_emit _ _ _ _ _ _ _ _ (Hrule _ _ _ (or_intror eq_refl))).
  cbn [String.eqb Ascii.eqb Bool.eqb fst snd].
  set (r1 := mk_rule (JStr "number") (JInt 10) false None).
  set (r2 := mk_rule (JStr "string") (JInt 100) false None).
  set (r3 := mk_rule (JStr "string") (JInt 3) false None).
  set (s1 := snd (upsert_regra_validacao session conjunto_id
                    "amount_value" r1)).
  set (s2 := snd (upsert_regra_validacao s1 conjunto_id "amount_unit" r2)).
  split; [reflexivity|]. split; [|split; [|split]].
  - rewrite find_regra_upsert_other by discriminate.
    unfold s2. rewrite find_regra_upsert_other by discriminate.
    apply find_regra_upsert_same.
  - apply find_regra_upsert_same.
  - intros pp S data. unfold flatten_amount.
    destruct (calculate_field_size S data); [|reflexivity].
    destruct (extract_field_type data); reflexivity.
  - intros pp U data. unfold flatten_unit.
    destruct (calculate_field_size U data); reflexivity.
Qed.

(** ** The frame of flattening *)

Lemma same_but_amount_refl (a : json) : same_but_amount a a.
Proof. intros da ->. exists da. auto. Qed.

Lemma same_but_amount_trans (a b c : json) :
  same_but_amount a b -> same_but_amount b c -> same_but_amount a c.
Proof.
  intros Hab Hbc da Ha. destruct (Hab da Ha) as (db & Hb & H1 & H2).
  destruct (Hbc db Hb) as (dc & Hc & H3 & H4).
  exists dc. split; [exact Hc|]. split.
  - intros k Hk. now rewrite H3, H1.
  - auto.
Qed.

Lemma foldM_preserves {A S : Type} (R : S -> S -> Prop)
    (f : S -> A -> res S) :
  (forall s, R s s) ->
  (forall a b c, R a b -> R b c -> R a c) ->
  (forall s x s', f s x = Ok s' -> R s s') ->
  forall l s s', foldM f l s = Ok s' -> R s s'.
Proof.
  intros Hrefl Htrans Hf. induction l as [|x l IH]; simpl; intros s s' H.
  - injection H as <-. apply Hrefl.
  - destruct (f s x) as [s1|] eqn:E; simpl in H; [|discriminate].
    apply Htrans with s1; eauto.
Qed.

Lemma startswith_append (pre s : string) :
  startswith (pre ++ s)%string pre = true.
Proof.
  unfold startswith. induction pre as [|c pre IH]; simpl.
  - now destruct s.
  - destruct (ascii_dec c c); [exact IH|congruence].
Qed.

Lemma setitem_same_but_amount (pp : json) (k : string) (v : json)
    (pp' : json) :
  startswith k "amount_" = true ->
  py_setitem pp k v = Ok pp' -> same_but_amount pp pp'.
Proof.
  intros Hk H da ->. simpl in H. injection H as <-.
  exists (dict_set k v da). split; [reflexivity|]. split.
  - intros k' Hk'. apply dict_get_set_other. congruence.
  - intros k' Hk'. destruct (string_dec k k') as [<-|Hne].
    + apply dict_mem_set_same.
    + now rewrite dict_mem_set_other.
Qed.

Lemma flatten_unit_frame (pp : json) (x : string * json) (pp' : json) :
  flatten_unit pp x = Ok pp' -> same_but_amount pp pp'.
Proof.
  destruct x as [unit_field unit_data]. unfold flatten_unit.
  destruct (calculate_field_size unit_field unit_data); simpl;
    [|discriminate].
  apply setitem_same_but_amount.
  apply (startswith_append "amount_" ("unit_" ++ unit_field)).
Qed.

Lemma flatten_amount_frame (pp : json) (x : string * json) (pp' : json) :
  flatten_amount pp x = Ok pp' -> same_but_amount pp pp'.
Proof.
  destruct x as [sub_field sub_data]. unfold flatten_amount.
  destruct (calculate_field_size sub_field sub_data); simpl; [|discriminate].
  destruct (extract_field_type sub_data); simpl; [|discriminate].
  destruct (py_setitem pp _ _) as [pp1|] eqn:E1; simpl; [|discriminate].
  apply setitem_same_but_amount in E1;
    [|apply (startswith_append "amount_" sub_field)].
  destruct (named_with_properties "unit" sub_field sub_data) as [[|]|];
    simpl; try discriminate.
  - destruct (py_get sub_data "properties" (JDict [])) as [up|]; simpl;
      [|discriminate].
    destruct (py_items up) as [its|]; simpl; [|discriminate].
    intros H. apply same_but_amount_trans with pp1; [exact E1|].
    revert H.
    apply (foldM_preserves same_but_amount flatten_unit same_but_amount_refl
             same_but_amount_trans flatten_unit_frame).
  - intros [= <-]. exact E1.
Qed.

Lemma flatten_property_frame (pp : json) (x : string * json) (pp' : json) :
  flatten_property pp x = Ok pp' -> same_but_amount pp pp'.
Proof.
  destruct x as [prop_name prop_data]. unfold flatten_property.
  destruct (named_with_properties "amount" prop_name prop_data) as [[|]|];
    simpl; try discriminate.
  - destruct (py_get prop_data "properties" (JDict [])) as [ap|]; simpl;
      [|discriminate].
    destruct (py_items ap) as [its|]; simpl; [|discriminate].
    apply (foldM_preserves same_but_amount flatten_amount
             same_but_amount_refl same_but_amount_trans
             flatten_amount_frame).
  - intros [= <-]. apply same_but_amount_refl.
Qed.

Lemma flatten_item_frame (pp item pp' : json) :
  flatten_item pp item = Ok pp' -> same_but_amount pp pp'.
Proof.
  unfold flatten_item.
  destruct (refers_to_amount_details item) as [[|]|]; simpl;
    try discriminate.
  - destruct (py_in "properties" item) as [[|]|]; simpl; try discriminate.
    + destruct (py_get item "properties" (JDict [])) as [rp|]; simpl;
        [|discriminate].
      destruct (py_items rp) as [its|]; simpl; [|discriminate].
      apply (foldM_preserves same_but_amount flatten_property
               same_but_amount_refl same_but_amount_trans
               flatten_property_frame).
    + intros [= <-]. apply same_but_amount_refl.
  - intros [= <-]. apply same_but_amount_refl.
Qed.

Lemma qualifies_dict (d : dict) :
  well_formed_element (JDict d) = true ->
  qualifies (JDict d) =
  match dict_get "$ref" d with
  | Some (JStr ref) => contains "/AmountDetails" ref && dict_mem "properties" d
  | _ => false
  end.
Proof.
  unfold qualifies, refers_to_amount_details, well_formed_element. simpl.
  rewrite (dict_mem_get "$ref").
  destruct (dict_get "$ref" d) as [[| | | |ref| |]|]; try discriminate;
    simpl; [|reflexivity].
  intros _. destruct (contains "/AmountDetails" ref); [|reflexivity].
  now destruct (dict_mem "properties" d).
Qed.

Lemma flatten_item_skip (pp item : json) :
  well_formed_element item = true -> qualifies item = false ->
  flatten_item pp item = Ok pp.
Proof.
  destruct item as [| | | | | |d]; try discriminate.
  unfold qualifies, flatten_item, refers_to_amount_details,
    well_formed_element. simpl. rewrite (dict_mem_get "$ref").
  destruct (dict_get "$ref" d) as [[| | | |ref| |]|]; try discriminate;
    simpl; [|reflexivity].
  intros _. destruct (contains "/AmountDetails" ref); [|reflexivity].
  simpl. now destruct (dict_mem "properties" d).
Qed.

Lemma foldM_flatten_filter (items : list json) (pp : json) :
  forallb well_formed_element items = true ->
  foldM flatten_item items pp = foldM flatten_item (filter qualifies items) pp.
Proof.
  revert pp. induction items as [|item items IH]; intros pp; simpl;
    [reflexivity|].
  intros H. apply andb_prop in H. destruct H as [Hw Hws].
  destruct (qualifies item) eqn:Eq; simpl.
  - destruct (flatten_item pp item); simpl; auto.
  - rewrite flatten_item_skip by assumption. simpl. auto.
Qed.

(** C5, as stated, fails: an element whose reference holds /AmountDetails
    without ending in it is inlined as well. *)
Lemma reference_not_ending_inlined :
  endswith "#/components/schemas/AmountDetailsV2" "AmountDetails" = false /\
  flatten_all_of (JDict [("id", JDict [("type", JStr "string")])])
    (JList [amount_details_v2])
  = Ok (JDict [("id", JDict [("type", JStr "string")]);
               ("amount_value",
                JDict [("type", JStr "number"); ("maxLength", JInt 10)])]).
Proof. split; reflexivity. Qed.

(** C5, amended.  Flattening changes the property set only at names that
    begin with amount_: every declared property stays, and one of another
    name keeps its fragment.  Only the composed elements that carry a
    reference holding /AmountDetails, at its end or not, and a properties
    mapping count: the result is that of the list with the other elements
    removed.  Without allOf, with an empty one, or when no element
    qualifies, the property set is used as it is. *)
Theorem flatten_all_of_frame (properties : dict) :
  (forall all_of pp,
     flatten_all_of (JDict properties) all_of = Ok pp ->
     exists processed, pp = JDict processed /\
       (forall k, startswith k "amount_" = false ->
          dict_get k processed = dict_get k properties) /\
       (forall k, dict_mem k properties = true ->
          dict_mem k processed = true)) /\
  (forall all_of, truthy all_of = false ->
     flatten_all_of (JDict properties) all_of = Ok (JDict properties)) /\
  (forall items, forallb well_formed_element items = true ->
     flatten_all_of (JDict properties) (JList items)
     = flatten_all_of (JDict properties) (JList (filter qualifies items)) /\
     (filter qualifies items = [] ->
      flatten_all_of (JDict properties) (JList items)
      = Ok (JDict properties))) /\
  (forall d, well_formed_element (JDict d) = true ->
     qualifies (JDict d) =
     match dict_get "$ref" d with
     | Some (JStr ref) =>
         contains "/AmountDetails" ref && dict_mem "properties" d
     | _ => false
     end).
Proof.
  split; [|split; [|split]].
  - intros all_of pp. unfold flatten_all_of. simpl bind.
    destruct (truthy all_of).
    + destruct (py_iter all_of) as [items|]; simpl; [|discriminate].
      intros H.
      assert (Hs : same_but_amount (JDict properties) pp).
      { revert H.
        apply (foldM_preserves same_but_amount flatten_item
                 same_but_amount_refl same_but_amount_trans
                 flatten_item_frame). }
      exact (Hs properties eq_refl).
    + intros [= <-]. exists properties. auto.
  - intros all_of H. unfold flatten_all_of. simpl. now rewrite H.
  - intros items Hw.
    assert (E : flatten_all_of (JDict properties) (JList items)
                = foldM flatten_item (filter qualifies items)
                    (JDict properties)).
    { unfold flatten_all_of. simpl bind.
      destruct items as [|i items]; [reflexivity|].
      change (truthy (JList (i :: items))) with true. cbv iota.
      simpl py_iter. simpl bind. now apply foldM_flatten_filter. }
    split.
    + rewrite E. unfold flatten_all_of. simpl bind.
      destruct (filter qualifies items); reflexivity.
    + intros Hn. rewrite E, Hn. reflexivity.
  - exact qualifies_dict.
Qed.

Lemma flatten_all_of_frame_witness :
  flatten_all_of (JDict [("id", JDict [("type", JStr "string")])])
    (JList [JDict [("$ref", JStr "#/components/schemas/Base")]])
  = Ok (JDict [("id", JDict [("type", JStr "string")])]).
Proof.
  destruct (flatten_all_of_frame [("id", JDict [("type", JStr "string")])])
    as (_ & _ & H & _).
  destruct (H [JDict [("$ref", JStr "#/components/schemas/Base")]] eq_refl)
    as [_ Hn].
  apply Hn. reflexivity.
Defined.

(** ** The loop over the properties *)

Lemma process_properties_count (ins : bool) (required_fields : json)
    (conjunto_id : nat) (items : dict) (session : Session) (count : nat) :
  snd (fold_left (process_property ins required_fields conjunto_id) items
         (session, count))
  = count + List.length (filter (emits ins required_fields) items).
Proof.
  revert session count.
  induction items as [|[prop_name prop_data] items IH]; intros session count;
    simpl; [lia|].
  unfold emits at 1. simpl.
  destruct (rule_of_property ins required_fields prop_name prop_data)
    as [[r|]|]; simpl; rewrite IH; simpl; lia.
Qed.

Lemma process_properties_tables (ins : bool) (required_fields : json)
    (conjunto_id : nat) (items : dict) (session : Session) (count : nat) :
  let session' :=
    fst (fold_left (process_property ins required_fields conjunto_id) items
           (session, count)) in
  grupos session' = grupos session /\ conjuntos session' = conjuntos session.
Proof.
  revert session count.
  induction items as [|[prop_name prop_data] items IH]; intros session count;
    simpl; [auto|].
  destruct (rule_of_property ins required_fields prop_name prop_data)
    as [[r|]|]; simpl; try apply IH.
  destruct (IH (mk_session (grupos session) (conjuntos session)
                  (row_set regra_eqb (conjunto_id, prop_name) r
                     (regras session))) (count + 1)) as [Hg Hc].
  simpl in *. auto.
Qed.

Lemma process_schema_fields_count (session : Session) (schema_name : string)
    (schema_data : json) (conjunto_id : nat) (ins : bool) :
  snd (process_schema_fields session schema_name schema_data conjunto_id ins)
  = emitted_count ins schema_data.
Proof.
  unfold process_schema_fields, emitted_count.
  destruct (schema_properties schema_data) as [[required_fields items]|];
    simpl; [|reflexivity].
  pose proof (process_properties_count ins required_fields conjunto_id items
                session 0) as H.
  destruct (fold_left _ items (session, 0)) as [s' n]. simpl in *.
  now rewrite H.
Qed.

Lemma process_schema_fields_tables (session : Session) (schema_name : string)
    (schema_data : json) (conjunto_id : nat) (ins : bool) :
  let session' :=
    fst (process_schema_fields session schema_name schema_data conjunto_id
           ins) in
  grupos session' = grupos session /\ conjuntos session' = conjuntos session.
Proof.
  unfold process_schema_fields.
  destruct (schema_properties schema_data) as [[required_fields items]|];
    simpl; [|auto].
  pose proof (process_properties_tables ins required_fields conjunto_id items
                session 0) as H.
  destruct (fold_left _ items (session, 0)) as [s' n]. exact H.
Qed.

(** ** The loop over the schemas *)

Lemma process_schemas_result (ins : bool) (items : dict) (grupo_id : nat)
    (session : Session) (acc : list string) :
  out_result (process_schemas items grupo_id ins session acc)
  = processed_names ins items acc.
Proof.
  revert session acc.
  induction items as [|[schema_name schema_data] items IH];
    intros session acc; simpl; [reflexivity|].
  unfold schema_outcome, skipped, injected. simpl.
  destruct (String.eqb schema_name "AmountDetails" && ins) eqn:Es; simpl.
  - apply IH.
  - destruct (upsert_conjunto_dados session schema_name grupo_id)
      as [cid s1].
    destruct (if ins then inject_policy_id schema_data
              else (schema_data, Ok tt)) as [sd [u|e]]; simpl;
      [|reflexivity].
    pose proof (process_schema_fields_count s1 schema_name sd cid ins) as Hc.
    destruct (process_schema_fields s1 schema_name sd cid ins) as [s2 [n|e]];
      simpl in Hc; rewrite <- Hc; simpl; [|reflexivity].
    rewrite andb_true_r. apply IH.
Qed.

(** The names recorded are those of the schemas that yield a rule, when no
    schema raises. *)
Lemma processed_names_ok (ins : bool) (items : dict) (acc l : list string) :
  processed_names ins items acc = Ok l ->
  Forall (fun entry => exists n, schema_outcome ins entry = Ok n) items /\
  (l <> [] <->
   acc <> [] \/
   Exists (fun entry => exists n, schema_outcome ins entry = Ok (S n)) items).
Proof.
  revert acc. induction items as [|entry items IH]; intros acc; simpl.
  - intros [= <-]. split; [constructor|]. split; [auto|].
    intros [H|H]; [exact H|inversion H].
  - destruct (schema_outcome ins entry) as [n|] eqn:E; simpl; [|discriminate].
    intros H. apply IH in H. destruct H as [Hall Hiff].
    split; [constructor; eauto|]. rewrite Hiff.
    assert (Hskip : skipped ins (fst entry) = true -> n = 0).
    { intros Hs. unfold schema_outcome in E. rewrite Hs in E. congruence. }
    destruct n as [|n]; simpl.
    + split.
      * intros [H|H]; [auto|right; now apply Exists_cons_tl].
      * intros [H|H]; [auto|]. inversion H as [? ? [m Hm]|]; subst;
          [congruence|auto].
    + destruct (skipped ins (fst entry)); [specialize (Hskip eq_refl); lia|].
      simpl. split.
      * intros _. right. apply Exists_cons_hd. eauto.
      * intros _. left. now destruct acc.
Qed.


(** ** The value returned for a document *)

Lemma process_loaded_result (get_api_name_from_yaml : string -> res (option string))
    (items : dict) (yaml_path api_name : string) (session : Session)
    (name : option string) :
  get_api_name_from_yaml yaml_path = Ok name ->
  snd (process_loaded get_api_name_from_yaml (JDict items) yaml_path api_name
         session)
  = match processed_names (is_insurance_related_file yaml_path) items [] with
    | Ok (_ :: _) => true
    | _ => false
    end.
Proof.
  intros Hn. unfold process_loaded. rewrite Hn.
  destruct (upsert_grupo session _) as [gid s1]. simpl.
  now rewrite process_schemas_result.
Qed.



(** ** Datasets created for a document *)

Lemma reuse_in {K : Type} (eqb : K -> K -> bool) (k x : K) (l : list K) :
  In x (snd (reuse eqb k l)) -> x = k \/ In x l.
Proof.
  unfold reuse. destruct (rank eqb k l); simpl; [auto|].
  intros H. apply in_app_or in H. destruct H as [H|[H|[]]]; auto.
Qed.

Lemma upsert_conjunto_dados_in (session : Session) (nome : string)
    (grupo_id : nat) (x : string * nat) :
  In x (conjuntos (snd (upsert_conjunto_dados session nome grupo_id))) ->
  x = (nome, grupo_id) \/ In x (conjuntos session).
Proof.
  unfold upsert_conjunto_dados.
  pose proof (reuse_in conjunto_eqb (nome, grupo_id) x (conjuntos session))
    as H.
  destruct (reuse conjunto_eqb (nome, grupo_id) (conjuntos session)).
  exact H.
Qed.

Lemma process_schemas_conjuntos (items : dict) (grupo_id : nat)
    (session : Session) (acc : list string) (x : string * nat) :
  In x (conjuntos (out_session
                     (process_schemas items grupo_id true session acc))) ->
  In x (conjuntos session) \/ fst x <> "AmountDetails".
Proof.
  revert session acc.
  induction items as [|[schema_name schema_data] items IH];
    intros session acc; simpl; [auto|].
  rewrite andb_true_r.
  destruct (String.eqb schema_name "AmountDetails") eqn:En; simpl;
    [apply IH|].
  apply String.eqb_neq in En.
  pose proof (upsert_conjunto_dados_in session schema_name grupo_id x) as Hu.
  destruct (upsert_conjunto_dados session schema_name grupo_id) as [cid s1].
  simpl in Hu.
  assert (Hs1 : In x (conjuntos s1) ->
                In x (conjuntos session) \/ fst x <> "AmountDetails").
  { intros H. destruct (Hu H) as [->|H']; auto. }
  destruct (inject_policy_id schema_data) as [sd [u|e]]; simpl; [|exact Hs1].
  pose proof (process_schema_fields_tables s1 schema_name sd cid true) as Ht.
  destruct (process_schema_fields s1 schema_name sd cid true)
    as [s2 [n|e]]; simpl in Ht; destruct Ht as [_ Hc]; simpl.
  - intros H. apply IH in H. rewrite Hc in H. destruct H; auto.
  - rewrite Hc. exact Hs1.
Qed.

(** C7, as stated, fails: in a document that is not restricted the schema
    AmountDetails gets a dataset of its own. *)
Lemma amount_details_dataset_created :
  is_insurance_related_file "apis/payments.yaml" = false /\
  conjuntos
    (fst (process_yaml_to_db (fun _ => Ok amount_details_document)
            (fun _ => Ok None) "apis/payments.yaml" "payments"
            empty_session))
  = [("AmountDetails", 1)].
Proof. split; reflexivity. Qed.

(** C7, amended.  For a document classified as restricted, a schema named
    AmountDetails is never upserted as its own dataset: whatever dataset of
    that name the store holds after the run, it held before. *)
Theorem amount_details_no_dataset
    (extract_schemas_from_yaml : string -> res json)
    (get_api_name_from_yaml : string -> res (option string))
    (yaml_path api_name : string) (session : Session) (grupo_id : nat) :
  is_insurance_related_file yaml_path = true ->
  In ("AmountDetails", grupo_id)
    (conjuntos (fst (process_yaml_to_db extract_schemas_from_yaml
                       get_api_name_from_yaml yaml_path api_name session))) ->
  In ("AmountDetails", grupo_id) (conjuntos session).
Proof.
  intros Hins. unfold process_yaml_to_db, process_yaml_to_db_doc.
  destruct (extract_schemas_from_yaml yaml_path) as [schemas|]; [|auto].
  destruct (truthy schemas); simpl; [|auto].
  unfold process_loaded. rewrite Hins.
  destruct (get_api_name_from_yaml yaml_path) as [name|]; [|auto].
  unfold upsert_grupo.
  destruct (reuse String.eqb _ (grupos session)) as [gid g].
  destruct (py_items schemas) as [items|]; simpl; [|auto].
  intros H. apply process_schemas_conjuntos in H. simpl in H.
  destruct H as [H|H]; [exact H|congruence].
Qed.

Lemma amount_details_no_dataset_witness :
  is_insurance_related_file "apis/insurance-auto.yaml" = true /\
  In ("AmountDetails", 1) [("AmountDetails", 1); ("Claim", 1)].
Proof.
  split; [reflexivity|].
  apply (amount_details_no_dataset
           (fun _ => Ok (JDict [("AmountDetails", JDict []);
                                ("Claim", JDict [])]))
           (fun _ => Ok None) "apis/insurance-auto.yaml" "auto"
           (mk_session ["auto"] [("AmountDetails", 1); ("Claim", 1)] []) 1
           eq_refl).
  simpl. auto.
Defined.

(** ** The loaded document after the run *)

(** The document of the scenario, read as a value, after the run of a
    restricted document: the schema holds the injected property and a
    required list. *)
Lemma restricted_document_changed :
  fst (fst (process_yaml_to_db_doc (fun _ => Ok resource_document)
              (fun _ => Ok None) "resources_v2.yaml" "resources"
              empty_session))
  = Some
      (JDict [("Resource",
               JDict [("properties",
                       JDict [("name", JDict [("type", JStr "string");
                                              ("maxLength", JInt 50)]);
                              ("owner", JDict [("$ref", JStr "#/Owner")]);
                              ("policyId", policy_id_property)]);
                      ("required", JList [JStr "policyId"])])]) /\
  fst (fst (process_yaml_to_db_doc (fun _ => Ok resource_document)
              (fun _ => Ok None) "resources_v2.yaml" "resources"
              empty_session))
  <> Some resource_document.
Proof. split; [reflexivity|discriminate]. Qed.

(** ** A second run over the same document *)

Lemma begins_same {A : Type} (l : list A) : begins l l.
Proof. exists []. now rewrite app_nil_r. Qed.

Lemma begins_trans {A : Type} (l m t : list A) :
  begins l m -> begins m t -> begins l t.
Proof. intros [r ->] [r' ->]. exists (r ++ r'). now rewrite app_assoc. Qed.

Lemma begins_tail {A : Type} (x y : A) (l t : list A) :
  begins (x :: l) (y :: t) -> x = y /\ begins l t.
Proof. intros [r H]. injection H as -> ->. split; [reflexivity|now exists r]. Qed.

Lemma follows_start {K V : Type} (a t : list (K * V)) :
  begins (map fst a) (map fst t) -> follows a t t.
Proof.
  revert t. induction a as [|[k va] a IH]; intros t H; [constructor|].
  destruct t as [|[k' vt] t]; [destruct H as [r H]; discriminate|].
  simpl in H. apply begins_tail in H. destruct H as [-> H].
  constructor; auto.
Qed.

Lemma follows_end {K V : Type} (a b t : list (K * V)) :
  follows a b t -> a = t -> b = t.
Proof.
  induction 1 as [t|k va vb vt a b t Hv Hf IH]; [auto|].
  intros [= -> ->]. rewrite IH by reflexivity. now destruct Hv as [->| ->].
Qed.

Section TableReplay.
Context {K V : Type} (eqb : K -> K -> bool).
Hypothesis eqb_eq : forall a b, eqb a b = true <-> a = b.

Lemma rank_app_some (k : K) (l m : list K) (i : nat) :
  rank eqb k l = Some i -> rank eqb k (l ++ m) = Some i.
Proof.
  revert i. induction l as [|k' l IH]; simpl; intros i; [discriminate|].
  destruct (eqb k' k); [auto|].
  destruct (rank eqb k l) as [j|]; [|discriminate].
  intros [= <-]. now rewrite (IH j eq_refl).
Qed.

Lemma rank_snoc (k : K) (l : list K) :
  rank eqb k l = None -> rank eqb k (l ++ [k]) = Some (S (List.length l)).
Proof.
  induction l as [|k' l IH]; simpl.
  - intros _. now rewrite (eqb_same eqb eqb_eq).
  - destruct (eqb k' k); [discriminate|].
    destruct (rank eqb k l); [discriminate|].
    intros _. now rewrite IH.
Qed.

Lemma reuse_begins (k : K) (l : list K) : begins l (snd (reuse eqb k l)).
Proof.
  unfold reuse. destruct (rank eqb k l); simpl;
    [apply begins_same|now exists [k]].
Qed.

(** A row created by the first run is found again, under the same
    identifier, in any table that begins as the first run left it. *)
Lemma reuse_again (k : K) (l t : list K) :
  begins (snd (reuse eqb k l)) t -> reuse eqb k t = (fst (reuse eqb k l), t).
Proof.
  unfold reuse at 1 3. destruct (rank eqb k l) as [i|] eqn:E; simpl.
  - intros [r ->]. unfold reuse. now rewrite (rank_app_some k l r i E).
  - intros [r ->]. unfold reuse.
    now rewrite (rank_app_some k (l ++ [k]) r _ (rank_snoc k l E)).
Qed.

Lemma row_set_begins (k : K) (v : V) (t : list (K * V)) :
  begins (map fst t) (map fst (row_set eqb k v t)).
Proof.
  induction t as [|[k' v'] t IH]; simpl.
  - now exists [k].
  - destruct (eqb k' k); simpl; [apply begins_same|].
    destruct IH as [r E]. exists r. simpl. now rewrite E.
Qed.

Lemma follows_row_set (k : K) (v : V) (a b t : list (K * V)) :
  follows a b t ->
  begins (map fst (row_set eqb k v a)) (map fst t) ->
  follows (row_set eqb k v a) (row_set eqb k v b) t /\
  rank eqb k (map fst (row_set eqb k v b))
  = rank eqb k (map fst (row_set eqb k v a)).
Proof.
  induction 1 as [t|k0 va vb vt a b t Hv Hf IH]; simpl; intros Hb.
  - destruct t as [|[k' vt] t]; [destruct Hb as [r Hb]; discriminate|].
    simpl in Hb. apply begins_tail in Hb. destruct Hb as [<- _].
    simpl. rewrite (eqb_same eqb eqb_eq). simpl.
    rewrite (eqb_same eqb eqb_eq). split; [|reflexivity].
    constructor; [auto|constructor].
  - destruct (eqb k0 k) eqn:E; simpl; rewrite E.
    + split; [|reflexivity]. constructor; auto.
    + simpl in Hb. apply begins_tail in Hb. destruct Hb as [_ Hb].
      destruct (IH Hb) as [IH1 IH2]. rewrite IH2.
      split; [|reflexivity]. constructor; auto.
Qed.
End TableReplay.

Lemma within_same (a : Session) : within a a.
Proof. repeat split; apply begins_same. Qed.

Lemma within_trans (a b c : Session) : within a b -> within b c -> within a c.
Proof.
  intros (H1 & H2 & H3) (H4 & H5 & H6).
  repeat split; eapply begins_trans; eassumption.
Qed.

Lemma replay_start (a t : Session) : within a t -> replay a t t.
Proof.
  intros (_ & _ & H). repeat split. now apply follows_start.
Qed.

Lemma replay_end (b t : Session) : replay t b t -> b = t.
Proof.
  intros (Hg & Hc & Hf). apply follows_end in Hf; [|reflexivity].
  destruct b, t. simpl in *. congruence.
Qed.

Lemma upsert_grupo_unfold (s : Session) (nome : string) :
  upsert_grupo s nome
  = (fst (reuse String.eqb nome (grupos s)),
     mk_session (snd (reuse String.eqb nome (grupos s))) (conjuntos s)
       (regras s)).
Proof.
  unfold upsert_grupo. now destruct (reuse String.eqb nome (grupos s)).
Qed.

Lemma upsert_conjunto_dados_unfold (s : Session) (nome : string) (g : nat) :
  upsert_conjunto_dados s nome g
  = (fst (reuse conjunto_eqb (nome, g) (conjuntos s)),
     mk_session (grupos s) (snd (reuse conjunto_eqb (nome, g) (conjuntos s)))
       (regras s)).
Proof.
  unfold upsert_conjunto_dados.
  now destruct (reuse conjunto_eqb (nome, g) (conjuntos s)).
Qed.

Lemma within_upsert_grupo (s : Session) (nome : string) :
  within s (snd (upsert_grupo s nome)).
Proof.
  rewrite upsert_grupo_unfold. repeat split; simpl;
    auto using begins_same, reuse_begins.
Qed.

Lemma within_upsert_conjunto_dados (s : Session) (nome : string) (g : nat) :
  within s (snd (upsert_conjunto_dados s nome g)).
Proof.
  rewrite upsert_conjunto_dados_unfold. repeat split; simpl;
    auto using begins_same, reuse_begins.
Qed.

Lemma within_upsert_regra_validacao (s : Session) (cid : nat) (k : string)
    (r : rule_config) :
  within s (snd (upsert_regra_validacao s cid k r)).
Proof.
  repeat split; simpl; auto using begins_same, row_set_begins.
Qed.

Lemma replay_upsert_grupo (a b t : Session) (nome : string) :
  replay a b t -> within (snd (upsert_grupo a nome)) t ->
  fst (upsert_grupo b nome) = fst (upsert_grupo a nome) /\
  replay (snd (upsert_grupo a nome)) (snd (upsert_grupo b nome)) t.
Proof.
  intros (Hg & Hc & Hf). rewrite !upsert_grupo_unfold. simpl.
  intros (Hwg & _ & _). simpl in Hwg.
  rewrite Hg, (reuse_again String.eqb String.eqb_eq nome _ _ Hwg). simpl.
  repeat split; assumption.
Qed.

Lemma replay_upsert_conjunto_dados (a b t : Session) (nome : string)
    (g : nat) :
  replay a b t -> within (snd (upsert_conjunto_dados a nome g)) t ->
  fst (upsert_conjunto_dados b nome g) = fst (upsert_conjunto_dados a nome g)
  /\ replay (snd (upsert_conjunto_dados a nome g))
       (snd (upsert_conjunto_dados b nome g)) t.
Proof.
  intros (Hg & Hc & Hf). rewrite !upsert_conjunto_dados_unfold. simpl.
  intros (_ & Hwc & _). simpl in Hwc.
  rewrite Hc, (reuse_again conjunto_eqb conjunto_eqb_eq (nome, g) _ _ Hwc).
  simpl. repeat split; assumption.
Qed.

Lemma replay_upsert_regra_validacao (a b t : Session) (cid : nat)
    (k : string) (r : rule_config) :
  replay a b t -> within (snd (upsert_regra_validacao a cid k r)) t ->
  fst (upsert_regra_validacao b cid k r)
  = fst (upsert_regra_validacao a cid k r) /\
  replay (snd (upsert_regra_validacao a cid k r))
    (snd (upsert_regra_validacao b cid k r)) t.
Proof.
  intros (Hg & Hc & Hf) (_ & _ & Hw). simpl in *.
  destruct (follows_row_set regra_eqb regra_eqb_eq (cid, k) r _ _ _ Hf Hw)
    as [H1 H2].
  rewrite H2. repeat split; assumption.
Qed.

Lemma within_process_properties (ins : bool) (required_fields : json)
    (cid : nat) (items : dict) (a : Session) (n : nat) :
  within a
    (fst (fold_left (process_property ins required_fields cid) items (a, n))).
Proof.
  revert a n. induction items as [|[prop_name prop_data] items IH];
    intros a n; simpl; [apply within_same|].
  destruct (rule_of_property ins required_fields prop_name prop_data)
    as [[r|]|]; try apply IH.
  eapply within_trans; [|apply IH].
  apply (within_upsert_regra_validacao a cid prop_name r).
Qed.

Lemma replay_process_properties (ins : bool) (required_fields : json)
    (cid : nat) (t : Session) (items : dict) (a b : Session) (n : nat) :
  replay a b t ->
  within
    (fst (fold_left (process_property ins required_fields cid) items (a, n)))
    t ->
  snd (fold_left (process_property ins required_fields cid) items (b, n))
  = snd (fold_left (process_property ins required_fields cid) items (a, n))
  /\ replay
       (fst (fold_left (process_property ins required_fields cid) items
               (a, n)))
       (fst (fold_left (process_property ins required_fields cid) items
               (b, n))) t.
Proof.
  revert a b n. induction items as [|[prop_name prop_data] items IH];
    intros a b n Hr Hw; simpl in *; [auto|].
  destruct (rule_of_property ins required_fields prop_name prop_data)
    as [[r|]|]; try (apply IH; assumption).
  assert (Hw1 : within (snd (upsert_regra_validacao a cid prop_name r)) t).
  { eapply within_trans; [|exact Hw]. apply within_process_properties. }
  destruct (replay_upsert_regra_validacao a b t cid prop_name r Hr Hw1)
    as [_ Hr1].
  apply IH; assumption.
Qed.

Lemma within_process_schema_fields (a : Session) (schema_name : string)
    (schema_data : json) (cid : nat) (ins : bool) :
  within a (fst (process_schema_fields a schema_name schema_data cid ins)).
Proof.
  unfold process_schema_fields.
  destruct (schema_properties schema_data) as [[required_fields items]|];
    [|apply within_same].
  pose proof (within_process_properties ins required_fields cid items a 0)
    as H.
  now destruct (fold_left _ items (a, 0)).
Qed.

Lemma replay_process_schema_fields (a b t : Session) (schema_name : string)
    (schema_data : json) (cid : nat) (ins : bool) :
  replay a b t ->
  within (fst (process_schema_fields a schema_name schema_data cid ins)) t ->
  snd (process_schema_fields b schema_name schema_data cid ins)
  = snd (process_schema_fields a schema_name schema_data cid ins) /\
  replay (fst (process_schema_fields a schema_name schema_data cid ins))
    (fst (process_schema_fields b schema_name schema_data cid ins)) t.
Proof.
  unfold process_schema_fields.
  destruct (schema_properties schema_data) as [[required_fields items]|];
    [|auto].
  intros Hr Hw.
  pose proof (replay_process_properties ins required_fields cid t items a b 0
                Hr) as H.
  destruct (fold_left _ items (a, 0)) as [a' na].
  destruct (fold_left _ items (b, 0)) as [b' nb]. simpl in *.
  destruct (H Hw) as [-> H2]. auto.
Qed.

Lemma within_process_schemas (items : dict) (grupo_id : nat) (ins : bool)
    (a : Session) (acc : list string) :
  within a (out_session (process_schemas items grupo_id ins a acc)).
Proof.
  revert a acc. induction items as [|[schema_name schema_data] items IH];
    intros a acc; simpl; [apply within_same|].
  destruct (String.eqb schema_name "AmountDetails" && ins); simpl;
    [apply IH|].
  pose proof (within_upsert_conjunto_dados a schema_name grupo_id) as H1.
  destruct (upsert_conjunto_dados a schema_name grupo_id) as [cid a1].
  simpl in H1.
  destruct (if ins then inject_policy_id schema_data
            else (schema_data, Ok tt)) as [sd [u|e]]; simpl; [|exact H1].
  pose proof (within_process_schema_fields a1 schema_name sd cid ins) as H2.
  destruct (process_schema_fields a1 schema_name sd cid ins) as [a2 [n|e]];
    simpl in *.
  - eapply within_trans; [exact H1|]. eapply within_trans; [exact H2|].
    apply IH.
  - eapply within_trans; eassumption.
Qed.

Lemma replay_process_schemas (t : Session) (items : dict) (grupo_id : nat)
    (ins : bool) (a b : Session) (acc : list string) :
  replay a b t ->
  within (out_session (process_schemas items grupo_id ins a acc)) t ->
  out_schemas (process_schemas items grupo_id ins b acc)
  = out_schemas (process_schemas items grupo_id ins a acc) /\
  out_result (process_schemas items grupo_id ins b acc)
  = out_result (process_schemas items grupo_id ins a acc) /\
  replay (out_session (process_schemas items grupo_id ins a acc))
    (out_session (process_schemas items grupo_id ins b acc)) t.
Proof.
  revert a b acc. induction items as [|[schema_name schema_data] items IH];
    intros a b acc Hr Hw; simpl in *; [auto|].
  destruct (String.eqb schema_name "AmountDetails" && ins); simpl in *.
  - destruct (IH a b acc Hr Hw) as (-> & -> & H). auto.
  - pose proof (replay_upsert_conjunto_dados a b t schema_name grupo_id Hr)
      as Hu.
    destruct (upsert_conjunto_dados a schema_name grupo_id) as [cid a1].
    destruct (upsert_conjunto_dados b schema_name grupo_id) as [cid' b1].
    simpl in Hu.
    destruct (if ins then inject_policy_id schema_data
              else (schema_data, Ok tt)) as [sd [u|e]]; simpl in *.
    + pose proof (replay_process_schema_fields a1 b1 t schema_name sd cid ins)
        as Hp.
      pose proof (within_process_schema_fields a1 schema_name sd cid ins)
        as Hw1.
      destruct (process_schema_fields a1 schema_name sd cid ins)
        as [a2 [n|e]] eqn:Ea; simpl in *.
      * pose proof (within_process_schemas items grupo_id ins a2
                      (if (0 <? n)%nat then acc ++ [schema_name] else acc))
          as Hw2.
        assert (Hwa2 : within a2 t) by (eapply within_trans; eassumption).
        assert (Hwa1 : within a1 t) by (eapply within_trans; eassumption).
        destruct (Hu Hwa1) as [-> Hr1].
        destruct (process_schema_fields b1 schema_name sd cid ins)
          as [b2 rb]. simpl in Hp.
        destruct (Hp Hr1 Hwa2) as [-> Hr2]. simpl.
        destruct (IH a2 b2 _ Hr2 Hw) as (-> & -> & H). auto.
      * assert (Hwa1 : within a1 t) by (eapply within_trans; eassumption).
        destruct (Hu Hwa1) as [-> Hr1].
        destruct (process_schema_fields b1 schema_name sd cid ins)
          as [b2 rb]. simpl in Hp.
        destruct (Hp Hr1 Hw) as [-> Hr2]. simpl. auto.
    + destruct (Hu Hw) as [-> Hr1]. auto.
Qed.

Lemma within_process_loaded
    (get_api_name_from_yaml : string -> res (option string))
    (schemas : json) (yaml_path api_name : string) (a : Session) :
  within a
    (snd (fst (process_loaded get_api_name_from_yaml schemas yaml_path
                 api_name a))).
Proof.
  unfold process_loaded.
  destruct (get_api_name_from_yaml yaml_path) as [name|];
    [|apply within_same].
  set (grupo_nome := match name with
                     | Some n => if String.eqb n EmptyString then api_name else n
                     | None => api_name
                     end).
  pose proof (within_upsert_grupo a grupo_nome) as H1.
  destruct (upsert_grupo a grupo_nome) as [gid a1]. simpl in H1.
  destruct (py_items schemas) as [items|]; simpl; [|exact H1].
  eapply within_trans; [exact H1|]. apply within_process_schemas.
Qed.

Lemma replay_process_loaded
    (get_api_name_from_yaml : string -> res (option string))
    (schemas : json) (yaml_path api_name : string) (a b t : Session) :
  replay a b t ->
  within
    (snd (fst (process_loaded get_api_name_from_yaml schemas yaml_path
                 api_name a))) t ->
  fst (fst (process_loaded get_api_name_from_yaml schemas yaml_path
              api_name b))
  = fst (fst (process_loaded get_api_name_from_yaml schemas yaml_path
                api_name a)) /\
  snd (process_loaded get_api_name_from_yaml schemas yaml_path api_name b)
  = snd (process_loaded get_api_name_from_yaml schemas yaml_path api_name a)
  /\ replay
       (snd (fst (process_loaded get_api_name_from_yaml schemas yaml_path
                    api_name a)))
       (snd (fst (process_loaded get_api_name_from_yaml schemas yaml_path
                    api_name b))) t.
Proof.
  unfold process_loaded.
  destruct (get_api_name_from_yaml yaml_path) as [name|]; [|auto].
  set (grupo_nome := match name with
                     | Some n => if String.eqb n EmptyString then api_name else n
                     | None => api_name
                     end).
  intros Hr.
  pose proof (replay_upsert_grupo a b t grupo_nome Hr) as Hu.
  destruct (upsert_grupo a grupo_nome) as [gid a1].
  destruct (upsert_grupo b grupo_nome) as [gid' b1]. simpl in Hu.
  destruct (py_items schemas) as [items|]; simpl.
  - intros Hw.
    assert (Hwa1 : within a1 t).
    { eapply within_trans; [|exact Hw]. apply within_process_schemas. }
    destruct (Hu Hwa1) as [-> Hr1].
    destruct (replay_process_schemas t items gid
                (is_insurance_related_file yaml_path) a1 b1 [] Hr1 Hw)
      as (-> & -> & H).
    auto.
  - intros Hw. destruct (Hu Hw) as [-> Hr1]. auto.
Qed.

(** ** The injection, once more *)

(** Lines 101-106 leave the properties alone. *)
Lemma require_policy_id_properties (d : dict) :
  exists d', fst (require_policy_id (JDict d)) = JDict d' /\
    dict_get "properties" d' = dict_get "properties" d.
Proof.
  unfold require_policy_id, py_setdefault, py_getitem, py_setitem, py_append,
    bind. simpl py_in at 1.
  assert (Hkeep : forall x d0,
            dict_get "properties" (dict_set "required" x d0)
            = dict_get "properties" d0).
  { intros x d0. now rewrite dict_get_set_other by discriminate. }
  destruct (dict_mem "required" d) eqn:Em.
  - unfold dict_mem in Em.
    destruct (dict_get "required" d) as [req|]; [|discriminate].
    destruct (py_in "policyId" req) as [[|]|]; simpl; eauto.
    destruct req; simpl; eauto.
  - rewrite dict_get_set_same. simpl.
    eexists. split; [reflexivity|]. now rewrite !Hkeep.
Qed.

(** After the injection the schema is as it was, or declares policyId. *)
Lemma inject_policy_id_declares (schema_data : json) :
  fst (inject_policy_id schema_data) = schema_data \/
  exists d p,
    fst (inject_policy_id schema_data) = JDict d /\
    dict_get "properties" d = Some (JDict p) /\
    dict_mem "policyId" p = true.
Proof.
  destruct schema_data as [| | | | | |d]; try (left; reflexivity).
  unfold inject_policy_id, py_setdefault, py_get, py_getitem, py_setitem,
    bind.
  destruct (dict_get "properties" d) as [props|] eqn:Ep.
  - destruct (py_in "policyId" props) as [[|]|] eqn:Ein; simpl;
      [auto|idtac|auto].
    unfold dict_mem. rewrite Ep. cbv beta iota. rewrite Ep. cbv beta iota.
    destruct props as [| | | | | |p]; cbv beta iota; auto.
    destruct (require_policy_id_properties
                (dict_set "properties"
                   (JDict (dict_set "policyId" policy_id_property p)) d))
      as (d' & E & Hp).
    right. exists d', (dict_set "policyId" policy_id_property p).
    split; [exact E|]. rewrite Hp, dict_get_set_same.
    split; [reflexivity|apply dict_mem_set_same].
  - change (py_in "policyId" (JDict [])) with (@Ok bool false).
    cbv beta iota. unfold py_in, dict_mem. rewrite Ep. cbv beta iota.
    rewrite dict_get_set_same. cbv beta iota.
    destruct (require_policy_id_properties
                (dict_set "properties"
                   (JDict (dict_set "policyId" policy_id_property []))
                   (dict_set "properties" (JDict []) d)))
      as (d' & E & Hp).
    right. exists d', (dict_set "policyId" policy_id_property []).
    split; [exact E|]. rewrite Hp, dict_get_set_same.
    split; reflexivity.
Qed.

Lemma inject_policy_id_declared (d p : dict) :
  dict_get "properties" d = Some (JDict p) ->
  dict_mem "policyId" p = true ->
  inject_policy_id (JDict d) = (JDict d, Ok tt).
Proof.
  intros Hp Hm. unfold inject_policy_id. simpl. rewrite Hp. simpl.
  now rewrite Hm.
Qed.

Lemma inject_policy_id_again (schema_data : json) :
  fst (inject_policy_id (fst (inject_policy_id schema_data)))
  = fst (inject_policy_id schema_data) /\
  (snd (inject_policy_id schema_data) = Ok tt ->
   inject_policy_id (fst (inject_policy_id schema_data))
   = (fst (inject_policy_id schema_data), Ok tt)).
Proof.
  destruct (inject_policy_id_declares schema_data) as [E|(d & p & E & Hp & Hm)].
  - rewrite E. split; [exact E|].
    intros Hs. rewrite <- E at 2. rewrite <- Hs.
    now destruct (inject_policy_id schema_data).
  - rewrite E, (inject_policy_id_declared d p Hp Hm). auto.
Qed.

Lemma process_loaded_again
    (get_api_name_from_yaml : string -> res (option string))
    (schemas : json) (yaml_path api_name : string) (session : Session) :
  let first := process_loaded get_api_name_from_yaml schemas yaml_path
                 api_name session in
  process_loaded get_api_name_from_yaml schemas yaml_path api_name
    (snd (fst first)) = first.
Proof.
  intros first.
  pose proof (within_process_loaded get_api_name_from_yaml schemas yaml_path
                api_name session) as Hw.
  fold first in Hw.
  destruct (replay_process_loaded get_api_name_from_yaml schemas yaml_path
              api_name session (snd (fst first)) (snd (fst first))
              (replay_start _ _ Hw)) as (H1 & H2 & H3).
  { fold first. apply within_same. }
  fold first in H1, H2, H3. apply replay_end in H3.
  destruct (process_loaded get_api_name_from_yaml schemas yaml_path api_name
              (snd (fst first))) as [[d s] b].
  simpl in *. subst. now destruct first as [[d s] b].
Qed.

(** C9.  A second run over the same unchanged document, on the session
    the first run left, leaves that session as it is — the same groups,
    datasets and rules with the same identifiers and the same bodies, no
    row added — and returns what the first run returned.  The injection of
    policyId made again on a schema it was made on changes nothing: the
    required list does not grow. *)
Theorem second_run_same
    (extract_schemas_from_yaml : string -> res json)
    (get_api_name_from_yaml : string -> res (option string))
    (yaml_path api_name : string) (session : Session) :
  let first := process_yaml_to_db extract_schemas_from_yaml
                 get_api_name_from_yaml yaml_path api_name session in
  process_yaml_to_db extract_schemas_from_yaml get_api_name_from_yaml
    yaml_path api_name (fst first) = first /\
  process_yaml_to_db_doc extract_schemas_from_yaml get_api_name_from_yaml
    yaml_path api_name (fst first)
  = process_yaml_to_db_doc extract_schemas_from_yaml get_api_name_from_yaml
      yaml_path api_name session /\
  (forall schema_data,
     fst (inject_policy_id (fst (inject_policy_id schema_data)))
     = fst (inject_policy_id schema_data)) /\
  (forall schema_data,
     snd (inject_policy_id schema_data) = Ok tt ->
     inject_policy_id (fst (inject_policy_id schema_data))
     = (fst (inject_policy_id schema_data), Ok tt)).
Proof.
  intros first.
  assert (Hdoc :
    process_yaml_to_db_doc extract_schemas_from_yaml get_api_name_from_yaml
      yaml_path api_name (fst first)
    = process_yaml_to_db_doc extract_schemas_from_yaml get_api_name_from_yaml
        yaml_path api_name session).
  { unfold first, process_yaml_to_db, process_yaml_to_db_doc.
    destruct (extract_schemas_from_yaml yaml_path) as [schemas|];
      [|reflexivity].
    destruct (truthy schemas); simpl; [|reflexivity].
    pose proof (process_loaded_again get_api_name_from_yaml schemas yaml_path
                  api_name session) as H. simpl in H.
    destruct (process_loaded get_api_name_from_yaml schemas yaml_path
                api_name session) as [[d s] b].
    simpl in *. now rewrite H. }
  split; [|split; [exact Hdoc|split]].
  - unfold first at 2. unfold process_yaml_to_db at 1 2. now rewrite Hdoc.
  - intros schema_data. apply inject_policy_id_again.
  - intros schema_data. apply inject_policy_id_again.
Qed.

Lemma second_run_same_witness :
  inject_policy_id
    (JDict [("required", JList [JStr "policyId"]);
            ("properties", JDict [("policyId", policy_id_property)])])
  = (JDict [("required", JList [JStr "policyId"]);
            ("properties", JDict [("policyId", policy_id_property)])],
     Ok tt).
Proof.
  destruct (second_run_same (fun _ => Ok resource_document)
              (fun _ => Ok None) "resources_v2.yaml" "resources"
              empty_session) as (_ & _ & _ & H).
  exact (H (JDict [("required", JList [JStr "policyId"])]) eq_refl).
Defined.

(** * Further properties of the processor *)

(** ** The category of a file *)

Lemma contains_slash_cons (c : ascii) (s : string) :
  contains "/" (String c s) = Ascii.eqb c "/" || contains "/" s.
Proof.
  rewrite contains_unfold. cbn [String.prefix].
  destruct (ascii_dec "/" c) as [<-|Hne].
  - now destruct s.
  - destruct (Ascii.eqb c "/") eqn:E; [|reflexivity].
    apply Ascii.eqb_eq in E. congruence.
Qed.

Lemma basename_no_slash (s : string) :
  contains "/" s = false -> basename s = s.
Proof. destruct s; simpl; [reflexivity|]. now intros ->. Qed.

Lemma contains_slash_middle (dir name : string) :
  contains "/" (dir ++ "/" ++ name)%string = true.
Proof.
  induction dir as [|c dir IH].
  - change (contains "/" (String "/" name) = true).
    now rewrite contains_slash_cons.
  - change (contains "/" (String c (dir ++ "/" ++ name)%string) = true).
    rewrite contains_slash_cons, IH. apply orb_true_r.
Qed.

Lemma basename_after_slash (dir name : string) :
  contains "/" name = false ->
  basename (dir ++ "/" ++ name)%string = name.
Proof.
  intros H. induction dir as [|c dir IH].
  - change (basename (String "/" name) = name).
    unfold basename; fold basename.
    rewrite contains_slash_cons. cbn [Ascii.eqb Bool.eqb orb].
    now apply basename_no_slash.
  - change (basename (String c (dir ++ "/" ++ name)%string) = name).
    unfold basename; fold basename.
    rewrite contains_slash_cons, contains_slash_middle, orb_true_r.
    exact IH.
Qed.

(** X1.  The category of a file is that of its base name: the directories
    it lies in, one named insurance among them, do not count. *)
Theorem category_of_base_name (dir name : string) :
  contains "/" name = false ->
  is_insurance_related_file (dir ++ "/" ++ name)%string
  = is_insurance_related_file name.
Proof.
  intros H. unfold is_insurance_related_file.
  now rewrite basename_after_slash, basename_no_slash.
Qed.

Lemma category_of_base_name_witness :
  is_insurance_related_file "insurance/apis/payments.yaml"
  = is_insurance_related_file "payments.yaml".
Proof.
  exact (category_of_base_name "insurance/apis" "payments.yaml" eq_refl).
Defined.

Lemma lower_ascii_slash (c : ascii) :
  Ascii.eqb (lower_ascii c) "/" = Ascii.eqb c "/".
Proof.
  destruct c as [b0 b1 b2 b3 b4 b5 b6 b7].
  destruct b0, b1, b2, b3, b4, b5, b6, b7; reflexivity.
Qed.

Lemma lower_ascii_twice (c : ascii) :
  lower_ascii (lower_ascii c) = lower_ascii c.
Proof.
  destruct c as [b0 b1 b2 b3 b4 b5 b6 b7].
  destruct b0, b1, b2, b3, b4, b5, b6, b7; reflexivity.
Qed.

Lemma lower_twice (s : string) : lower (lower s) = lower s.
Proof.
  induction s as [|c s IH]; simpl; [reflexivity|].
  now rewrite lower_ascii_twice, IH.
Qed.

Lemma contains_slash_lower (s : string) :
  contains "/" (lower s) = contains "/" s.
Proof.
  induction s as [|c s IH]; [reflexivity|].
  change (lower (String c s)) with (String (lower_ascii c) (lower s)).
  now rewrite !contains_slash_cons, lower_ascii_slash, IH.
Qed.

Lemma basename_lower (s : string) : basename (lower s) = lower (basename s).
Proof.
  induction s as [|c s IH]; [reflexivity|].
  change (lower (String c s)) with (String (lower_ascii c) (lower s)).
  unfold basename; fold basename.
  change (String (lower_ascii c) (lower s)) with (lower (String c s)).
  rewrite contains_slash_lower.
  destruct (contains "/" (String c s)); [exact IH|reflexivity].
Qed.

(** X2.  The category of a file does not depend on the case of its
    letters. *)
Theorem category_ignores_case (yaml_path : string) :
  is_insurance_related_file (lower yaml_path)
  = is_insurance_related_file yaml_path.
Proof.
  unfold is_insurance_related_file.
  now rewrite basename_lower, lower_twice.
Qed.

(** ** The rule of a flattened field *)

(** X3.  The rule written for a flattened amount field has the type and
    the size the classifier gives its sub-field, in a restricted document
    or not, and never enum values: the enum of the sub-field is lost.  A
    field of unit is written as a string of the size given. *)
Theorem flattened_rule (ins : bool) (required_fields sub_data t sz : json)
    (sub_field field_name : string) (listed : bool) :
  extract_field_type sub_data = Ok t ->
  calculate_field_size sub_field sub_data = Ok sz ->
  py_in field_name required_fields = Ok listed ->
  rule_of_property ins required_fields field_name
    (JDict [("type", t); ("maxLength", sz)])
  = Ok (Some (mk_rule t sz listed None)) /\
  rule_of_property ins required_fields field_name
    (JDict [("type", JStr "string"); ("maxLength", sz)])
  = Ok (Some (mk_rule (JStr "string") sz listed None)).
Proof.
  intros Ht Hs Hl.
  assert (Hunit :
    rule_of_property ins required_fields field_name
      (JDict [("type", JStr "string"); ("maxLength", sz)])
    = Ok (Some (mk_rule (JStr "string") sz listed None))).
  { unfold rule_of_property. destruct ins; simpl; now rewrite Hl. }
  split; [|exact Hunit].
  unfold calculate_field_size in Hs. rewrite Ht in Hs. simpl in Hs.
  unfold rule_of_property.
  assert (Hf : foreign_reference ins (JDict [("type", t); ("maxLength", sz)])
               = Ok false) by (destruct ins; reflexivity).
  assert (Ha : array_of_references ins
                 (JDict [("type", t); ("maxLength", sz)]) = Ok false).
  { destruct ins; [|reflexivity]. unfold array_of_references. simpl.
    now destruct (is_str "array" t). }
  rewrite Hf, Ha, extract_field_type_dict, calculate_field_size_dict.
  unfold effective_type. simpl.
  destruct (is_str "string" t).
  - simpl. now rewrite Hl.
  - destruct (is_str "number" t || is_str "integer" t);
      injection Hs as <-; simpl; now rewrite Hl.
Qed.

Lemma flattened_rule_witness :
  rule_of_property true (JList [JStr "amount_value"]) "amount_value"
    (JDict [("type", JStr "number"); ("maxLength", JInt 10)])
  = Ok (Some (mk_rule (JStr "number") (JInt 10) true None)).
Proof.
  exact (proj1 (flattened_rule true (JList [JStr "amount_value"])
                  (JDict [("type", JStr "number"); ("enum", JList [JInt 5])])
                  (JStr "number") (JInt 10) "value" "amount_value" true
                  eq_refl eq_refl eq_refl)).
Defined.

(** ** The body of a rule *)

Lemma existsb_is_str (name : string) (l : list json) :
  existsb (is_str name) l = true <-> In (JStr name) l.
Proof.
  rewrite existsb_exists. split.
  - intros (x & Hin & Hx). destruct x; try discriminate. simpl in Hx.
    apply String.eqb_eq in Hx. now subst.
  - intros H. exists (JStr name). split; [exact H|]. simpl.
    apply String.eqb_refl.
Qed.

(** X4.  An emitted rule carries the type of the fragment and its enum
    when that is not empty; it is required exactly when the name of the
    property is an element of the required list.  When required is written
    as a string the test is one of substring. *)
Theorem emitted_rule_body (ins : bool) (required_fields : json)
    (prop_name : string) (d : dict) (r : rule_config) :
  rule_of_property ins required_fields prop_name (JDict d) = Ok (Some r) ->
  rule_type r = effective_type d /\
  rule_enum_values r
  = match dict_get "enum" d with
    | Some enum => if truthy enum then Some enum else None
    | None => None
    end /\
  (forall l, required_fields = JList l ->
     (rule_required r = true <-> In (JStr prop_name) l)) /\
  (forall s, required_fields = JStr s ->
     rule_required r = contains prop_name s).
Proof.
  unfold rule_of_property. intros H.
  destruct (foreign_reference ins (JDict d)) as [[|]|]; simpl in H;
    try discriminate.
  destruct (array_of_references ins (JDict d)) as [[|]|]; simpl in H;
    try discriminate.
  { destruct (dict_get "items" d) as [items|]; simpl in H; [|discriminate].
    destruct (py_getitem items "$ref") as [ref|]; simpl in H; [|discriminate].
    destruct (py_split_last ref); simpl in H; discriminate. }
  rewrite extract_field_type_dict in H. simpl in H.
  destruct (calculate_field_size prop_name (JDict d)) as [sz|]; simpl in H;
    [|discriminate].
  destruct (py_in prop_name required_fields) as [rq|] eqn:Er;
    [|destruct (dict_get "enum" d); discriminate].
  assert (Hr : r = mk_rule (effective_type d) sz rq
                     match dict_get "enum" d with
                     | Some enum => if truthy enum then Some enum else None
                     | None => None
                     end).
  { destruct (dict_get "enum" d); simpl in H; injection H as <-;
      reflexivity. }
  subst r. simpl. split; [reflexivity|]. split; [reflexivity|]. split.
  - intros l ->. simpl in Er. injection Er as <-. apply existsb_is_str.
  - intros s ->. simpl in Er. congruence.
Qed.

Lemma emitted_rule_body_witness :
  rule_required
    (mk_rule (JStr "string") (JInt 100) true None)
  = contains "policyId" "policyIdentifier".
Proof.
  destruct (emitted_rule_body false (JStr "policyIdentifier") "policyId"
              [("type", JStr "string")]
              (mk_rule (JStr "string") (JInt 100) true None) eq_refl)
    as (_ & _ & _ & H).
  exact (H "policyIdentifier" eq_refl).
Defined.

(** ** Exceptions of the size classifier *)

(** X5.  On a mapping the size classifier raises in one case only: a
    string field without maxLength whose enum is neither empty nor
    something to iterate over, a number or true. *)
Theorem calculate_field_size_raises (field_name : string) (d : dict)
    (e : exn) :
  calculate_field_size field_name (JDict d) = Raise e <->
  is_str "string" (effective_type d) = true /\
  dict_get "maxLength" d = None /\
  exists enum, dict_get "enum" d = Some enum /\ truthy enum = true /\
    py_iter enum = Raise e.
Proof.
  rewrite calculate_field_size_dict.
  destruct (is_str "string" (effective_type d)).
  - destruct (dict_get "maxLength" d) as [m|].
    + split; [discriminate|]. intros (_ & H & _). discriminate.
    + destruct (dict_get "enum" d) as [enum|].
      * destruct (truthy enum) eqn:Et.
        -- destruct (py_iter enum) as [es|e'] eqn:Ei; simpl.
           ++ split; [discriminate|].
              intros (_ & _ & en & [= <-] & _ & H). congruence.
           ++ split.
              ** intros [= ->]. eauto 6.
              ** intros (_ & _ & en & [= <-] & _ & H). congruence.
        -- split; [discriminate|].
           intros (_ & _ & en & [= <-] & H & _). congruence.
      * split; [discriminate|]. intros (_ & _ & en & H & _). discriminate.
  - split.
    + destruct (is_str "number" (effective_type d)
                || is_str "integer" (effective_type d)); discriminate.
    + intros (H & _). discriminate.
Qed.

Lemma calculate_field_size_raises_witness :
  calculate_field_size "kind" (JDict [("enum", JInt 5)]) = Raise TypeError.
Proof.
  apply (calculate_field_size_raises "kind" [("enum", JInt 5)] TypeError).
  repeat split. exists (JInt 5). repeat split.
Defined.

(** ** Properties of a document that is not restricted *)

(** X6.  In a document that is not restricted no property is suppressed:
    every mapping whose enum, if any, is a list yields a rule; a fragment
    that holds only a reference to another schema yields a string rule of
    size 100. *)
Theorem unrestricted_property_emits (required : list json) (prop_name : string)
    (d : dict) :
  match dict_get "enum" d with
  | Some (JList _) | None => true
  | _ => false
  end = true ->
  (exists r,
     rule_of_property false (JList required) prop_name (JDict d)
     = Ok (Some r)) /\
  (dict_get "type" d = None -> dict_get "maxLength" d = None ->
   dict_get "enum" d = None ->
   rule_of_property false (JList required) prop_name (JDict d)
   = Ok (Some (mk_rule (JStr "string") (JInt 100)
                 (existsb (is_str prop_name) required) None))).
Proof.
  intros He. unfold rule_of_property.
  rewrite extract_field_type_dict, calculate_field_size_dict.
  cbn [foreign_reference array_of_references bind].
  split.
  - assert (Hsz : exists sz,
      (if is_str "string" (effective_type d) then
         match dict_get "maxLength" d with
         | Some m => Ok m
         | None =>
             match dict_get "enum" d with
             | Some enum =>
                 if truthy enum then
                   let* es := py_iter enum in
                   Ok (JInt (Z.of_nat (max_list (map str_len es))))
                 else Ok (JInt 0)
             | None => Ok (JInt 100)
             end
         end
       else if is_str "number" (effective_type d)
               || is_str "integer" (effective_type d)
       then Ok (JInt 10) else Ok (JInt 1)) = Ok sz).
    { destruct (is_str "string" (effective_type d)).
      - destruct (dict_get "maxLength" d); [eauto|].
        destruct (dict_get "enum" d) as [[| | | | |l|]|]; try discriminate;
          [|eauto].
        destruct (truthy (JList l)); simpl; eauto.
      - destruct (is_str "number" (effective_type d)
                  || is_str "integer" (effective_type d)); eauto. }
    destruct Hsz as [sz ->]. simpl.
    destruct (dict_get "enum" d); simpl; eauto.
  - intros Ht Hm Hen. unfold effective_type. rewrite Ht, Hm, Hen. simpl.
    now rewrite Hen.
Qed.

Lemma unrestricted_property_emits_witness :
  rule_of_property false (JList []) "owner" (JDict [("$ref", JStr "#/Owner")])
  = Ok (Some (mk_rule (JStr "string") (JInt 100) false None)).
Proof.
  destruct (unrestricted_property_emits [] "owner" [("$ref", JStr "#/Owner")]
              eq_refl) as [_ H].
  exact (H eq_refl eq_refl eq_refl).
Defined.

(** ** The loop over the properties, once more *)

Lemma process_property_none (ins : bool) (required_fields : json)
    (conjunto_id : nat) (session : Session) (count : nat)
    (prop_name : string) (prop_data : json) :
  (forall r, rule_of_property ins required_fields prop_name prop_data
             <> Ok (Some r)) ->
  process_property ins required_fields conjunto_id (session, count)
    (prop_name, prop_data) = (session, count).
Proof.
  intros H. unfold process_property.
  destruct (rule_of_property ins required_fields prop_name prop_data)
    as [[r|]|]; [|reflexivity|reflexivity].
  now destruct (H r).
Qed.

(** X7.  A property that is skipped, or whose classification raises,
    leaves no trace: the session and the count after the loop are those of
    the loop over the properties that yield a rule, which are all
    processed. *)
Theorem skipped_properties_leave_no_trace (ins : bool)
    (required_fields : json) (conjunto_id : nat) (items : dict)
    (session : Session) (count : nat) :
  fold_left (process_property ins required_fields conjunto_id) items
    (session, count)
  = fold_left (process_property ins required_fields conjunto_id)
      (filter (emits ins required_fields) items) (session, count).
Proof.
  revert session count.
  induction items as [|[prop_name prop_data] items IH]; intros session count;
    [reflexivity|].
  cbn [filter]. unfold emits at 1. cbn [fst snd].
  destruct (rule_of_property ins required_fields prop_name prop_data)
    as [[r|]|] eqn:E; cbn [fold_left].
  - rewrite !(process_property_emit _ _ _ _ _ _ _ _ E). apply IH.
  - rewrite process_property_none by (intros r; congruence). apply IH.
  - rewrite process_property_none by (intros r; congruence). apply IH.
Qed.

Lemma find_regra_upsert_kept (s : Session) (cid c : nat) (k name : string)
    (r0 r : rule_config) :
  find_regra s c k = Some r0 ->
  exists r', find_regra (snd (upsert_regra_validacao s cid name r)) c k
             = Some r'.
Proof.
  intros H. destruct (regra_eqb (cid, name) (c, k)) eqn:E.
  - apply regra_eqb_eq in E. injection E as <- <-.
    exists r. apply find_regra_upsert_same.
  - exists r0. rewrite find_regra_upsert_other; [exact H|].
    intros Heq. apply regra_eqb_eq in Heq. congruence.
Qed.

Lemma process_properties_frame (ins : bool) (required_fields : json)
    (cid : nat) (items : dict) (s : Session) (n : nat) :
  let s' := fst (fold_left (process_property ins required_fields cid) items
                   (s, n)) in
  (forall c k, c <> cid -> find_regra s' c k = find_regra s c k) /\
  (forall c k r, find_regra s c k = Some r ->
     exists r', find_regra s' c k = Some r').
Proof.
  revert s n. induction items as [|[prop_name prop_data] items IH];
    intros s n; [simpl; eauto|].
  cbn [fold_left]. unfold process_property at 2 4.
  destruct (rule_of_property ins required_fields prop_name prop_data)
    as [[r|]|]; try apply IH.
  change (let (_, session) := upsert_regra_validacao s cid prop_name r in
          (session, n + 1))
    with (snd (upsert_regra_validacao s cid prop_name r), n + 1).
  destruct (IH (snd (upsert_regra_validacao s cid prop_name r)) (n + 1))
    as [H1 H2].
  split.
  - intros c k Hc. rewrite H1 by exact Hc.
    apply find_regra_upsert_other. congruence.
  - intros c k r0 Hf.
    destruct (find_regra_upsert_kept s cid c k prop_name r0 r Hf) as [r1 Hr1].
    eauto.
Qed.

(** X8.  Rule derivation for a schema writes rules of its own dataset
    only: groups and datasets are as before, the rules of every other
    dataset are as before, and no rule that was there is lost. *)
Theorem process_schema_fields_frame (session : Session)
    (schema_name : string) (schema_data : json) (conjunto_id : nat)
    (ins : bool) :
  let session' :=
    fst (process_schema_fields session schema_name schema_data conjunto_id
           ins) in
  grupos session' = grupos session /\
  conjuntos session' = conjuntos session /\
  (forall c k, c <> conjunto_id ->
     find_regra session' c k = find_regra session c k) /\
  (forall c k r, find_regra session c k = Some r ->
     exists r', find_regra session' c k = Some r').
Proof.
  unfold process_schema_fields.
  destruct (schema_properties schema_data) as [[required_fields items]|];
    [|simpl; eauto 6].
  pose proof (process_properties_tables ins required_fields conjunto_id items
                session 0) as Ht.
  pose proof (process_properties_frame ins required_fields conjunto_id items
                session 0) as Hf.
  destruct (fold_left _ items (session, 0)) as [s' n].
  simpl in *. destruct Ht, Hf. auto.
Qed.

Lemma process_schema_fields_frame_witness :
  find_regra
    (fst (process_schema_fields
            (mk_session ["auto"] [("Claim", 1); ("Policy", 1)]
               [((1, "id"), mk_rule (JStr "string") (JInt 36) true None)])
            "Policy"
            (JDict [("properties", JDict [("id", JDict [("type", JStr "integer")])])])
            2 false)) 1 "id"
  = Some (mk_rule (JStr "string") (JInt 36) true None).
Proof.
  destruct (process_schema_fields_frame
              (mk_session ["auto"] [("Claim", 1); ("Policy", 1)]
                 [((1, "id"), mk_rule (JStr "string") (JInt 36) true None)])
              "Policy"
              (JDict [("properties",
                       JDict [("id", JDict [("type", JStr "integer")])])])
              2 false) as (_ & _ & H & _).
  rewrite (H 1 "id"); [reflexivity|discriminate].
Defined.

(** ** The keys of the flattened properties *)

Lemma dict_mem_in (k : string) (d : dict) :
  dict_mem k d = true <-> In k (map fst d).
Proof.
  unfold dict_mem. induction d as [|[k' v] d IH]; simpl.
  - split; [discriminate|tauto].
  - destruct (String.eqb k' k) eqn:E.
    + apply String.eqb_eq in E. tauto.
    + apply String.eqb_neq in E. rewrite IH. tauto.
Qed.

Lemma dict_set_keys (k : string) (v : json) (d : dict) :
  map fst (dict_set k v d)
  = if dict_mem k d then map fst d else map fst d ++ [k].
Proof.
  unfold dict_mem. induction d as [|[k' v'] d IH]; simpl; [reflexivity|].
  destruct (String.eqb k' k) eqn:E; simpl; [reflexivity|].
  rewrite IH. now destruct (dict_get k d).
Qed.

Lemma keeps_keys_same (a : json) : keeps_keys a a.
Proof. intros da ->. exists da. auto using begins_same. Qed.

Lemma keeps_keys_trans (a b c : json) :
  keeps_keys a b -> keeps_keys b c -> keeps_keys a c.
Proof.
  intros Hab Hbc da Ha. destruct (Hab da Ha) as (db & Hb & H1 & H2).
  destruct (Hbc db Hb) as (dc & Hc & H3 & H4).
  exists dc. split; [exact Hc|]. split; [|auto].
  eapply begins_trans; eassumption.
Qed.

Lemma setitem_keeps_keys (pp : json) (k : string) (v pp' : json) :
  py_setitem pp k v = Ok pp' -> keeps_keys pp pp'.
Proof.
  intros H da ->. simpl in H. injection H as <-.
  exists (dict_set k v da). split; [reflexivity|].
  rewrite dict_set_keys. destruct (dict_mem k da) eqn:E.
  - split; [apply begins_same|auto].
  - split; [now exists [k]|].
    intros Hnd. apply NoDup_app; [exact Hnd|repeat constructor; auto|].
    intros x Hx [<-|[]].
    apply dict_mem_in in Hx. congruence.
Qed.

Section FlattenInvariant.
Variable R : json -> json -> Prop.
Hypothesis R_same : forall a, R a a.
Hypothesis R_trans : forall a b c, R a b -> R b c -> R a c.
Hypothesis R_set : forall pp k v pp', py_setitem pp k v = Ok pp' -> R pp pp'.

Lemma flatten_unit_keeps (pp : json) (x : string * json) (pp' : json) :
  flatten_unit pp x = Ok pp' -> R pp pp'.
Proof.
  destruct x as [unit_field unit_data]. unfold flatten_unit.
  destruct (calculate_field_size unit_field unit_data); simpl;
    [apply R_set|discriminate].
Qed.

Lemma flatten_amount_keeps (pp : json) (x : string * json) (pp' : json) :
  flatten_amount pp x = Ok pp' -> R pp pp'.
Proof.
  destruct x as [sub_field sub_data]. unfold flatten_amount.
  destruct (calculate_field_size sub_field sub_data); simpl; [|discriminate].
  destruct (extract_field_type sub_data); simpl; [|discriminate].
  destruct (py_setitem pp _ _) as [pp1|] eqn:E1; simpl; [|discriminate].
  apply R_set in E1.
  destruct (named_with_properties "unit" sub_field sub_data) as [[|]|];
    simpl; try discriminate.
  - destruct (py_get sub_data "properties" (JDict [])) as [up|]; simpl;
      [|discriminate].
    destruct (py_items up) as [its|]; simpl; [|discriminate].
    intros H. apply R_trans with pp1; [exact E1|]. revert H.
    apply (foldM_preserves R flatten_unit R_same R_trans flatten_unit_keeps).
  - intros [= <-]. exact E1.
Qed.

Lemma flatten_property_keeps (pp : json) (x : string * json) (pp' : json) :
  flatten_property pp x = Ok pp' -> R pp pp'.
Proof.
  destruct x as [prop_name prop_data]. unfold flatten_property.
  destruct (named_with_properties "amount" prop_name prop_data) as [[|]|];
    simpl; try discriminate.
  - destruct (py_get prop_data "properties" (JDict [])) as [ap|]; simpl;
      [|discriminate].
    destruct (py_items ap) as [its|]; simpl; [|discriminate].
    apply (foldM_preserves R flatten_amount R_same R_trans
             flatten_amount_keeps).
  - intros [= <-]. apply R_same.
Qed.

Lemma flatten_item_keeps (pp item pp' : json) :
  flatten_item pp item = Ok pp' -> R pp pp'.
Proof.
  unfold flatten_item.
  destruct (refers_to_amount_details item) as [[|]|]; simpl;
    try discriminate.
  - destruct (py_in "properties" item) as [[|]|]; simpl; try discriminate.
    + destruct (py_get item "properties" (JDict [])) as [rp|]; simpl;
        [|discriminate].
      destruct (py_items rp) as [its|]; simpl; [|discriminate].
      apply (foldM_preserves R flatten_property R_same R_trans
               flatten_property_keeps).
    + intros [= <-]. apply R_same.
  - intros [= <-]. apply R_same.
Qed.

Lemma flatten_all_of_keeps (properties all_of pp : json) :
  flatten_all_of properties all_of = Ok pp -> R properties pp.
Proof.
  unfold flatten_all_of.
  destruct (py_copy properties) as [copy|] eqn:Ec; simpl; [|discriminate].
  assert (copy = properties) as ->.
  { destruct properties; simpl in Ec; congruence. }
  destruct (truthy all_of).
  - destruct (py_iter all_of) as [items|]; simpl; [|discriminate].
    apply (foldM_preserves R flatten_item R_same R_trans flatten_item_keeps).
  - intros [= <-]. apply R_same.
Qed.
End FlattenInvariant.

(** X9.  Flattening keeps the declared properties where they are, in
    their order: the synthetic properties that are new come after them, and
    no name comes twice. *)
Theorem flatten_all_of_keys (properties : dict) (all_of pp : json) :
  flatten_all_of (JDict properties) all_of = Ok pp ->
  exists processed, pp = JDict processed /\
    begins (map fst properties) (map fst processed) /\
    (NoDup (map fst properties) -> NoDup (map fst processed)).
Proof.
  intros H.
  exact (flatten_all_of_keeps keeps_keys keeps_keys_same keeps_keys_trans
           setitem_keeps_keys _ _ _ H properties eq_refl).
Qed.

Lemma flatten_all_of_keys_witness :
  exists processed,
    Ok (JDict [("id", JDict [("type", JStr "string")]);
               ("amount_value",
                JDict [("type", JStr "number"); ("maxLength", JInt 10)])])
    = Ok (JDict processed) /\
    begins ["id"] (map fst processed).
Proof.
  destruct (flatten_all_of_keys [("id", JDict [("type", JStr "string")])]
              (JList [amount_details_v2])
              (JDict [("id", JDict [("type", JStr "string")]);
                      ("amount_value",
                       JDict [("type", JStr "number");
                              ("maxLength", JInt 10)])])
              eq_refl) as (processed & E & Hb & _).
  exists processed. split; [now rewrite E|exact Hb].
Defined.

(** ** Finding the rules of a schema *)

Lemma process_properties_other_names (ins : bool) (required_fields : json)
    (cid : nat) (name : string) (items : dict) (s : Session) (n : nat) :
  ~ In name (map fst items) ->
  find_regra
    (fst (fold_left (process_property ins required_fields cid) items (s, n)))
    cid name
  = find_regra s cid name.
Proof.
  revert s n. induction items as [|[prop_name prop_data] items IH];
    intros s n Hn; [reflexivity|].
  simpl in Hn. cbn [fold_left].
  destruct (rule_of_property ins required_fields prop_name prop_data)
    as [[r|]|] eqn:E.
  - rewrite (process_property_emit _ _ _ _ _ _ _ _ E).
    rewrite IH by tauto. apply find_regra_upsert_other.
    intros [= ->]. tauto.
  - rewrite process_property_none by (intros r; congruence).
    apply IH. tauto.
  - rewrite process_property_none by (intros r; congruence).
    apply IH. tauto.
Qed.

Lemma process_properties_lookup (ins : bool) (required_fields : json)
    (cid : nat) (items : dict) (s : Session) (n : nat)
    (prop_name : string) (prop_data : json) (r : rule_config) :
  NoDup (map fst items) ->
  In (prop_name, prop_data) items ->
  rule_of_property ins required_fields prop_name prop_data = Ok (Some r) ->
  find_regra
    (fst (fold_left (process_property ins required_fields cid) items (s, n)))
    cid prop_name
  = Some r.
Proof.
  revert s n. induction items as [|[k0 d0] items IH]; intros s n Hnd Hin Hr;
    [destruct Hin|].
  simpl in Hnd. inversion Hnd as [|? ? Hnotin Hnd']; subst.
  cbn [fold_left]. destruct Hin as [[= -> ->]|Hin].
  - rewrite (process_property_emit _ _ _ _ _ _ _ _ Hr).
    rewrite process_properties_other_names by exact Hnotin.
    apply find_regra_upsert_same.
  - destruct (process_property ins required_fields cid (s, n) (k0, d0))
      as [s1 n1].
    now apply IH.
Qed.

Lemma schema_properties_dict (d : dict) :
  schema_properties (JDict d) =
  let* processed_properties :=
    flatten_all_of
      (match dict_get "properties" d with Some p => p | None => JDict [] end)
      (match dict_get "allOf" d with Some a => a | None => JList [] end) in
  let* items := py_items processed_properties in
  Ok (match dict_get "required" d with Some r => r | None => JList [] end,
      items).
Proof.
  unfold schema_properties. simpl.
  destruct (dict_get "required" d), (dict_get "properties" d),
    (dict_get "allOf" d); reflexivity.
Qed.

(** X10.  After rule derivation for a schema whose properties have no
    name twice, the rule of every property that yields one is found in the
    session under the dataset and the name of the property, with the body
    derived for it. *)
Theorem process_schema_fields_lookup (session : Session)
    (schema_name : string) (d properties : dict) (conjunto_id : nat)
    (ins : bool) (required_fields : json) (items : dict)
    (prop_name : string) (prop_data : json) (r : rule_config) :
  dict_get "properties" d = Some (JDict properties) ->
  NoDup (map fst properties) ->
  schema_properties (JDict d) = Ok (required_fields, items) ->
  In (prop_name, prop_data) items ->
  rule_of_property ins required_fields prop_name prop_data = Ok (Some r) ->
  find_regra
    (fst (process_schema_fields session schema_name (JDict d) conjunto_id
            ins)) conjunto_id prop_name
  = Some r.
Proof.
  intros Hp Hnd Hs Hin Hr.
  assert (Hitems : NoDup (map fst items)).
  { rewrite schema_properties_dict, Hp in Hs.
    destruct (flatten_all_of (JDict properties) _) as [pp|] eqn:Ef;
      simpl in Hs; [|discriminate].
    destruct (flatten_all_of_keeps keeps_keys keeps_keys_same
                keeps_keys_trans setitem_keeps_keys _ _ _ Ef
                properties eq_refl) as (processed & -> & _ & Hn).
    simpl in Hs. injection Hs as _ <-. auto. }
  unfold process_schema_fields. rewrite Hs.
  pose proof (process_properties_lookup ins required_fields conjunto_id items
                session 0 prop_name prop_data r Hitems Hin Hr) as H.
  now destruct (fold_left _ items (session, 0)).
Qed.

Lemma process_schema_fields_lookup_witness :
  find_regra
    (fst (process_schema_fields empty_session "Resource"
            (JDict [("properties",
                     JDict [("name", JDict [("type", JStr "string");
                                            ("maxLength", JInt 50)]);
                            ("owner", JDict [("$ref", JStr "#/Owner")])])])
            1 true)) 1 "name"
  = Some (mk_rule (JStr "string") (JInt 50) false None).
Proof.
  apply (process_schema_fields_lookup empty_session "Resource"
           [("properties",
             JDict [("name", JDict [("type", JStr "string");
                                    ("maxLength", JInt 50)]);
                    ("owner", JDict [("$ref", JStr "#/Owner")])])]
           [("name", JDict [("type", JStr "string"); ("maxLength", JInt 50)]);
            ("owner", JDict [("$ref", JStr "#/Owner")])]
           1 true (JList [])
           [("name", JDict [("type", JStr "string"); ("maxLength", JInt 50)]);
            ("owner", JDict [("$ref", JStr "#/Owner")])]
           "name" (JDict [("type", JStr "string"); ("maxLength", JInt 50)])).
  - reflexivity.
  - repeat constructor; simpl; intuition discriminate.
  - reflexivity.
  - left. reflexivity.
  - reflexivity.
Defined.

(** ** What flattening takes from a composed element *)

Lemma flatten_properties_no_amount (rp : dict) (pp : json) :
  Forall (fun p => fst p = "amount" ->
            exists a, snd p = JDict a /\ dict_mem "properties" a = false) rp ->
  foldM flatten_property rp pp = Ok pp.
Proof.
  induction 1 as [|[k v] rp Hk _ IH]; [reflexivity|].
  cbn [foldM]. unfold flatten_property at 1, named_with_properties.
  destruct (String.eqb k "amount") eqn:E.
  - apply String.eqb_eq in E. destruct (Hk E) as (a & Ha & Hm).
    simpl in Ha. subst v. simpl. rewrite Hm. exact IH.
  - exact IH.
Qed.

(** X11.  Of a composed element only the property named amount is
    inlined, and only when it has properties of its own: the other
    properties of the element, and an amount that is a plain field, give
    nothing. *)
Theorem only_nested_amount_is_inlined (pp : json) (item ref_properties : dict) :
  well_formed_element (JDict item) = true ->
  dict_get "properties" item = Some (JDict ref_properties) ->
  Forall (fun p => fst p = "amount" ->
            exists a, snd p = JDict a /\ dict_mem "properties" a = false)
    ref_properties ->
  flatten_item pp (JDict item) = Ok pp.
Proof.
  intros Hw Hp Hall.
  destruct (qualifies (JDict item)) eqn:Q;
    [|now apply flatten_item_skip].
  unfold qualifies in Q. unfold flatten_item.
  destruct (refers_to_amount_details (JDict item)) as [[|]|];
    try discriminate.
  destruct (py_in "properties" (JDict item)) as [[|]|]; try discriminate.
  simpl. rewrite Hp. simpl.
  now apply flatten_properties_no_amount.
Qed.

Lemma only_nested_amount_is_inlined_witness :
  flatten_item (JDict [])
    (JDict [("$ref", JStr "#/components/schemas/AmountDetails");
            ("properties",
             JDict [("amount", JDict [("type", JStr "number")]);
                    ("currency", JDict [("type", JStr "string")])])])
  = Ok (JDict []).
Proof.
  apply (only_nested_amount_is_inlined (JDict [])
           [("$ref", JStr "#/components/schemas/AmountDetails");
            ("properties",
             JDict [("amount", JDict [("type", JStr "number")]);
                    ("currency", JDict [("type", JStr "string")])])]
           [("amount", JDict [("type", JStr "number")]);
            ("currency", JDict [("type", JStr "string")])]).
  - reflexivity.
  - reflexivity.
  - repeat constructor; simpl.
    + intros _. exists [("type", JStr "number")]. split; reflexivity.
    + discriminate.
Defined.

(** ** What a run leaves in the store *)

Lemma begins_in {A : Type} (x : A) (l t : list A) :
  begins l t -> In x l -> In x t.
Proof. intros [r ->] H. apply in_or_app. now left. Qed.

Lemma rank_in {K : Type} (eqb : K -> K -> bool)
    (eqb_eq : forall a b, eqb a b = true <-> a = b) (k : K) (l : list K)
    (i : nat) :
  rank eqb k l = Some i -> In k l.
Proof.
  revert i. induction l as [|k' l IH]; simpl; intros i; [discriminate|].
  destruct (eqb k' k) eqn:E.
  - apply eqb_eq in E. auto.
  - destruct (rank eqb k l) as [j|]; [|discriminate]. eauto.
Qed.

Lemma reuse_has {K : Type} (eqb : K -> K -> bool)
    (eqb_eq : forall a b, eqb a b = true <-> a = b) (k : K) (l : list K) :
  In k (snd (reuse eqb k l)).
Proof.
  unfold reuse. destruct (rank eqb k l) as [i|] eqn:E; simpl.
  - exact (rank_in eqb eqb_eq k l i E).
  - apply in_or_app. right. now left.
Qed.

Lemma within_process_yaml_to_db
    (extract_schemas_from_yaml : string -> res json)
    (get_api_name_from_yaml : string -> res (option string))
    (yaml_path api_name : string) (session : Session) :
  within session
    (fst (process_yaml_to_db extract_schemas_from_yaml
            get_api_name_from_yaml yaml_path api_name session)).
Proof.
  unfold process_yaml_to_db, process_yaml_to_db_doc.
  destruct (extract_schemas_from_yaml yaml_path) as [schemas|];
    [|apply within_same].
  destruct (truthy schemas); simpl; [|apply within_same].
  pose proof (within_process_loaded get_api_name_from_yaml schemas yaml_path
                api_name session) as H.
  now destruct (process_loaded get_api_name_from_yaml schemas yaml_path
                  api_name session) as [[d s] b].
Qed.

(** X12.  A run only adds to the store, whatever it returns: the groups,
    the datasets and the rules that were there stay, at their rank, and
    every rule found before the run is found after it. *)
Theorem run_only_adds
    (extract_schemas_from_yaml : string -> res json)
    (get_api_name_from_yaml : string -> res (option string))
    (yaml_path api_name : string) (session : Session) :
  let session' :=
    fst (process_yaml_to_db extract_schemas_from_yaml
           get_api_name_from_yaml yaml_path api_name session) in
  begins (grupos session) (grupos session') /\
  begins (conjuntos session) (conjuntos session') /\
  begins (map fst (regras session)) (map fst (regras session')) /\
  (forall c k, In (c, k) (map fst (regras session)) ->
     In (c, k) (map fst (regras session'))).
Proof.
  destruct (within_process_yaml_to_db extract_schemas_from_yaml
              get_api_name_from_yaml yaml_path api_name session)
    as (Hg & Hc & Hr).
  repeat split; try assumption.
  intros c k. now apply begins_in.
Qed.

(** The name of the group: the one the document gives, if it gives one
    that is not empty, else the one of the caller. *)
Lemma process_loaded_group
    (get_api_name_from_yaml : string -> res (option string))
    (schemas : json) (yaml_path api_name : string) (session : Session)
    (name : option string) :
  get_api_name_from_yaml yaml_path = Ok name ->
  In (match name with
      | Some n => if String.eqb n EmptyString then api_name else n
      | None => api_name
      end)
    (grupos (snd (fst (process_loaded get_api_name_from_yaml schemas
                         yaml_path api_name session)))).
Proof.
  intros Hn. unfold process_loaded. rewrite Hn.
  set (grupo_nome := match name with
                     | Some n => if String.eqb n EmptyString then api_name
                                 else n
                     | None => api_name
                     end).
  pose proof (reuse_has String.eqb String.eqb_eq grupo_nome (grupos session))
    as Hin.
  rewrite upsert_grupo_unfold.
  destruct (py_items schemas) as [items|]; simpl; [|exact Hin].
  destruct (within_process_schemas items
              (fst (reuse String.eqb grupo_nome (grupos session)))
              (is_insurance_related_file yaml_path)
              (mk_session (snd (reuse String.eqb grupo_nome (grupos session)))
                 (conjuntos session) (regras session)) []) as (Hg & _).
  eapply begins_in; [exact Hg|exact Hin].
Qed.

(** X13.  Once the loader has given schemas and a name, the group is in
    the store after the run, whether the run returns true or false: under
    the name the document gives, if it is not empty, else under the name
    of the caller. *)
Theorem group_is_upserted
    (extract_schemas_from_yaml : string -> res json)
    (get_api_name_from_yaml : string -> res (option string))
    (yaml_path api_name : string) (session : Session)
    (schemas : json) (name : option string) :
  extract_schemas_from_yaml yaml_path = Ok schemas ->
  truthy schemas = true ->
  get_api_name_from_yaml yaml_path = Ok name ->
  In (match name with
      | Some n => if String.eqb n EmptyString then api_name else n
      | None => api_name
      end)
    (grupos (fst (process_yaml_to_db extract_schemas_from_yaml
                    get_api_name_from_yaml yaml_path api_name session))).
Proof.
  intros He Ht Hn. unfold process_yaml_to_db, process_yaml_to_db_doc.
  rewrite He, Ht. simpl.
  pose proof (process_loaded_group get_api_name_from_yaml schemas yaml_path
                api_name session name Hn) as H.
  now destruct (process_loaded get_api_name_from_yaml schemas yaml_path
                  api_name session) as [[d s] b].
Qed.

Lemma group_is_upserted_witness :
  In "payments"
    (grupos (fst (process_yaml_to_db (fun _ => Ok (JList [JInt 1]))
                    (fun _ => Ok (Some EmptyString)) "apis/payments.yaml"
                    "payments" empty_session))).
Proof.
  exact (group_is_upserted (fun _ => Ok (JList [JInt 1]))
           (fun _ => Ok (Some EmptyString)) "apis/payments.yaml" "payments"
           empty_session (JList [JInt 1]) (Some EmptyString)
           eq_refl eq_refl eq_refl).
Defined.

Lemma upsert_conjunto_dados_has (session : Session) (nome : string)
    (grupo_id : nat) :
  In (nome, grupo_id)
    (conjuntos (snd (upsert_conjunto_dados session nome grupo_id))).
Proof.
  rewrite upsert_conjunto_dados_unfold. simpl.
  apply (reuse_has conjunto_eqb conjunto_eqb_eq).
Qed.

Lemma process_schemas_datasets (ins : bool) (grupo_id : nat) (items : dict)
    (session : Session) (acc l : list string)
    (schema_name : string) (schema_data : json) :
  out_result (process_schemas items grupo_id ins session acc) = Ok l ->
  In (schema_name, schema_data) items ->
  skipped ins schema_name = false ->
  In (schema_name, grupo_id)
    (conjuntos (out_session (process_schemas items grupo_id ins session acc))).
Proof.
  intros Hres Hin Hsk. revert session acc Hres.
  induction items as [|[name0 data0] items IH]; intros session acc Hres;
    [destruct Hin|].
  cbn [process_schemas] in *.
  destruct (String.eqb name0 "AmountDetails" && ins) eqn:Es.
  - cbn [out_session out_result] in *.
    destruct Hin as [[= -> ->]|Hin];
      [unfold skipped in Hsk; congruence|].
    now apply IH.
  - pose proof (upsert_conjunto_dados_has session name0 grupo_id) as Hhas.
    destruct (upsert_conjunto_dados session name0 grupo_id) as [cid a1].
    cbn [snd] in Hhas.
    destruct (if ins then inject_policy_id data0 else (data0, Ok tt))
      as [sd [u|e]]; [|discriminate].
    pose proof (within_process_schema_fields a1 name0 sd cid ins) as Hw1.
    destruct (process_schema_fields a1 name0 sd cid ins) as [a2 [n|e]];
      [|discriminate].
    cbn [fst out_session out_result] in *.
    destruct Hin as [[= -> ->]|Hin]; [|now apply IH].
    pose proof (within_process_schemas items grupo_id ins a2
                  (if (0 <? n)%nat then acc ++ [schema_name] else acc))
      as Hw2.
    destruct Hw1 as (_ & Hc1 & _). destruct Hw2 as (_ & Hc2 & _).
    eapply begins_in; [exact Hc2|]. eapply begins_in; [exact Hc1|].
    exact Hhas.
Qed.

(** X14.  When a run returns true, every schema of the document has its
    dataset in the store, all in one group: the schemas that yielded no
    rule among them, AmountDetails in a restricted document excepted. *)
Theorem datasets_of_processed_document
    (extract_schemas_from_yaml : string -> res json)
    (get_api_name_from_yaml : string -> res (option string))
    (yaml_path api_name : string) (session : Session) (items : dict) :
  extract_schemas_from_yaml yaml_path = Ok (JDict items) ->
  snd (process_yaml_to_db extract_schemas_from_yaml get_api_name_from_yaml
         yaml_path api_name session) = true ->
  exists grupo_id,
    forall schema_name schema_data,
      In (schema_name, schema_data) items ->
      skipped (is_insurance_related_file yaml_path) schema_name = false ->
      In (schema_name, grupo_id)
        (conjuntos (fst (process_yaml_to_db extract_schemas_from_yaml
                           get_api_name_from_yaml yaml_path api_name
                           session))).
Proof.
  intros He. unfold process_yaml_to_db, process_yaml_to_db_doc. rewrite He.
  destruct items as [|entry items]; [discriminate|].
  change (truthy (JDict (entry :: items))) with true. cbv iota.
  cbn [negb]. cbv iota. unfold process_loaded.
  destruct (get_api_name_from_yaml yaml_path) as [name|]; [|discriminate].
  destruct (upsert_grupo session _) as [gid s1].
  cbn [py_items fst snd]. intros Hres. exists gid.
  intros schema_name schema_data Hin Hsk.
  destruct (out_result (process_schemas (entry :: items) gid
                          (is_insurance_related_file yaml_path) s1 []))
    as [l|e] eqn:Er; [|discriminate].
  exact (process_schemas_datasets _ gid (entry :: items) s1 [] l
           schema_name schema_data Er Hin Hsk).
Qed.

Lemma datasets_of_processed_document_witness :
  exists grupo_id,
    In ("Empty", grupo_id)
      (conjuntos
         (fst (process_yaml_to_db
                 (fun _ => Ok (JDict [("Empty", JDict []);
                                      ("Named", JDict [("properties",
                                         JDict [("name", JDict [])])])]))
                 (fun _ => Ok None) "apis/payments.yaml" "payments"
                 empty_session))).
Proof.
  destruct (datasets_of_processed_document
              (fun _ => Ok (JDict [("Empty", JDict []);
                                   ("Named", JDict [("properties",
                                      JDict [("name", JDict [])])])]))
              (fun _ => Ok None) "apis/payments.yaml" "payments"
              empty_session
              [("Empty", JDict []);
               ("Named", JDict [("properties", JDict [("name", JDict [])])])]
              eq_refl eq_refl) as [gid H].
  exists gid. apply (H "Empty" (JDict [])); [now left|reflexivity].
Defined.

(** ** A schema that is not a mapping *)

Lemma schema_outcome_not_mapping (ins : bool) (schema_name : string)
    (schema_data : json) :
  skipped ins schema_name = false ->
  (forall d, schema_data <> JDict d) ->
  schema_outcome ins (schema_name, schema_data) = Raise AttributeError.
Proof.
  intros Hsk Hd. unfold schema_outcome, injected. cbn [fst snd].
  rewrite Hsk.
  destruct schema_data as [| | | | | |d]; try (destruct ins; reflexivity).
  now destruct (Hd d).
Qed.

(** X15.  One schema that is not a mapping makes the whole document
    fail: the run returns false, whatever the other schemas yield. *)
Theorem schema_not_mapping_fails
    (extract_schemas_from_yaml : string -> res json)
    (get_api_name_from_yaml : string -> res (option string))
    (yaml_path api_name : string) (session : Session) (items : dict)
    (name : option string) (schema_name : string) (schema_data : json) :
  extract_schemas_from_yaml yaml_path = Ok (JDict items) ->
  get_api_name_from_yaml yaml_path = Ok name ->
  In (schema_name, schema_data) items ->
  skipped (is_insurance_related_file yaml_path) schema_name = false ->
  (forall d, schema_data <> JDict d) ->
  snd (process_yaml_to_db extract_schemas_from_yaml get_api_name_from_yaml
         yaml_path api_name session) = false.
Proof.
  intros He Hn Hin Hsk Hd.
  unfold process_yaml_to_db, process_yaml_to_db_doc. rewrite He.
  destruct items as [|entry items]; [destruct Hin|].
  change (truthy (JDict (entry :: items))) with true. cbv iota.
  cbn [negb]. cbv iota.
  pose proof (process_loaded_result get_api_name_from_yaml (entry :: items)
                yaml_path api_name session name Hn) as Hr.
  destruct (process_loaded _ _ _ _ _) as [[doc s'] b]. cbn [snd] in *.
  rewrite Hr.
  destruct (processed_names (is_insurance_related_file yaml_path)
              (entry :: items) []) as [l|e] eqn:Ep; [|reflexivity].
  apply processed_names_ok in Ep. destruct Ep as [Hall _].
  rewrite Forall_forall in Hall.
  destruct (Hall _ Hin) as [n Hok].
  rewrite (schema_outcome_not_mapping _ _ _ Hsk Hd) in Hok. discriminate.
Qed.

Lemma schema_not_mapping_fails_witness :
  snd (process_yaml_to_db
         (fun _ => Ok (JDict [("Named", JDict [("properties",
                                  JDict [("name", JDict [])])]);
                              ("Broken", JStr "see Named")]))
         (fun _ => Ok None) "apis/payments.yaml" "payments" empty_session)
  = false.
Proof.
  apply (schema_not_mapping_fails
           (fun _ => Ok (JDict [("Named", JDict [("properties",
                                    JDict [("name", JDict [])])]);
                                ("Broken", JStr "see Named")]))
           (fun _ => Ok None) "apis/payments.yaml" "payments" empty_session
           [("Named", JDict [("properties", JDict [("name", JDict [])])]);
            ("Broken", JStr "see Named")]
           None "Broken" (JStr "see Named")).
  - reflexivity.
  - reflexivity.
  - right. now left.
  - reflexivity.
  - discriminate.
Defined.

(** ** An injection that raises half way *)



(** ** The fields of amount in the flattened properties *)

Lemma foldM_reaches {A S : Type} (I Q : S -> Prop) (f : S -> A -> res S)
    (x : A) :
  (forall s1 y s2, I s1 -> f s1 y = Ok s2 -> I s2) ->
  (forall s1 s2, I s1 -> f s1 x = Ok s2 -> Q s2) ->
  (forall s1 y s2, I s1 -> Q s1 -> f s1 y = Ok s2 -> Q s2) ->
  forall l s s', foldM f l s = Ok s' -> In x l -> I s -> Q s'.
Proof.
  intros HI Hx HQ.
  assert (Hkeep : forall l s s', foldM f l s = Ok s' -> I s -> Q s -> Q s').
  { induction l as [|y l IH]; simpl; intros s s' H Hi Hq.
    - now injection H as <-.
    - destruct (f s y) as [s1|] eqn:E; simpl in H; [|discriminate].
      eapply IH; eauto. }
  induction l as [|y l IH]; simpl; intros s s' H Hin Hi; [destruct Hin|].
  destruct (f s y) as [s1|] eqn:E; simpl in H; [|discriminate].
  destruct Hin as [->|Hin].
  - eapply Hkeep; eauto.
  - eapply IH; eauto.
Qed.

Lemma keeps_keys_mapping (a b : json) :
  keeps_keys a b -> is_mapping a -> is_mapping b.
Proof. intros H [d Hd]. destruct (H d Hd) as (db & -> & _). now exists db. Qed.

Lemma keeps_keys_has_key (k : string) (a b : json) :
  keeps_keys a b -> has_key k a -> has_key k b.
Proof.
  intros H (d & Hd & Hm). destruct (H d Hd) as (db & -> & Hb & _).
  exists db. split; [reflexivity|].
  apply dict_mem_in. eapply begins_in; [exact Hb|]. now apply dict_mem_in.
Qed.

Lemma setitem_has_key (pp : json) (k : string) (v pp' : json) :
  py_setitem pp k v = Ok pp' -> has_key k pp'.
Proof.
  destruct pp; try discriminate. simpl. intros [= <-].
  eexists. split; [reflexivity|apply dict_mem_set_same].
Qed.

Lemma flatten_unit_has_key (pp : json) (U : string) (data pp' : json) :
  flatten_unit pp (U, data) = Ok pp' -> has_key ("amount_unit_" ++ U) pp'.
Proof.
  unfold flatten_unit.
  destruct (calculate_field_size U data); simpl; [|discriminate].
  apply setitem_has_key.
Qed.

Lemma flatten_units_have_keys (up : dict) (pp pp' : json) (U : string)
    (data : json) :
  foldM flatten_unit up pp = Ok pp' -> In (U, data) up -> is_mapping pp ->
  has_key ("amount_unit_" ++ U) pp'.
Proof.
  apply (foldM_reaches is_mapping (has_key ("amount_unit_" ++ U))
           flatten_unit (U, data)).
  - intros s1 y s2 Hi H. eapply keeps_keys_mapping; [|exact Hi].
    exact (flatten_unit_keeps keeps_keys setitem_keeps_keys _ _ _ H).
  - intros s1 s2 _. apply flatten_unit_has_key.
  - intros s1 y s2 _ Hq H. eapply keeps_keys_has_key; [|exact Hq].
    exact (flatten_unit_keeps keeps_keys setitem_keeps_keys _ _ _ H).
Qed.

(** The names the fields of an amount give: amount_S for a field S, and
    amount_unit_U for a field U of its field unit. *)
Lemma flatten_amount_has_keys (pp : json) (S : string) (sub pp' : json) :
  flatten_amount pp (S, sub) = Ok pp' ->
  has_key ("amount_" ++ S) pp' /\
  (forall u up U data,
     S = "unit" -> sub = JDict u ->
     dict_get "properties" u = Some (JDict up) -> In (U, data) up ->
     has_key ("amount_unit_" ++ U) pp').
Proof.
  unfold flatten_amount.
  destruct (calculate_field_size S sub); simpl; [|discriminate].
  destruct (extract_field_type sub); simpl; [|discriminate].
  destruct (py_setitem pp _ _) as [pp1|] eqn:E1; simpl; [|discriminate].
  pose proof (setitem_has_key _ _ _ _ E1) as Hk1.
  assert (Hm1 : is_mapping pp1) by (destruct Hk1 as (d & -> & _); now exists d).
  unfold named_with_properties.
  destruct (String.eqb S "unit") eqn:Eu.
  - destruct (py_in "properties" sub) as [[|]|] eqn:Ep; simpl;
      try discriminate.
    + destruct (py_get sub "properties" (JDict [])) as [upv|] eqn:Eg; simpl;
        [|discriminate].
      destruct (py_items upv) as [its|] eqn:Ei; simpl; [|discriminate].
      intros H. split.
      * eapply keeps_keys_has_key; [|exact Hk1].
        revert H.
        apply (foldM_preserves keeps_keys flatten_unit keeps_keys_same
                 keeps_keys_trans
                 (flatten_unit_keeps keeps_keys setitem_keeps_keys)).
      * intros u up U data _ -> Hup Hin. simpl in Eg. rewrite Hup in Eg.
        injection Eg as <-. simpl in Ei. injection Ei as <-.
        eapply flatten_units_have_keys; eassumption.
    + intros [= <-]. split; [exact Hk1|].
      intros u up U data _ -> Hup _. simpl in Ep.
      unfold dict_mem in Ep. rewrite Hup in Ep. discriminate.
  - intros [= <-]. split; [exact Hk1|].
    intros u up U data ->. discriminate.
Qed.

Lemma flatten_amount_keeps_mapping (s1 : json) (y : string * json)
    (s2 : json) :
  is_mapping s1 -> flatten_amount s1 y = Ok s2 -> is_mapping s2.
Proof.
  intros Hi H. eapply keeps_keys_mapping; [|exact Hi].
  exact (flatten_amount_keeps keeps_keys keeps_keys_same keeps_keys_trans
           setitem_keeps_keys _ _ _ H).
Qed.

Lemma flatten_amount_keeps_key (k : string) (s1 : json) (y : string * json)
    (s2 : json) :
  has_key k s1 -> flatten_amount s1 y = Ok s2 -> has_key k s2.
Proof.
  intros Hq H. eapply keeps_keys_has_key; [|exact Hq].
  exact (flatten_amount_keeps keeps_keys keeps_keys_same keeps_keys_trans
           setitem_keeps_keys _ _ _ H).
Qed.

Lemma flatten_amounts_have_keys (ap : dict) (pp pp' : json) :
  foldM flatten_amount ap pp = Ok pp' -> is_mapping pp ->
  (forall S data, In (S, data) ap -> has_key ("amount_" ++ S) pp') /\
  (forall u up U data,
     In ("unit", JDict u) ap ->
     dict_get "properties" u = Some (JDict up) -> In (U, data) up ->
     has_key ("amount_unit_" ++ U) pp').
Proof.
  intros H Hi. split.
  - intros S data Hin. revert H Hin Hi.
    apply (foldM_reaches is_mapping (has_key ("amount_" ++ S))
             flatten_amount (S, data)).
    + intros s1 y s2 Hm Hf. eapply flatten_amount_keeps_mapping; eassumption.
    + intros s1 s2 _ Hf. now apply flatten_amount_has_keys in Hf.
    + intros s1 y s2 _ Hq Hf. eapply flatten_amount_keeps_key; eassumption.
  - intros u up U data Hin Hup HU. revert H Hin Hi.
    apply (foldM_reaches is_mapping (has_key ("amount_unit_" ++ U))
             flatten_amount ("unit", JDict u)).
    + intros s1 y s2 Hm Hf. eapply flatten_amount_keeps_mapping; eassumption.
    + intros s1 s2 _ Hf. apply flatten_amount_has_keys in Hf.
      destruct Hf as [_ Hf]. eapply Hf; eauto.
    + intros s1 y s2 _ Hq Hf. eapply flatten_amount_keeps_key; eassumption.
Qed.

(** X17.  When flattening succeeds, every field S of the amount of an
    inlined element has its property amount_S in the result, and every
    field U of the unit of that amount its property amount_unit_U. *)
Theorem amount_fields_are_inlined (properties : dict) (items : list json)
    (pp : json) (item ref_properties amount amount_properties : dict) :
  flatten_all_of (JDict properties) (JList items) = Ok pp ->
  In (JDict item) items ->
  qualifies (JDict item) = true ->
  dict_get "properties" item = Some (JDict ref_properties) ->
  In ("amount", JDict amount) ref_properties ->
  dict_get "properties" amount = Some (JDict amount_properties) ->
  exists processed, pp = JDict processed /\
    (forall S data, In (S, data) amount_properties ->
       dict_mem ("amount_" ++ S) processed = true) /\
    (forall u up U data,
       In ("unit", JDict u) amount_properties ->
       dict_get "properties" u = Some (JDict up) -> In (U, data) up ->
       dict_mem ("amount_unit_" ++ U) processed = true).
Proof.
  intros Hf Hitem Hq Hrp Hamount Hap.
  assert (Hprop : forall k,
    (forall s1 s2, is_mapping s1 ->
       foldM flatten_amount amount_properties s1 = Ok s2 -> has_key k s2) ->
    has_key k pp).
  { intros k Hk. unfold flatten_all_of in Hf. simpl in Hf.
    destruct items as [|i0 items0]; [destruct Hitem|].
    cbv iota in Hf. revert Hf Hitem.
    generalize (i0 :: items0). intros l Hf Hitem.
    assert (Hi0 : is_mapping (JDict properties)) by now exists properties.
    revert Hf Hitem Hi0.
    apply (foldM_reaches is_mapping (has_key k) flatten_item (JDict item)).
    - intros s1 y s2 Hm H. eapply keeps_keys_mapping; [|exact Hm].
      exact (flatten_item_keeps keeps_keys keeps_keys_same keeps_keys_trans
               setitem_keeps_keys _ _ _ H).
    - intros s1 s2 Hm H. unfold flatten_item in H. unfold qualifies in Hq.
      destruct (refers_to_amount_details (JDict item)) as [[|]|];
        try discriminate.
      destruct (py_in "properties" (JDict item)) as [[|]|];
        try discriminate.
      simpl in H. rewrite Hrp in H. simpl in H. revert H Hamount Hm.
      apply (foldM_reaches is_mapping (has_key k) flatten_property
               ("amount", JDict amount)).
      + intros t1 y t2 Hm H. eapply keeps_keys_mapping; [|exact Hm].
        exact (flatten_property_keeps keeps_keys keeps_keys_same
                 keeps_keys_trans setitem_keeps_keys _ _ _ H).
      + intros t1 t2 Hm H. unfold flatten_property in H. simpl in H.
        unfold dict_mem in H. rewrite Hap in H. simpl in H. eauto.
      + intros t1 y t2 _ Hk' H. eapply keeps_keys_has_key; [|exact Hk'].
        exact (flatten_property_keeps keeps_keys keeps_keys_same
                 keeps_keys_trans setitem_keeps_keys _ _ _ H).
    - intros s1 y s2 _ Hk' H. eapply keeps_keys_has_key; [|exact Hk'].
      exact (flatten_item_keeps keeps_keys keeps_keys_same keeps_keys_trans
               setitem_keeps_keys _ _ _ H). }
  destruct (flatten_all_of_keeps keeps_keys keeps_keys_same keeps_keys_trans
              setitem_keeps_keys _ _ _ Hf properties eq_refl)
    as (processed & -> & _).
  exists processed. split; [reflexivity|]. split.
  - intros S data Hin.
    destruct (Hprop ("amount_" ++ S)%string) as (d & [= <-] & Hm);
      [|exact Hm].
    intros s1 s2 Hm H.
    now apply (proj1 (flatten_amounts_have_keys _ _ _ H Hm) S data).
  - intros u up U data Hin Hup HU.
    destruct (Hprop ("amount_unit_" ++ U)%string) as (d & [= <-] & Hm);
      [|exact Hm].
    intros s1 s2 Hm H.
    now apply (proj2 (flatten_amounts_have_keys _ _ _ H Hm) u up U data).
Qed.

Lemma amount_fields_are_inlined_witness :
  dict_mem "amount_unit_code"
    [("amount_value",
      JDict [("type", JStr "number"); ("maxLength", JInt 10)]);
     ("amount_unit",
      JDict [("type", JStr "string"); ("maxLength", JInt 100)]);
     ("amount_unit_code",
      JDict [("type", JStr "string"); ("maxLength", JInt 3)])]
  = true.
Proof.
  pose (code := JDict [("type", JStr "string");
                       ("enum", JList [JStr "USD"; JStr "BRL"])]).
  pose (up := [("code", code)]).
  pose (u := [("properties", JDict up)]).
  pose (ap := [("value", JDict [("type", JStr "number")]);
               ("unit", JDict u)]).
  pose (amount := [("properties", JDict ap)]).
  pose (rp := [("amount", JDict amount)]).
  pose (item := [("$ref", JStr "#/components/schemas/AmountDetails");
                 ("properties", JDict rp)]).
  destruct (amount_fields_are_inlined [] [JDict item]
              (JDict
                 [("amount_value",
                   JDict [("type", JStr "number"); ("maxLength", JInt 10)]);
                  ("amount_unit",
                   JDict [("type", JStr "string"); ("maxLength", JInt 100)]);
                  ("amount_unit_code",
                   JDict [("type", JStr "string"); ("maxLength", JInt 3)])])
              item rp amount ap eq_refl (or_introl eq_refl) eq_refl eq_refl
              (or_introl eq_refl) eq_refl) as (processed & E & _ & H).
  injection E as <-.
  exact (H u up "code" code (or_intror (or_introl eq_refl)) eq_refl
           (or_introl eq_refl)).
Defined.

(** ** The rule of policyId in the store *)

Lemma dict_get_in (k : string) (v : json) (d : dict) :
  dict_get k d = Some v -> In (k, v) d.
Proof.
  induction d as [|[k' v'] d IH]; simpl; [discriminate|].
  destruct (String.eqb k' k) eqn:E.
  - apply String.eqb_eq in E. intros [= ->]. left. now subst.
  - auto.
Qed.

Lemma flatten_all_of_same_but_amount (properties : dict) (all_of pp : json) :
  flatten_all_of (JDict properties) all_of = Ok pp ->
  same_but_amount (JDict properties) pp.
Proof.
  unfold flatten_all_of. simpl bind. destruct (truthy all_of).
  - destruct (py_iter all_of) as [items|]; simpl; [|discriminate].
    apply (foldM_preserves same_but_amount flatten_item same_but_amount_refl
             same_but_amount_trans flatten_item_frame).
  - intros [= <-]. apply same_but_amount_refl.
Qed.

(** What the injection makes of a schema that does not declare
    policyId. *)
Lemma inject_policy_id_result (d properties : dict) (required : list json) :
  dict_get "properties" d = Some (JDict properties) \/
  (dict_get "properties" d = None /\ properties = []) ->
  dict_get "required" d = Some (JList required) \/
  (dict_get "required" d = None /\ required = []) ->
  dict_mem "policyId" properties = false ->
  exists d',
    inject_policy_id (JDict d) = (JDict d', Ok tt) /\
    dict_get "properties" d'
    = Some (JDict (dict_set "policyId" policy_id_property properties)) /\
    dict_get "required" d' = Some (JList (with_policy_id required)).
Proof.
  intros Hp Hr.
  unfold inject_policy_id, require_policy_id, py_setdefault, py_get, py_in,
    py_getitem, py_setitem, py_append, bind, with_policy_id, dict_mem.
  destruct (dict_get "policyId" properties) eqn:Edecl; [discriminate|].
  intros _.
  destruct Hp as [Hp|[Hp ->]]; rewrite Hp.
  - rewrite Edecl, Hp. rewrite !dict_get_set_other by discriminate.
    destruct Hr as [Hr|[Hr ->]]; rewrite Hr.
    + rewrite dict_get_set_other, Hr by discriminate.
      destruct (existsb (is_str "policyId") required);
        eexists; (split; [reflexivity|]).
      * now rewrite dict_get_set_same, dict_get_set_other by discriminate.
      * now rewrite dict_get_set_same, dict_get_set_other, dict_get_set_same
          by discriminate.
    + rewrite dict_get_set_same. simpl existsb. cbv iota.
      eexists. split; [reflexivity|].
      now rewrite dict_get_set_same, !dict_get_set_other, dict_get_set_same
        by discriminate.
  - simpl dict_get at 1. cbv iota. rewrite dict_get_set_same.
    rewrite !dict_get_set_other by discriminate.
    destruct Hr as [Hr|[Hr ->]]; rewrite Hr.
    + rewrite !dict_get_set_other, Hr by discriminate.
      destruct (existsb (is_str "policyId") required);
        eexists; (split; [reflexivity|]).
      * now rewrite dict_get_set_same, !dict_get_set_other by discriminate.
      * now rewrite dict_get_set_same, dict_get_set_other, dict_get_set_same
          by discriminate.
    + rewrite dict_get_set_same. simpl existsb. cbv iota.
      eexists. split; [reflexivity|].
      now rewrite dict_get_set_same, !dict_get_set_other, dict_get_set_same
        by discriminate.
Qed.

(** X18.  For a schema mapping taken as the value it is when its turn
    comes in a restricted document, none of its mappings and lists held at
    two places: when its properties do not declare policyId and have no
    name twice, and its required entry is a list or absent, the injection
    of lines 90-105 succeeds; and when [process_schema_fields] then reads
    the injected schema without an exception, the session it returns holds
    for the dataset the rule policyId: a string of size 100, required,
    without enum.  A schema whose properties are held by an earlier schema
    too declares policyId when its turn comes, and is not covered. *)
Theorem policy_id_rule_written (session : Session) (schema_name : string)
    (d properties : dict) (required : list json) (conjunto_id : nat)
    (read : json * dict) :
  dict_get "properties" d = Some (JDict properties) \/
  (dict_get "properties" d = None /\ properties = []) ->
  dict_get "required" d = Some (JList required) \/
  (dict_get "required" d = None /\ required = []) ->
  dict_mem "policyId" properties = false ->
  NoDup (map fst properties) ->
  schema_properties (fst (inject_policy_id (JDict d))) = Ok read ->
  snd (inject_policy_id (JDict d)) = Ok tt /\
  find_regra
    (fst (process_schema_fields session schema_name
            (fst (inject_policy_id (JDict d))) conjunto_id true))
    conjunto_id "policyId"
  = Some (mk_rule (JStr "string") (JInt 100) true None).
Proof.
  intros Hp Hr Hm Hnd Hs.
  destruct (inject_policy_id_result d properties required Hp Hr Hm)
    as (d' & Hinj & Hp' & Hr').
  rewrite Hinj in *. cbn [fst snd] in *. split; [reflexivity|].
  unfold process_schema_fields. rewrite Hs.
  rewrite schema_properties_dict, Hp', Hr' in Hs.
  destruct (flatten_all_of _ _) as [pp|] eqn:Ef; simpl in Hs; [|discriminate].
  destruct (flatten_all_of_same_but_amount _ _ _ Ef _ eq_refl)
    as (processed & -> & Hsame & _).
  destruct (flatten_all_of_keeps keeps_keys keeps_keys_same keeps_keys_trans
              setitem_keeps_keys _ _ _ Ef _ eq_refl)
    as (processed' & [= <-] & _ & Hnd').
  simpl in Hs. injection Hs as <-.
  assert (Hin : In ("policyId", policy_id_property) processed).
  { apply dict_get_in. rewrite Hsame by reflexivity.
    apply dict_get_set_same. }
  assert (Hnd2 : NoDup (map fst processed)).
  { apply Hnd'. rewrite dict_set_keys, Hm.
    apply NoDup_app; [exact Hnd|repeat constructor; auto|].
    intros x Hx [<-|[]]. apply dict_mem_in in Hx. congruence. }
  assert (Hrule :
    rule_of_property true (JList (with_policy_id required)) "policyId"
      policy_id_property
    = Ok (Some (mk_rule (JStr "string") (JInt 100) true None))).
  { apply policy_id_rule. simpl. now rewrite with_policy_id_listed. }
  pose proof (process_properties_lookup true (JList (with_policy_id required))
                conjunto_id processed session 0 "policyId"
                policy_id_property _ Hnd2 Hin Hrule) as H.
  cbn [fst snd].
  now destruct (fold_left _ processed (session, 0)).
Qed.

Lemma policy_id_rule_written_witness :
  find_regra
    (fst (process_schema_fields empty_session "Resource"
            (fst (inject_policy_id
                    (JDict [("properties",
                             JDict [("owner",
                                     JDict [("$ref", JStr "#/Owner")])])])))
            1 true))
    1 "policyId"
  = Some (mk_rule (JStr "string") (JInt 100) true None).
Proof.
  refine (proj2 (policy_id_rule_written empty_session "Resource"
                   [("properties",
                     JDict [("owner", JDict [("$ref", JStr "#/Owner")])])]
                   [("owner", JDict [("$ref", JStr "#/Owner")])] [] 1
                   (JList [JStr "policyId"],
                    [("owner", JDict [("$ref", JStr "#/Owner")]);
                     ("policyId", policy_id_property)])
                   (or_introl eq_refl) (or_intror (conj eq_refl eq_refl))
                   eq_refl _ eq_refl)).
  repeat constructor. simpl. tauto.
Defined.

Lemma run_only_adds_witness :
  In (1, "id")
    (map fst
       (regras
          (fst (process_yaml_to_db
                  (fun _ => Ok (JDict [("Claim",
                      JDict [("properties",
                              JDict [("id", JDict [("type", JStr "integer")])])])]))
                  (fun _ => Ok None) "apis/claims.yaml" "claims"
                  (mk_session ["claims"] [("Claim", 1)]
                     [((1, "id"),
                       mk_rule (JStr "string") (JInt 36) true None)]))))).
Proof.
  destruct (run_only_adds
              (fun _ => Ok (JDict [("Claim",
                  JDict [("properties",
                          JDict [("id", JDict [("type", JStr "integer")])])])]))
              (fun _ => Ok None) "apis/claims.yaml" "claims"
              (mk_session ["claims"] [("Claim", 1)]
                 [((1, "id"), mk_rule (JStr "string") (JInt 36) true None)]))
    as (_ & _ & _ & H).
  apply H. left. reflexivity.
Defined.

(** * The objects of the loaded document *)

(** ** Objects and entries *)

Lemma entry_get_set_same {V : Type} (k : string) (v : V)
    (d : list (string * V)) :
  entry_get k (entry_set k v d) = Some v.
Proof.
  induction d as [|[k' v'] d IH]; simpl.
  - now rewrite String.eqb_refl.
  - destruct (String.eqb k' k) eqn:E; simpl; rewrite E; auto.
Qed.

Lemma entry_get_set_other {V : Type} (k k' : string) (v : V)
    (d : list (string * V)) :
  k <> k' -> entry_get k' (entry_set k v d) = entry_get k' d.
Proof.
  intros Hne. induction d as [|[k0 v0] d IH]; simpl.
  - destruct (String.eqb k k') eqn:E; auto.
    apply String.eqb_eq in E. contradiction.
  - destruct (String.eqb k0 k) eqn:E; simpl.
    + apply String.eqb_eq in E. subst k0.
      destruct (String.eqb k k') eqn:E'; auto.
      apply String.eqb_eq in E'. contradiction.
    + now rewrite IH.
Qed.

Lemma entry_mem_set {V : Type} (k k' : string) (v : V)
    (d : list (string * V)) :
  entry_mem k' d = true -> entry_mem k' (entry_set k v d) = true.
Proof.
  unfold entry_mem. destruct (string_dec k k') as [<-|Hne].
  - now rewrite entry_get_set_same.
  - now rewrite entry_get_set_other.
Qed.

Lemma length_store (a : nat) (o : object) (h : heap) :
  List.length (store a o h) = List.length h.
Proof.
  revert a. induction h as [|o' h IH]; intros [|a]; simpl; auto.
Qed.

Lemma nth_error_store_other (a b : nat) (o : object) (h : heap) :
  a <> b -> nth_error (store a o h) b = nth_error h b.
Proof.
  revert a b. induction h as [|o' h IH]; intros [|a] [|b] Hne; simpl; auto;
    congruence.
Qed.

Lemma nth_error_store_same (a : nat) (o o0 : object) (h : heap) :
  nth_error h a = Some o0 -> nth_error (store a o h) a = Some o.
Proof.
  revert a. induction h as [|o' h IH]; intros [|a]; simpl; try discriminate;
    auto.
Qed.

Lemma nth_error_grown (h : heap) (o : object) (a : nat) :
  a < List.length h -> nth_error (h ++ [o]) a = nth_error h a.
Proof. intros H. now apply nth_error_app1. Qed.

(** ** Steps that leave the loaded objects alone *)

Lemma agree_same (n : nat) (h : heap) : agree n h h.
Proof. split; auto. Qed.

Lemma agree_trans (n : nat) (h1 h2 h3 : heap) :
  agree n h1 h2 -> agree n h2 h3 -> agree n h1 h3.
Proof.
  intros [H1 L1] [H2 L2]. split; [|lia].
  intros a Ha. now rewrite H2, H1.
Qed.

Lemma agree_less (m n : nat) (h h' : heap) :
  m <= n -> agree n h h' -> agree m h h'.
Proof. intros Hm [H L]. split; [|exact L]. intros a Ha. apply H. lia. Qed.

Lemma agree_grown (n : nat) (h : heap) (o : object) :
  n <= List.length h -> agree n h (h ++ [o]).
Proof.
  intros Hn. split.
  - intros a Ha. apply nth_error_grown. lia.
  - rewrite length_app. simpl. lia.
Qed.

Lemma agree_store (n a : nat) (o : object) (h : heap) :
  n <= a -> agree n h (store a o h).
Proof.
  intros Hn. split.
  - intros b Hb. apply nth_error_store_other. lia.
  - rewrite length_store. lia.
Qed.

Lemma keeps_ret {A : Type} (n : nat) (x : A) (Q : A -> Prop) :
  Q x -> keeps_below n (ret x) Q.
Proof.
  intros Hq h _. split; [apply agree_same|]. simpl. now intros y [= <-].
Qed.

Lemma keeps_bind {A B : Type} (n : nat) (m : H A) (k : A -> H B)
    (Q : A -> Prop) (Q' : B -> Prop) :
  keeps_below n m Q -> (forall x, Q x -> keeps_below n (k x) Q') ->
  keeps_below n (bindH m k) Q'.
Proof.
  intros Hm Hk h Hn. unfold bindH. destruct (Hm h Hn) as [Ha Hq].
  destruct (m h) as [h1 [x|e]]; simpl in *.
  - assert (Hn1 : n <= List.length h1) by (destruct Ha; lia).
    destruct (Hk x (Hq x eq_refl) h1 Hn1) as [Ha1 Hq1].
    split; [eapply agree_trans; eassumption|exact Hq1].
  - split; [exact Ha|discriminate].
Qed.

Lemma keeps_any {A : Type} (n : nat) (m : H A) (Q Q' : A -> Prop) :
  keeps_below n m Q -> (forall x, Q x -> Q' x) -> keeps_below n m Q'.
Proof.
  intros Hm Hq h Hn. destruct (Hm h Hn) as [Ha Hx]. split; auto.
Qed.

Lemma keeps_reads {A : Type} (n : nat) (m : H A) :
  reads m -> keeps_below n m (fun _ => True).
Proof.
  intros Hr h _. rewrite Hr. split; [apply agree_same|auto].
Qed.

Lemma reads_ret {A : Type} (x : A) : reads (ret x).
Proof. intros h. reflexivity. Qed.

Lemma reads_bind {A B : Type} (m : H A) (k : A -> H B) :
  reads m -> (forall x, reads (k x)) -> reads (bindH m k).
Proof.
  intros Hm Hk h. unfold bindH. specialize (Hm h).
  destruct (m h) as [h1 [x|e]]; simpl in *; subst; [apply Hk|reflexivity].
Qed.

Lemma reads_v_in (k : string) (v : value) : reads (v_in k v).
Proof.
  intros h. unfold v_in. destruct v; try reflexivity.
  destruct (nth_error h a) as [[d|l]|]; reflexivity.
Qed.

Lemma reads_v_getitem (v : value) (k : string) : reads (v_getitem v k).
Proof.
  intros h. unfold v_getitem. destruct v; try reflexivity.
  destruct (nth_error h a) as [[d|l]|]; try reflexivity.
  destruct (entry_get k d); reflexivity.
Qed.

Lemma reads_v_items (v : value) : reads (v_items v).
Proof.
  intros h. unfold v_items. destruct v; try reflexivity.
  destruct (nth_error h a) as [[d|l]|]; reflexivity.
Qed.

Lemma reads_v_iter (v : value) : reads (v_iter v).
Proof.
  intros h. unfold v_iter. destruct v; try reflexivity.
  destruct (nth_error h a) as [[d|l]|]; reflexivity.
Qed.

Lemma reads_extract_field_type_h (field_data : value) :
  reads (extract_field_type_h field_data).
Proof.
  unfold extract_field_type_h.
  apply reads_bind; [apply reads_v_in|]. intros [|];
    [apply reads_v_getitem|].
  apply reads_bind; [apply reads_v_in|]. intros [|]; apply reads_ret.
Qed.

Lemma reads_calculate_field_size_h (field_name : string)
    (field_data : value) :
  reads (calculate_field_size_h field_name field_data).
Proof.
  unfold calculate_field_size_h.
  apply reads_bind; [apply reads_extract_field_type_h|]. intros t.
  destruct (v_is_str "string" t).
  - apply reads_bind; [apply reads_v_in|]. intros [|];
      [apply reads_v_getitem|].
    apply reads_bind; [apply reads_v_in|]. intros [|]; [|apply reads_ret].
    apply reads_bind; [apply reads_v_getitem|]. intros enum h.
    destruct (v_truthy h enum); [|reflexivity].
    apply reads_bind; [apply reads_v_iter|]. intros es. apply reads_ret.
  - destruct (v_is_str "number" t || v_is_str "integer" t); apply reads_ret.
Qed.

Lemma keeps_alloc (n : nat) (o : object) : keeps_below n (alloc o) (fresh n).
Proof.
  intros h Hn. unfold alloc. simpl. split; [now apply agree_grown|].
  intros x [= <-]. exact Hn.
Qed.

Lemma keeps_v_copy (n : nat) (v : value) : keeps_below n (v_copy v) (fresh n).
Proof.
  intros h Hn. unfold v_copy. destruct v; try (split; [apply agree_same|discriminate]).
  destruct (nth_error h a) as [o|]; simpl.
  - split; [now apply agree_grown|]. intros x [= <-]. exact Hn.
  - split; [apply agree_same|discriminate].
Qed.

Lemma keeps_v_get (n : nat) (v : value) (k : string) (default : object) :
  keeps_below n (v_get v k default) (fun _ => True).
Proof.
  intros h Hn. unfold v_get.
  destruct v; try (split; [apply agree_same|auto]).
  destruct (nth_error h a) as [[d|l]|]; try (split; [apply agree_same|auto]).
  destruct (entry_get k d); (split; [now apply agree_grown|auto]).
Qed.

Lemma keeps_v_setitem (n : nat) (pp : value) (k : string) (x : value) :
  fresh n pp -> keeps_below n (v_setitem pp k x) (fun _ => True).
Proof.
  intros Hf h Hn. unfold v_setitem.
  destruct pp; try (split; [apply agree_same|auto]).
  destruct (nth_error h a) as [[d|l]|]; try (split; [apply agree_same|auto]).
  split; [now apply agree_store|auto].
Qed.

Lemma keeps_forH {A : Type} (n : nat) (f : A -> H unit) (l : list A) :
  (forall x, keeps_below n (f x) (fun _ => True)) ->
  keeps_below n (forH f l) (fun _ => True).
Proof.
  intros Hf. induction l as [|x l IH]; simpl.
  - now apply keeps_ret.
  - eapply keeps_bind; [apply Hf|]. intros _ _. exact IH.
Qed.

Lemma keeps_named_with_properties_h (n : nat) (name k : string)
    (data : value) :
  keeps_below n (named_with_properties_h name k data) (fun _ => True).
Proof.
  unfold named_with_properties_h. destruct (String.eqb k name).
  - apply keeps_reads, reads_v_in.
  - now apply keeps_ret.
Qed.

Lemma keeps_flatten_unit_h (n : nat) (pp : value) (x : string * value) :
  fresh n pp -> keeps_below n (flatten_unit_h pp x) (fun _ => True).
Proof.
  intros Hf. destruct x as [unit_field unit_data]. unfold flatten_unit_h.
  eapply keeps_bind;
    [apply keeps_reads, reads_calculate_field_size_h|]. intros size _.
  eapply keeps_bind; [apply keeps_alloc|]. intros fragment _.
  now apply keeps_v_setitem.
Qed.

Lemma keeps_flatten_amount_h (n : nat) (pp : value) (x : string * value) :
  fresh n pp -> keeps_below n (flatten_amount_h pp x) (fun _ => True).
Proof.
  intros Hf. destruct x as [sub_field sub_data]. unfold flatten_amount_h.
  eapply keeps_bind;
    [apply keeps_reads, reads_calculate_field_size_h|]. intros size _.
  eapply keeps_bind;
    [apply keeps_reads, reads_extract_field_type_h|]. intros type _.
  eapply keeps_bind; [apply keeps_alloc|]. intros fragment _.
  eapply keeps_bind; [now apply keeps_v_setitem|]. intros _ _.
  eapply keeps_bind; [apply keeps_named_with_properties_h|].
  intros [|] _; [|now apply keeps_ret].
  eapply keeps_bind; [apply keeps_v_get|]. intros up _.
  eapply keeps_bind; [apply keeps_reads, reads_v_items|]. intros its _.
  apply keeps_forH. intros y. now apply keeps_flatten_unit_h.
Qed.

Lemma keeps_flatten_property_h (n : nat) (pp : value) (x : string * value) :
  fresh n pp -> keeps_below n (flatten_property_h pp x) (fun _ => True).
Proof.
  intros Hf. destruct x as [prop_name prop_data]. unfold flatten_property_h.
  eapply keeps_bind; [apply keeps_named_with_properties_h|].
  intros [|] _; [|now apply keeps_ret].
  eapply keeps_bind; [apply keeps_v_get|]. intros ap _.
  eapply keeps_bind; [apply keeps_reads, reads_v_items|]. intros its _.
  apply keeps_forH. intros y. now apply keeps_flatten_amount_h.
Qed.

Lemma keeps_flatten_item_h (n : nat) (pp item : value) :
  fresh n pp -> keeps_below n (flatten_item_h pp item) (fun _ => True).
Proof.
  intros Hf. unfold flatten_item_h, refers_to_amount_details_h.
  eapply keeps_bind.
  { apply keeps_reads. apply reads_bind; [apply reads_v_in|].
    intros [|]; [|apply reads_ret].
    apply reads_bind; [apply reads_v_getitem|]. intros ref.
    apply reads_v_in. }
  intros [|] _; [|now apply keeps_ret].
  eapply keeps_bind; [apply keeps_reads, reads_v_in|].
  intros [|] _; [|now apply keeps_ret].
  eapply keeps_bind; [apply keeps_v_get|]. intros rp _.
  eapply keeps_bind; [apply keeps_reads, reads_v_items|]. intros its _.
  apply keeps_forH. intros y. now apply keeps_flatten_property_h.
Qed.

Lemma keeps_flatten_all_of_h (n : nat) (properties all_of : value) :
  keeps_below n (flatten_all_of_h properties all_of) (fun _ => True).
Proof.
  unfold flatten_all_of_h.
  eapply keeps_bind; [apply keeps_v_copy|]. intros pp Hf h Hn.
  destruct (v_truthy h all_of); [|split; [apply agree_same|auto]].
  revert h Hn.
  change (keeps_below n
            (let! items := v_iter all_of in
             let! _ := forH (flatten_item_h pp) items in ret pp)
            (fun _ => True)).
  eapply keeps_bind; [apply keeps_reads, reads_v_iter|]. intros items _.
  eapply keeps_bind;
    [apply keeps_forH; intros y; now apply keeps_flatten_item_h|].
  intros _ _. now apply keeps_ret.
Qed.

Lemma keeps_schema_properties_h (n : nat) (schema_data : value) :
  keeps_below n (schema_properties_h schema_data) (fun _ => True).
Proof.
  unfold schema_properties_h.
  eapply keeps_bind; [apply keeps_v_copy|]. intros meta _.
  eapply keeps_bind; [apply keeps_v_get|]. intros required_fields _.
  eapply keeps_bind; [apply keeps_v_get|]. intros properties _.
  eapply keeps_bind; [apply keeps_v_get|]. intros all_of _.
  eapply keeps_bind; [apply keeps_flatten_all_of_h|]. intros pp _.
  eapply keeps_bind; [apply keeps_reads, reads_v_items|]. intros items _.
  now apply keeps_ret.
Qed.

(** Rule derivation leaves every object it finds as it is: what it
    writes, it writes into its own copies. *)
Lemma process_schema_fields_h_agree (session : Session)
    (schema_name : string) (schema_data : value) (conjunto_id : nat)
    (ins : bool) (h : heap) :
  agree (List.length h) h
    (fst (process_schema_fields_h session schema_name schema_data
            conjunto_id ins h)).
Proof.
  unfold process_schema_fields_h.
  destruct (keeps_schema_properties_h (List.length h) schema_data h
              (le_n _)) as [Ha _].
  destruct (schema_properties_h schema_data h)
    as [h' [[required_fields items]|e]]; simpl in *; [|exact Ha].
  now destruct (fold_left _ _ (session, 0)).
Qed.

(** ** What the injection writes *)

Lemma touched_same (o : object) : touched o o.
Proof.
  destruct o; simpl; exists []; rewrite app_nil_r; auto.
Qed.

Lemma touched_trans (o1 o2 o3 : object) :
  touched o1 o2 -> touched o2 o3 -> touched o1 o3.
Proof.
  destruct o1, o2, o3; simpl; try tauto.
  - intros (a1 & -> & F1) (a2 & -> & F2). exists (a1 ++ a2).
    rewrite app_assoc. split; auto. apply Forall_app; auto.
  - intros (a1 & -> & F1) (a2 & -> & F2). exists (a1 ++ a2).
    rewrite app_assoc. split; auto. apply Forall_app; auto.
Qed.

Lemma touched_heap_same (h : heap) : touched_heap h h.
Proof. split; auto. intros a o E. exists o. split; auto. apply touched_same. Qed.

Lemma touched_heap_trans (h1 h2 h3 : heap) :
  touched_heap h1 h2 -> touched_heap h2 h3 -> touched_heap h1 h3.
Proof.
  intros [L1 H1] [L2 H2]. split; [lia|]. intros a o E.
  destruct (H1 a o E) as (o2 & E2 & T2).
  destruct (H2 a o2 E2) as (o3 & E3 & T3).
  exists o3. split; auto. eapply touched_trans; eauto.
Qed.

Lemma agree_touched (h h' : heap) :
  agree (List.length h) h h' -> touched_heap h h'.
Proof.
  intros [Ha L]. split; auto. intros a o E. exists o. split; [|apply touched_same].
  rewrite Ha; auto. apply nth_error_Some. congruence.
Qed.

Lemma touched_heap_grown (h : heap) (o : object) : touched_heap h (h ++ [o]).
Proof. apply agree_touched. apply agree_grown. auto. Qed.

Lemma touched_heap_store (h : heap) (a : nat) (o o' : object) :
  nth_error h a = Some o -> touched o o' -> touched_heap h (store a o' h).
Proof.
  intros E T. split; [rewrite length_store; auto|]. intros b ob Eb.
  destruct (Nat.eq_dec a b) as [<-|Hne].
  - exists o'. split; [eapply nth_error_store_same; eauto|]. congruence.
  - exists ob. rewrite nth_error_store_other; auto. split; auto. apply touched_same.
Qed.

Lemma entry_set_absent {V : Type} (k : string) (v : V)
    (d : list (string * V)) :
  entry_mem k d = false -> entry_set k v d = d ++ [(k, v)].
Proof.
  unfold entry_mem. induction d as [|[k' v'] d IH]; simpl; auto.
  destruct (String.eqb k' k); [discriminate|]. intros E. now rewrite IH.
Qed.

Lemma bindH_ok {A B : Type} (m : H A) (k : A -> H B) (h h' : heap) (x : A) :
  m h = (h', Ok x) -> bindH m k h = k x h'.
Proof. intros E. unfold bindH. now rewrite E. Qed.

Lemma bindH_raise {A B : Type} (m : H A) (k : A -> H B) (h h' : heap)
    (e : exn) :
  m h = (h', Raise e) -> bindH m k h = (h', Raise e).
Proof. intros E. unfold bindH. now rewrite E. Qed.

Lemma writes_bind {A B : Type} (m : H A) (k : A -> H B) :
  writes_little m -> (forall x, writes_little (k x)) ->
  writes_little (bindH m k).
Proof.
  intros Hm Hk h. unfold bindH. specialize (Hm h).
  destruct (m h) as [h1 [x|e]]; simpl in *; auto.
  eapply touched_heap_trans; [exact Hm|apply Hk].
Qed.

Lemma writes_reads {A : Type} (m : H A) : reads m -> writes_little m.
Proof. intros Hr h. rewrite Hr. apply touched_heap_same. Qed.

Lemma writes_ret {A : Type} (x : A) : writes_little (ret x).
Proof. intros h. apply touched_heap_same. Qed.

Lemma writes_v_append (v : value) :
  writes_little (v_append v (VStr "policyId")).
Proof.
  intros h. unfold v_append. destruct v; try apply touched_heap_same.
  destruct (nth_error h a) as [[d|l]|] eqn:E; try apply touched_heap_same.
  simpl. eapply touched_heap_store; [exact E|]. simpl.
  exists [VStr "policyId"]. split; auto.
Qed.

Lemma v_in_dict (k : string) (a : nat) (d : list (string * value))
    (h : heap) :
  nth_error h a = Some (ODict d) -> v_in k (VRef a) h = (h, Ok (entry_mem k d)).
Proof. intros E. unfold v_in. now rewrite E. Qed.

Lemma v_getitem_dict (k : string) (a : nat) (d : list (string * value))
    (x : value) (h : heap) :
  nth_error h a = Some (ODict d) -> entry_get k d = Some x ->
  v_getitem (VRef a) k h = (h, Ok x).
Proof. intros E G. unfold v_getitem. now rewrite E, G. Qed.

Lemma v_setitem_dict (k : string) (a : nat) (d : list (string * value))
    (x : value) (h : heap) :
  nth_error h a = Some (ODict d) ->
  v_setitem (VRef a) k x h = (store a (ODict (entry_set k x d)) h, Ok tt).
Proof. intros E. unfold v_setitem. now rewrite E. Qed.

Lemma v_setitem_absent (k : string) (a : nat) (d : list (string * value))
    (x : value) (h : heap) :
  injected_key k -> nth_error h a = Some (ODict d) -> entry_mem k d = false ->
  touched_heap h (store a (ODict (entry_set k x d)) h).
Proof.
  intros Hk E M. eapply touched_heap_store; [exact E|]. simpl.
  rewrite entry_set_absent by exact M. exists [(k, x)]. split; auto.
Qed.

Lemma nth_error_grown_some (h : heap) (o' : object) (a : nat) (o : object) :
  nth_error h a = Some o -> nth_error (h ++ [o']) a = Some o.
Proof.
  intros E. rewrite nth_error_grown; auto. apply nth_error_Some. congruence.
Qed.

Lemma nth_error_grown_last (h : heap) (o : object) :
  nth_error (h ++ [o]) (List.length h) = Some o.
Proof. rewrite nth_error_app2, Nat.sub_diag; auto. Qed.

Lemma entry_get_added {V : Type} (k : string) (v : V)
    (d : list (string * V)) :
  entry_mem k d = false -> entry_get k (d ++ [(k, v)]) = Some v.
Proof.
  intros M. rewrite <- (entry_set_absent k v d M). apply entry_get_set_same.
Qed.

(** Lines 101-102: the key is assigned when the mapping does not hold
    it. *)
Lemma writes_guarded (k : string) (sd : value) (o : object)
    (rest : H unit) :
  injected_key k -> writes_little rest ->
  writes_little
    (let! has := v_in k sd in
     let! _ := (if has then ret tt
                else let! empty := alloc o in v_setitem sd k empty) in
     rest).
Proof.
  intros Hk Hrest h.
  destruct sd; try apply touched_heap_same.
  - (* a string *)
    unfold bindH at 1. simpl.
    destruct (contains k s).
    + apply Hrest.
    + simpl. apply touched_heap_grown.
  - destruct (nth_error h a) as [[d|l]|] eqn:E.
    + rewrite (bindH_ok _ _ _ _ _ (v_in_dict k a d h E)).
      destruct (entry_mem k d) eqn:M.
      * apply Hrest.
      * unfold bindH at 1. unfold bindH at 1. unfold alloc.
        rewrite (v_setitem_dict k a d _ _ (nth_error_grown_some _ _ _ _ E)).
        eapply touched_heap_trans; [apply touched_heap_grown|].
        eapply touched_heap_trans; [|apply Hrest].
        apply v_setitem_absent; auto. now apply nth_error_grown_some.
    + unfold bindH at 1. unfold v_in. rewrite E.
      destruct (existsb (v_is_str k) l).
      * apply Hrest.
      * unfold bindH at 1. unfold bindH at 1. unfold alloc, v_setitem.
        rewrite (nth_error_grown_some _ _ _ _ E). simpl.
        apply touched_heap_grown.
    + unfold bindH, v_in. rewrite E. apply touched_heap_same.
Qed.

(** Lines 104-105. *)
Lemma writes_required_tail (sd : value) :
  writes_little
    (let! required := v_getitem sd "required" in
     let! listed := v_in "policyId" required in
     if listed then ret tt
     else
       let! required := v_getitem sd "required" in
       v_append required (VStr "policyId")).
Proof.
  apply writes_bind; [apply writes_reads, reads_v_getitem|]. intros required.
  apply writes_bind; [apply writes_reads, reads_v_in|]. intros [|].
  - apply writes_ret.
  - apply writes_bind; [apply writes_reads, reads_v_getitem|]. intros r.
    apply writes_v_append.
Qed.

(** Lines 90-105 give a loaded mapping new entries only, and a loaded
    list policyId only: the key policyId is assigned to a mapping that was
    just seen not to hold it. *)
Lemma inject_policy_id_h_writes (sd : value) :
  writes_little (inject_policy_id_h sd).
Proof.
  intros h. unfold inject_policy_id_h.
  assert (Htail := writes_guarded "required" sd (OList []) _
                     (or_intror (or_introl eq_refl))
                     (writes_required_tail sd)).
  destruct sd; try apply touched_heap_same.
  destruct (nth_error h a) as [[d|l]|] eqn:E;
    [|unfold bindH, v_get; rewrite E; apply touched_heap_same..].
  pose proof (nth_error_grown_some _ (ODict []) _ _ E) as E1.
  destruct (entry_get "properties" d) as [x|] eqn:P.
  - (* properties declared *)
    assert (G : v_get (VRef a) "properties" (ODict []) h
                = (h ++ [ODict []], Ok x)).
    { unfold v_get. now rewrite E, P. }
    rewrite (bindH_ok _ _ _ _ _ G).
    eapply touched_heap_trans; [apply (touched_heap_grown h (ODict []))|].
    set (h1 := h ++ [ODict []]) in *.
    destruct (v_in "policyId" x h1) as [hh [declared|e]] eqn:D.
    2:{ rewrite (bindH_raise _ _ _ _ _ D).
        pose proof (reads_v_in "policyId" x h1) as R. rewrite D in R.
        simpl in *. subst hh. apply touched_heap_same. }
    pose proof (reads_v_in "policyId" x h1) as R. rewrite D in R.
    simpl in R. subst hh.
    rewrite (bindH_ok _ _ _ _ _ D).
    destruct declared; [apply touched_heap_same|].
    assert (M : entry_mem "properties" d = true)
      by (unfold entry_mem; now rewrite P).
    rewrite (bindH_ok _ _ _ _ _ (v_in_dict "properties" a d h1 E1)), M.
    unfold bindH at 1. unfold ret at 1.
    unfold bindH at 1. unfold alloc at 1.
    eapply touched_heap_trans; [apply (touched_heap_grown h1 policy_id_object)|].
    pose proof (nth_error_grown_some _ policy_id_object _ _ E1) as E2.
    set (h2 := h1 ++ [policy_id_object]) in *.
    rewrite (bindH_ok _ _ _ _ _ (v_getitem_dict "properties" a d x h2 E2 P)).
    destruct x as [| | | | |p];
      try (unfold bindH, v_setitem; apply touched_heap_same).
    unfold v_in in D.
    destruct (nth_error h1 p) as [[dp|lp]|] eqn:Ep; try discriminate.
    + pose proof (nth_error_grown_some _ policy_id_object _ _ Ep) as Ep2.
      fold h2 in Ep2.
      rewrite (bindH_ok _ _ _ _ _ (v_setitem_dict "policyId" p dp _ h2 Ep2)).
      eapply touched_heap_trans; [|apply Htail].
      apply v_setitem_absent; auto.
      * right. right. reflexivity.
      * congruence.
    + pose proof (nth_error_grown_some _ policy_id_object _ _ Ep) as Ep2.
      fold h2 in Ep2.
      unfold bindH, v_setitem. rewrite Ep2. apply touched_heap_same.
  - (* no properties *)
    assert (G : v_get (VRef a) "properties" (ODict []) h
                = (h ++ [ODict []], Ok (VRef (List.length h)))).
    { unfold v_get. now rewrite E, P. }
    rewrite (bindH_ok _ _ _ _ _ G).
    eapply touched_heap_trans; [apply (touched_heap_grown h (ODict []))|].
    pose proof (nth_error_grown_last h (ODict [])) as L1.
    set (h1 := h ++ [ODict []]) in *.
    rewrite (bindH_ok _ _ _ _ _ (v_in_dict "policyId" _ _ h1 L1)).
    change (entry_mem "policyId" (@nil (string * value))) with false.
    cbv iota.
    assert (M : entry_mem "properties" d = false)
      by (unfold entry_mem; now rewrite P).
    rewrite (bindH_ok _ _ _ _ _ (v_in_dict "properties" a d h1 E1)), M.
    unfold bindH at 1. unfold bindH at 1. unfold alloc at 1.
    eapply touched_heap_trans; [apply (touched_heap_grown h1 (ODict []))|].
    pose proof (nth_error_grown_some _ (ODict []) _ _ E1) as E2.
    pose proof (nth_error_grown_last h1 (ODict [])) as L2.
    set (h2 := h1 ++ [ODict []]) in *.
    rewrite (v_setitem_dict "properties" a d _ h2 E2).
    eapply touched_heap_trans.
    { apply (v_setitem_absent "properties" a d (VRef (List.length h1)) h2);
        auto. now left. }
    rewrite (entry_set_absent _ _ _ M).
    pose proof (nth_error_store_same a
                  (ODict (d ++ [("properties", VRef (List.length h1))]))
                  _ h2 E2) as E3.
    assert (Hne : a <> List.length h1).
    { assert (a < List.length h1)
        by (apply nth_error_Some; congruence). lia. }
    pose proof (nth_error_store_other a (List.length h1)
                  (ODict (d ++ [("properties", VRef (List.length h1))]))
                  h2 Hne) as L3.
    rewrite L2 in L3.
    set (h3 := store a _ h2) in *.
    unfold bindH at 1. unfold alloc at 1.
    eapply touched_heap_trans; [apply (touched_heap_grown h3 policy_id_object)|].
    pose proof (nth_error_grown_some _ policy_id_object _ _ E3) as E4.
    pose proof (nth_error_grown_some _ policy_id_object _ _ L3) as L4.
    set (h4 := h3 ++ [policy_id_object]) in *.
    rewrite (bindH_ok _ _ _ _ _
               (v_getitem_dict "properties" a _ _ h4 E4
                  (entry_get_added "properties" _ d M))).
    rewrite (bindH_ok _ _ _ _ _ (v_setitem_dict "policyId" _ _ _ h4 L4)).
    eapply touched_heap_trans; [|apply Htail].
    apply v_setitem_absent; auto. right. right. reflexivity.
Qed.


(** ** The loop over the schemas *)

Lemma process_schemas_h_writes (items : list (string * value))
    (grupo_id : nat) (ins : bool) (session : Session) (ps : list string)
    (h : heap) :
  touched_heap h
    (out_heap (process_schemas_h items grupo_id ins session ps h)).
Proof.
  revert session ps h.
  induction items as [|[schema_name schema_data] rest IH]; intros session ps h;
    simpl; [apply touched_heap_same|].
  destruct (String.eqb schema_name "AmountDetails" && ins); [apply IH|].
  destruct (upsert_conjunto_dados session schema_name grupo_id)
    as [conjunto_id session1].
  assert (Hinj : touched_heap h
            (fst (if ins then inject_policy_id_h schema_data h
                  else (h, Ok tt)))).
  { destruct ins; [apply inject_policy_id_h_writes|apply touched_heap_same]. }
  destruct (if ins then inject_policy_id_h schema_data h else (h, Ok tt))
    as [h1 [[]|e]]; simpl in Hinj; [|exact Hinj].
  pose proof (process_schema_fields_h_agree session1 schema_name schema_data
                conjunto_id ins h1) as Hf.
  apply agree_touched in Hf.
  destruct (process_schema_fields_h session1 schema_name schema_data
              conjunto_id ins h1) as [h2 [session2 [n|e]]]; simpl in Hf |- *.
  - eapply touched_heap_trans; [exact Hinj|].
    eapply touched_heap_trans; [exact Hf|apply IH].
  - eapply touched_heap_trans; eassumption.
Qed.

Lemma process_schemas_h_agree (n : nat) (items : list (string * value))
    (grupo_id : nat) (session : Session) (ps : list string) (h : heap) :
  n <= List.length h ->
  agree n h (out_heap (process_schemas_h items grupo_id false session ps h)).
Proof.
  revert session ps h.
  induction items as [|[schema_name schema_data] rest IH];
    intros session ps h Hn; simpl; [apply agree_same|].
  rewrite andb_false_r.
  destruct (upsert_conjunto_dados session schema_name grupo_id)
    as [conjunto_id session1].
  pose proof (process_schema_fields_h_agree session1 schema_name schema_data
                conjunto_id false h) as Hf.
  destruct (process_schema_fields_h session1 schema_name schema_data
              conjunto_id false h) as [h2 [session2 [k|e]]];
    simpl in Hf |- *.
  - eapply agree_trans; [eapply agree_less; [exact Hn|exact Hf]|].
    apply IH. destruct Hf. lia.
  - eapply agree_less; [exact Hn|exact Hf].
Qed.

(** ** The loaded objects after the run *)

(** C10, as stated, fails: after the run of a restricted document the
    mapping of the schema Resource, at 3, holds a required list it was not
    loaded with, and its properties, at 2, hold policyId. *)
Lemma loaded_objects_written :
  exists h',
    fst (fst (process_yaml_to_db_h (fun _ => Ok (resource_heap, VRef 4))
                (fun _ => Ok None) "resources_v2.yaml" "resources"
                empty_session)) = Some h' /\
    nth_error resource_heap 2
    = Some (ODict [("name", VRef 0); ("owner", VRef 1)]) /\
    nth_error h' 2
    = Some (ODict [("name", VRef 0); ("owner", VRef 1);
                   ("policyId", VRef 6)]) /\
    nth_error resource_heap 3 = Some (ODict [("properties", VRef 2)]) /\
    nth_error h' 3
    = Some (ODict [("properties", VRef 2); ("required", VRef 7)]) /\
    nth_error h' 6 = Some policy_id_object /\
    nth_error h' 7 = Some (OList [VStr "policyId"]).
Proof. eexists. repeat split; reflexivity. Qed.

(** C10, amended.  When the loader gives the objects [h0] of the document,
    the run ends with objects [h'] such that: every loaded object is still
    there and [touched] at most, that is, a loaded mapping has its entries
    as loaded and at most new entries under properties, required or
    policyId, a loaded list its elements as loaded and at most policyId
    after them, whichever schemas hold the object; when the document is
    not restricted every loaded object is exactly as loaded; and rule
    derivation, in either category and on any objects, leaves every object
    it finds as it is, writing into the copies it makes only. *)
Theorem loaded_objects_after_run
    (extract_schemas_from_yaml : string -> res (heap * value))
    (get_api_name_from_yaml : string -> res (option string))
    (yaml_path api_name : string) (session : Session) (h0 : heap)
    (schemas : value) :
  extract_schemas_from_yaml yaml_path = Ok (h0, schemas) ->
  exists h',
    fst (fst (process_yaml_to_db_h extract_schemas_from_yaml
                get_api_name_from_yaml yaml_path api_name session))
    = Some h' /\
    (forall a o, nth_error h0 a = Some o ->
       exists o', nth_error h' a = Some o' /\ touched o o') /\
    (is_insurance_related_file yaml_path = false ->
     forall a, a < List.length h0 -> nth_error h' a = nth_error h0 a) /\
    (forall session' schema_name schema_data conjunto_id
            is_insurance_schema h a,
       a < List.length h ->
       nth_error
         (fst (process_schema_fields_h session' schema_name schema_data
                 conjunto_id is_insurance_schema h)) a
       = nth_error h a).
Proof.
  intros Hload.
  assert (Hfields :
    forall session' schema_name schema_data conjunto_id is_insurance_schema
           h a,
      a < List.length h ->
      nth_error
        (fst (process_schema_fields_h session' schema_name schema_data
                conjunto_id is_insurance_schema h)) a
      = nth_error h a).
  { intros s n sd c i h a Ha.
    now apply (process_schema_fields_h_agree s n sd c i h). }
  assert (Hsame :
    (forall a o, nth_error h0 a = Some o ->
       exists o', nth_error h0 a = Some o' /\ touched o o') /\
    (is_insurance_related_file yaml_path = false ->
     forall a, a < List.length h0 -> nth_error h0 a = nth_error h0 a)).
  { split; [|reflexivity]. intros a o E. exists o. split; [exact E|].
    apply touched_same. }
  unfold process_yaml_to_db_h. rewrite Hload.
  destruct (v_truthy h0 schemas); cbn [negb];
    [|exists h0; split; [reflexivity|]; tauto].
  destruct (get_api_name_from_yaml yaml_path) as [api_name_from_yaml|e];
    [|exists h0; split; [reflexivity|]; tauto].
  destruct (upsert_grupo session _) as [grupo_id session1].
  pose proof (reads_v_items schemas h0) as Hr.
  destruct (v_items schemas h0) as [h1 [items|e]]; simpl in Hr; subst h1;
    [|exists h0; split; [reflexivity|]; tauto].
  eexists. split; [reflexivity|]. cbn [out_heap].
  split; [|split; [|exact Hfields]].
  - apply (process_schemas_h_writes items grupo_id
             (is_insurance_related_file yaml_path) session1 [] h0).
  - intros Hcat a Ha. rewrite Hcat.
    now apply (process_schemas_h_agree (List.length h0) items grupo_id
                 session1 [] h0 (le_n _)).
Qed.

Lemma loaded_objects_after_run_witness :
  exists h',
    fst (fst (process_yaml_to_db_h (fun _ => Ok (resource_heap, VRef 4))
                (fun _ => Ok None) "apis/resources.yaml" "resources"
                empty_session)) = Some h' /\
    (forall a o, nth_error resource_heap a = Some o ->
       exists o', nth_error h' a = Some o' /\ touched o o') /\
    (forall a, a < List.length resource_heap ->
       nth_error h' a = nth_error resource_heap a).
Proof.
  destruct (loaded_objects_after_run (fun _ => Ok (resource_heap, VRef 4))
              (fun _ => Ok None) "apis/resources.yaml" "resources"
              empty_session resource_heap (VRef 4) eq_refl)
    as (h' & Hrun & Htouched & Hsame & _).
  exists h'. split; [exact Hrun|]. split; [exact Htouched|].
  exact (Hsame eq_refl).
Defined.

(** ** An object held by two schemas *)


(** ** The run on objects and the run on values *)

(** On the document of the scenario, where no object is held twice, the
    run on the objects and the run on the document as a value end with the
    same session, the same result and, read as a value, the same
    document, in either category. *)
Lemma resource_runs_agree (yaml_path : string) :
  yaml_path = "resources_v2.yaml" \/ yaml_path = "apis/resources.yaml" ->
  view resource_heap (VRef 4) = resource_document /\
  exists h',
    fst (fst (process_yaml_to_db_h (fun _ => Ok (resource_heap, VRef 4))
                (fun _ => Ok None) yaml_path "resources" empty_session))
    = Some h' /\
    process_yaml_to_db_doc (fun _ => Ok resource_document)
      (fun _ => Ok None) yaml_path "resources" empty_session
    = (Some (view h' (VRef 4)),
       snd (fst (process_yaml_to_db_h (fun _ => Ok (resource_heap, VRef 4))
                   (fun _ => Ok None) yaml_path "resources" empty_session)),
       snd (process_yaml_to_db_h (fun _ => Ok (resource_heap, VRef 4))
              (fun _ => Ok None) yaml_path "resources" empty_session)).
Proof.
  intros [-> | ->]; (split; [reflexivity|]); eexists;
    (split; [reflexivity|]); vm_compute; reflexivity.
Qed.

(** On each of the sample documents, laid out as objects none of which is
    held twice, and in either category, the run on the objects and the run
    on the document as a value end with the same document, the same
    session and the same result. *)
Lemma runs_agree_on_samples :
  Forall
    (fun doc =>
       Forall
         (fun yaml_path =>
            run_on_objects_of doc yaml_path
            = process_yaml_to_db_doc (fun _ => Ok doc) (fun _ => Ok None)
                yaml_path "api" empty_session)
         ["insurance-auto.yaml"; "apis/claims.yaml"])
    sample_documents.
Proof. repeat (constructor; [repeat constructor|]). constructor. Qed.
